(** * Resume screening: parsing, text cleaning, skill extraction, quality
    scoring, ranking and match strength

    A shallow embedding of [resume_parser.py], [preprocessing.py],
    [skill_extractor.py] and [ranking_model.py], with the score grading of
    [visualization.py] and [app.py], and the properties of their
    specification.

    Conventions of the embedding.
    - Python [str] values are Rocq strings read as ASCII text. Python's
      [\w], [\s], [\b] and [str.lower] also know the letters, digits and
      blanks beyond ASCII; here a character above 127 is an uncased,
      non-word, non-space character, so the embedding speaks for the code
      on ASCII text.
    - Python floats are idealised as exact rationals ([Q]); [round] and
      [np.round] are round-half-to-even on the exact value.
    - A raised exception is a value of [result].
    - pandas and scikit-learn are not part of the sources. What the pipeline
      uses of them is written out from their documented behaviour: a frame
      as its labelled rows, [sort_values] on several keys as a stable sort,
      [head], [check_pairwise_arrays] and the guarded normalisation inside
      [cosine_similarity]. The vectoriser, the square root and the NLTK
      part of [clean_text] are parameters of the pipeline, and the general
      properties hold for each choice of them. [Vectorizer] is the
      vectoriser as scikit-learn computes it, with logarithms and square
      roots to eighteen decimals; the runs that tell what the code returns
      on given resumes use it. [Demo] is a smaller engine, which shows that
      the hypotheses of the general properties can be met. *)

From Stdlib Require Import List Bool Arith ZArith QArith Qround Lia Lqa.
From Stdlib Require Import Ascii String DecimalString Permutation Sorted.
Import ListNotations.

Local Open Scope string_scope.
Local Open Scope list_scope.

(** ** Exceptions *)

Inductive exn : Type :=
| ValueError (msg : string)
| IndexError (msg : string)
| FloatingPointError (msg : string).

Inductive result (A : Type) : Type :=
| Ok (a : A)
| Raise (e : exn).

Arguments Ok {A} a.
Arguments Raise {A} e.

Definition bind {A B : Type} (m : result A) (k : A -> result B) : result B :=
  match m with
  | Ok a => k a
  | Raise e => Raise e
  end.

Notation "x <- m ;; k" := (bind m (fun x => k))
  (at level 61, m at next level, right associativity).

Definition is_ok {A : Type} (m : result A) : bool :=
  match m with Ok _ => true | Raise _ => false end.

(** ** Characters and strings, as Python's [str] methods see them *)

Module Str.

Definition code (c : ascii) : N := N_of_ascii c.

Definition between (lo hi : N) (c : ascii) : bool :=
(lo <=? code c)%N && (code c <=? hi)%N.

Definition is_upper : ascii -> bool := between 65 90.
Definition is_lower : ascii -> bool := between 97 122.
Definition is_alpha (c : ascii) : bool := is_upper c || is_lower c.
Definition is_digit : ascii -> bool := between 48 57.

(** [\w] on ASCII text: letters, digits and the underscore. *)
Definition is_word (c : ascii) : bool :=
is_alpha c || is_digit c || (code c =? 95)%N.

(** [\s] on ASCII text: the characters for which [str.isspace] holds. *)
Definition is_space (c : ascii) : bool :=
between 9 13 c || between 28 32 c.

Definition lower_char (c : ascii) : ascii :=
if is_upper c then ascii_of_N (code c + 32) else c.

Definition upper_char (c : ascii) : ascii :=
if is_lower c then ascii_of_N (code c - 32) else c.

(** [str.lower] on ASCII text. *)
Fixpoint lower (s : string) : string :=
match s with
| EmptyString => EmptyString
| String c s' => String (lower_char c) (lower s')
end.

(** [str.title]: a cased character is upper-cased when the character before
  it is not cased, and lower-cased otherwise. *)
Fixpoint title_from (previous_is_cased : bool) (s : string) : string :=
match s with
| EmptyString => EmptyString
| String c s' =>
    String (if previous_is_cased then lower_char c else upper_char c)
           (title_from (is_alpha c) s')
end.

Definition title (s : string) : string := title_from false s.

(** [sep.join(items)]. *)
Fixpoint join (sep : string) (items : list string) : string :=
match items with
| [] => ""
| [x] => x
| x :: rest => x ++ sep ++ join sep rest
end.

(** [sorted] on a list of strings: code-point order. Insertion from the
  right keeps equal keys in their order. *)
Fixpoint insert_sorted (x : string) (l : list string) : list string :=
match l with
| [] => [x]
| y :: l' => if String.leb x y then x :: l else y :: insert_sorted x l'
end.

Definition sorted (l : list string) : list string :=
fold_right insert_sorted [] l.

(** [set(l)], as the list of its distinct members. *)
Definition set_of (l : list string) : list string := nodup string_dec l.

(** [str(n)] of a natural number. *)
Definition of_nat (n : nat) : string := NilZero.string_of_uint (Nat.to_uint n).

End Str.

(** ** The fragment of Python's [re] that the sources use *)

Module Re.

Inductive regex : Type :=
| Lit (c : ascii)                          (* a literal or escaped character *)
| Cls (p : ascii -> bool)                  (* a class: [\w], [\d], [[...]] *)
| WordB                                    (* [\b] *)
| Cat (r1 r2 : regex)                      (* concatenation *)
| Opt (r : regex)                          (* [r?] *)
| Rep (p : ascii -> bool) (least : nat)    (* a class repeated: [+], [{n,}] *)
| Eps.                                     (* the empty pattern *)

(** [\b] holds between a word character and a non-word character or an end
  of the text. *)
Definition word_of (o : option ascii) : bool :=
match o with Some c => Str.is_word c | None => false end.

Definition at_boundary (prev : option ascii) (rest : list ascii) : bool :=
xorb (word_of prev) (word_of (hd_error rest)).

Definition Cont : Type := option ascii -> list ascii -> bool.

Fixpoint rep_at (p : ascii -> bool) (least : nat) (prev : option ascii)
  (s : list ascii) (k : Cont) : bool :=
match s with
| c :: s' =>
    if p c
    then rep_at p (pred least) (Some c) s' k || ((least =? 0)%nat && k prev s)
    else (least =? 0)%nat && k prev s
| [] => (least =? 0)%nat && k prev s
end.

(** [match_at r prev s k]: [r] matches a prefix of [s] (the character before
  [s] being [prev]) and [k] accepts what follows. *)
Fixpoint match_at (r : regex) (prev : option ascii) (s : list ascii)
  (k : Cont) : bool :=
match r with
| Lit c =>
    match s with
    | c' :: s' => if Ascii.eqb c c' then k (Some c') s' else false
    | [] => false
    end
| Cls p =>
    match s with
    | c' :: s' => if p c' then k (Some c') s' else false
    | [] => false
    end
| WordB => if at_boundary prev s then k prev s else false
| Cat r1 r2 => match_at r1 prev s (fun prev' s' => match_at r2 prev' s' k)
| Opt r1 => match_at r1 prev s k || k prev s
| Rep p least => rep_at p least prev s k
| Eps => k prev s
end.

Fixpoint search_from (r : regex) (prev : option ascii) (s : list ascii) : bool :=
match_at r prev s (fun _ _ => true)
|| match s with
   | [] => false
   | c :: s' => search_from r (Some c) s'
   end.

(** [re.search(pattern, text)] read as a truth value. *)
Definition search (r : regex) (text : string) : bool :=
search_from r None (list_ascii_of_string text).

(** The pattern that matches the characters of [s] one after the other. *)
Fixpoint lits (s : string) : regex :=
match s with
| EmptyString => Eps
| String c EmptyString => Lit c
| String c s' => Cat (Lit c) (lits s')
end.

(** [re.escape(s)]: every character of [s] stands for itself. *)
Definition escape (s : string) : regex := lits s.

(** A pattern written [\bword\b]. *)
Definition word (s : string) : regex := Cat WordB (Cat (lits s) WordB).

(** Concatenation of several patterns. *)
Fixpoint cats (rs : list regex) : regex :=
match rs with
| [] => Eps
| [r] => r
| r :: rs' => Cat r (cats rs')
end.

End Re.

(** ** [skill_extractor.py]: the skill taxonomy and [extract_skills] *)

Definition SKILL_CATEGORIES : list (string * list string) :=
  [ ("Programming Languages",
      ["python"; "java"; "javascript"; "typescript"; "c++"; "c#"; "r"; "go";
       "rust"; "scala"; "kotlin"; "swift"; "php"; "ruby"; "matlab"]);
    ("Web Development",
      ["html"; "css"; "react"; "angular"; "vue"; "node"; "django"; "flask";
       "fastapi"; "bootstrap"; "tailwind"; "jquery"; "rest api"; "graphql"]);
    ("Data Science & ML",
      ["machine learning"; "deep learning"; "nlp"; "natural language processing";
       "tensorflow"; "keras"; "pytorch"; "scikit-learn"; "sklearn"; "xgboost";
       "pandas"; "numpy"; "scipy"; "data science"; "computer vision"; "bert";
       "transformer"; "neural network"; "reinforcement learning"]);
    ("Databases",
      ["sql"; "mysql"; "postgresql"; "mongodb"; "redis"; "sqlite"; "oracle";
       "cassandra"; "elasticsearch"; "nosql"; "firebase"]);
    ("Cloud & DevOps",
      ["aws"; "azure"; "gcp"; "docker"; "kubernetes"; "ci/cd"; "jenkins";
       "terraform"; "ansible"; "linux"; "git"; "github"; "gitlab"; "devops"]);
    ("Data Analytics & BI",
      ["tableau"; "power bi"; "excel"; "looker"; "data visualization";
       "matplotlib"; "seaborn"; "plotly"; "statistics"; "data analysis"]);
    ("Soft Skills",
      ["communication"; "leadership"; "teamwork"; "problem solving";
       "critical thinking"; "project management"; "agile"; "scrum";
       "time management"; "collaboration"]) ].

Definition ALL_SKILLS : list string :=
  flat_map snd SKILL_CATEGORIES.

(** The pattern built for one skill: [r'\b' + re.escape(skill) + r'\b']. *)
Definition skill_pattern (skill : string) : Re.regex :=
  Re.Cat Re.WordB (Re.Cat (Re.escape skill) Re.WordB).

(** The loop over [ALL_SKILLS], appending the title-cased skill on a match. *)
Fixpoint found_skills_loop (skills : list string) (text_lower : string)
    (found_skills : list string) : list string :=
  match skills with
  | [] => found_skills
  | skill :: rest =>
      if Re.search (skill_pattern skill) text_lower
      then found_skills_loop rest text_lower (found_skills ++ [Str.title skill])
      else found_skills_loop rest text_lower found_skills
  end.

Definition extract_skills (text : string) : list string :=
  if String.eqb text "" then []
  else
    let text_lower := Str.lower text in
    let found_skills := found_skills_loop ALL_SKILLS text_lower [] in
    Str.sorted (Str.set_of found_skills).

(** ** [skill_extractor.py]: the quality checklist *)

(** [round(x, ndigits)] and [np.round(x, ndigits)] on the exact value:
    the nearest multiple of [10^-ndigits], a tie going to the even one. *)
Definition round_half_even (x : Q) : Z :=
  let f := Qfloor x in
  match Qcompare (x - inject_Z f) (1 # 2) with
  | Lt => f
  | Gt => (f + 1)%Z
  | Eq => if Z.even f then f else (f + 1)%Z
  end.

Definition py_round (x : Q) (ndigits : nat) : Q :=
  let scale := inject_Z (10 ^ Z.of_nat ndigits) in
  Qred (inject_Z (round_half_even (x * scale)) / scale).

Record QualityCheck : Type := {
  section_name : string;
  weight : Q;
  patterns : list Re.regex
}.

Definition cls_email (c : ascii) : bool :=
  Str.is_word c || Ascii.eqb c "." || Ascii.eqb c "-".

Definition cls_phone (c : ascii) : bool :=
  Str.is_digit c || Str.is_space c || Ascii.eqb c "-" || Ascii.eqb c "("
  || Ascii.eqb c ")" || Ascii.eqb c ".".

Definition QUALITY_CHECKS : list QualityCheck :=
  [ {| section_name := "Contact Information"; weight := 2;
       patterns :=
         [ (* [\w\.-]+@[\w\.-]+\.\w+ *)
           Re.cats [Re.Rep cls_email 1; Re.Lit "@"; Re.Rep cls_email 1;
                    Re.Lit "."; Re.Rep Str.is_word 1];
           (* (\+?\d[\d\s\-().]{7,}\d) *)
           Re.cats [Re.Opt (Re.Lit "+"); Re.Cls Str.is_digit;
                    Re.Rep cls_phone 7; Re.Cls Str.is_digit] ] |};
    {| section_name := "Skills Section"; weight := 2;
       patterns :=
         [ (* \bskills?\b *)
           Re.cats [Re.WordB; Re.lits "skill"; Re.Opt (Re.Lit "s"); Re.WordB];
           Re.word "technical skills";
           Re.word "core competencies";
           Re.word "proficiencies" ] |};
    {| section_name := "Education"; weight := 2;
       patterns :=
         [ Re.word "education"; Re.word "degree"; Re.word "bachelor";
           Re.word "master"; Re.word "phd"; Re.word "university";
           Re.word "college" ] |};
    {| section_name := "Work Experience"; weight := 2;
       patterns :=
         [ Re.word "experience"; Re.word "work history"; Re.word "employment";
           Re.word "job"; Re.word "intern"; Re.word "position" ] |};
    {| section_name := "Summary / Objective"; weight := 1;
       patterns :=
         [ Re.word "summary"; Re.word "objective"; Re.word "profile";
           Re.word "about me" ] |};
    {| section_name := "Projects / Certifications"; weight := 1;
       patterns :=
         [ Re.word "project";
           (* \bcertif *)
           Re.Cat Re.WordB (Re.lits "certif");
           Re.word "achievement"; Re.word "award" ] |} ].

Record BreakdownEntry : Type := {
  found : bool;
  entry_weight : Q
}.

Record QualityResult : Type := {
  score : Q;
  breakdown : list (string * BreakdownEntry);
  feedback : list string
}.

(** [d[key] = value] on a dict kept in insertion order. *)
Fixpoint dict_set {V : Type} (d : list (string * V)) (key : string) (value : V)
    : list (string * V) :=
  match d with
  | [] => [(key, value)]
  | (k, v) :: d' =>
      if String.eqb k key then (k, value) :: d'
      else (k, v) :: dict_set d' key value
  end.

(** [sum(v['weight'] for v in checks.values())]. *)
Definition total_weight_of (checks : list QualityCheck) : Q :=
  fold_left (fun acc v => acc + weight v) checks 0.

(** [any(re.search(pattern, text_lower) for pattern in config['patterns'])]. *)
Definition section_found (text_lower : string) (config : QualityCheck) : bool :=
  existsb (fun pattern => Re.search pattern text_lower) (patterns config).

Definition feedback_for (section : string) : string :=
  "Add a '" ++ section ++ "' section to improve your resume score.".

(** The state of the loop over the checklist. *)
Record QualityAcc : Type := {
  earned_score : Q;
  acc_breakdown : list (string * BreakdownEntry);
  acc_feedback : list string
}.

Definition quality_step (text_lower : string) (acc : QualityAcc)
    (config : QualityCheck) : QualityAcc :=
  let found := section_found text_lower config in
  {| earned_score :=
       if found then earned_score acc + weight config else earned_score acc;
     acc_feedback :=
       if found then acc_feedback acc
       else acc_feedback acc ++ [feedback_for (section_name config)];
     acc_breakdown :=
       dict_set (acc_breakdown acc) (section_name config)
                {| found := found; entry_weight := weight config |} |}.

Definition quality_loop (checks : list QualityCheck) (text_lower : string)
    (acc : QualityAcc) : QualityAcc :=
  fold_left (quality_step text_lower) checks acc.

Definition analyze_resume_quality (text : string) : QualityResult :=
  if String.eqb text "" then
    {| score := 0; breakdown := []; feedback := ["No text found in resume."] |}
  else
    let text_lower := Str.lower text in
    let total_weight := total_weight_of QUALITY_CHECKS in
    let acc :=
      quality_loop QUALITY_CHECKS text_lower
        {| earned_score := 0; acc_breakdown := []; acc_feedback := [] |} in
    let final_score := py_round ((earned_score acc / total_weight) * 10) 1 in
    {| score := final_score;
       breakdown := acc_breakdown acc;
       feedback := acc_feedback acc |}.

Definition get_quality_label (score : Q) : string :=
  if Qle_bool 8 score then "🌟 Excellent"
  else if Qle_bool 6 score then "✅ Good"
  else if Qle_bool 4 score then "⚠️ Average"
  else "❌ Needs Work".

(** ** Arrays, frames and the numeric library *)

Definition vector : Type := list Q.
Definition matrix : Type := list vector.

Definition Qltb (x y : Q) : bool := negb (Qle_bool y x).

(** [np.round(a, decimals)] on every entry. *)
Definition np_round (a : vector) (decimals : nat) : vector :=
  map (fun x => py_round x decimals) a.

(** [l[i]], which raises on an index out of range. *)
Definition index {A : Type} (l : list A) (i : nat) : result A :=
  match nth_error l i with
  | Some a => Ok a
  | None => Raise (IndexError "index out of range")
  end.

(** A frame: its rows in order, each with its index label. *)
Definition frame (A : Type) : Type := list (nat * A).

Definition labelled {A : Type} (rows : list A) : frame A :=
  combine (seq 0 (List.length rows)) rows.

(** [df.reset_index(drop=True)]. *)
Definition reset_index {A : Type} (df : frame A) : frame A :=
  labelled (map snd df).

(** [df.head(n)], that is [df.iloc[:n]]: the first [n] rows, and for a
    negative [n] all rows but the last [-n]. *)
Definition head {A : Type} (df : frame A) (n : Z) : frame A :=
  if (0 <=? n)%Z then firstn (Z.to_nat n) df
  else firstn (Z.to_nat (Z.of_nat (List.length df) + n)) df.

(** A stable sort: [x] is put before the first row that does not come
    strictly before it, and rows are inserted from the last to the first, so
    rows with equal keys keep their order. *)
Section StableSort.
Context {A : Type}.
Variable strictly_before : A -> A -> bool.

Fixpoint insert_row (x : nat * A) (l : frame A) : frame A :=
  match l with
  | [] => [x]
  | y :: l' =>
      if strictly_before (snd y) (snd x) then y :: insert_row x l'
      else x :: l
  end.

Definition stable_sort (df : frame A) : frame A :=
  fold_right insert_row [] df.
End StableSort.

(** [range(start, stop)]. *)
Definition range (start stop : nat) : list nat := seq start (stop - start).

Fixpoint mapM {A B : Type} (f : A -> result B) (l : list A) : result (list B) :=
  match l with
  | [] => Ok []
  | x :: l' => y <- f x ;; ys <- mapM f l' ;; Ok (y :: ys)
  end.

(** ** The records that the ranking module passes around *)

Record Resume : Type := {
  name : string;
  text : string
}.

Record Row : Type := {
  candidate_name : string;
  similarity_score : Q;
  extracted_skills : string;
  skill_count : nat;
  quality_score : Q;
  quality_label : string;
  skills_list : list string;
  quality_detail : QualityResult
}.

Record RankedRow : Type := {
  Rank : nat;
  columns : Row
}.

Record DuplicatePair : Type := {
  candidate_a : string;
  candidate_b : string;
  similarity : Q
}.

(** [pd.DataFrame({...})]: one row per position of the columns, which must
    all have the same length. *)
Fixpoint zip_columns (names : list string) (sims : vector) (strs : list string)
    (counts : list nat) (qscores : list Q) (labels : list string)
    (lists : list (list string)) (details : list QualityResult) : list Row :=
  match names, sims, strs, counts, qscores, labels, lists, details with
  | n :: names', s :: sims', t :: strs', c :: counts', q :: qscores',
    l :: labels', k :: lists', d :: details' =>
      {| candidate_name := n; similarity_score := s; extracted_skills := t;
         skill_count := c; quality_score := q; quality_label := l;
         skills_list := k; quality_detail := d |}
      :: zip_columns names' sims' strs' counts' qscores' labels' lists' details'
  | _, _, _, _, _, _, _, _ => []
  end.

Definition DataFrame (names : list string) (sims : vector) (strs : list string)
    (counts : list nat) (qscores : list Q) (labels : list string)
    (lists : list (list string)) (details : list QualityResult)
    : result (frame Row) :=
  let n := List.length names in
  if forallb (Nat.eqb n)
       [List.length sims; List.length strs; List.length counts;
        List.length qscores; List.length labels; List.length lists;
        List.length details]
  then Ok (labelled (zip_columns names sims strs counts qscores labels lists details))
  else Raise (ValueError "All arrays must be of the same length").

(** The order of [sort_values(by=['Similarity Score', 'Quality Score'],
    ascending=[False, False])]: a higher similarity first, and among equal
    similarities a higher quality first. *)
Definition ranks_before (a b : Row) : bool :=
  Qltb (similarity_score b) (similarity_score a)
  || (Qeq_bool (similarity_score a) (similarity_score b)
      && Qltb (quality_score b) (quality_score a)).

Definition sort_values (df : frame Row) : frame Row :=
  stable_sort ranks_before df.

(** [df.insert(0, 'Rank', range(1, len(df) + 1))]. *)
Definition insert_rank (df : frame Row) : frame RankedRow :=
  map (fun p : nat * (nat * Row) =>
         (fst (snd p), {| Rank := fst p; columns := snd (snd p) |}))
      (combine (range 1 (List.length df + 1)) df).

(** ** [preprocessing.py] and [ranking_model.py] *)

Section Pipeline.

(** Steps 2 to 7 of [clean_text]: the substitutions and the NLTK
    stop-word filter, with its fallback. *)
Variable strip_and_filter : string -> string.

(** [TfidfVectorizer(max_features=8000, ngram_range=(1, 2),
    sublinear_tf=True, min_df=1).fit_transform]. *)
Variable fit_transform : list string -> result matrix.

(** The square root of the numeric library. *)
Variable sqrtQ : Q -> Q.

Definition clean_text (text : string) : string :=
  if String.eqb text "" then ""
  else strip_and_filter (Str.lower text).

Definition build_tfidf_matrix (documents : list string) : result matrix :=
  fit_transform documents.

(** *** [sklearn.metrics.pairwise.cosine_similarity] *)

Definition dot (a b : vector) : Q :=
  fold_right Qplus 0 (map (fun p => fst p * snd p) (combine a b)).

Definition row_norm (x : vector) : Q := sqrtQ (dot x x).

(** A zero norm is replaced by one before the division. *)
Definition handle_zeros_in_scale (scale : Q) : Q :=
  if Qeq_bool scale 0 then 1 else scale.

(** A division by zero gives no number; it stands for the [nan] or [inf]
    that numpy would produce. *)
Definition checked_div (x y : Q) : result Q :=
  if Qeq_bool y 0 then Raise (FloatingPointError "division by zero")
  else Ok (x / y).

Definition normalize_row (x : vector) : result vector :=
  let norm := handle_zeros_in_scale (row_norm x) in
  mapM (fun v => checked_div v norm) x.

Definition normalize (X : matrix) : result matrix :=
  mapM normalize_row X.

(** The number of columns of an array, read off its first row. *)
Definition n_features (X : matrix) : nat :=
  match X with
  | x :: _ => List.length x
  | [] => 0%nat
  end.

(** The message of [check_array] for an array of [n_samples] rows, which
    are too few. *)
Definition min_samples_message (n_samples n_features : nat) : string :=
  ("Found array with " ++ Str.of_nat n_samples ++ " sample(s) (shape=("
   ++ Str.of_nat n_samples ++ ", " ++ Str.of_nat n_features
   ++ ")) while a minimum of 1 is required by check_pairwise_arrays.")%string.

(** [check_pairwise_arrays]: both arrays need at least one row, and [X] is
    checked first. An array without rows still has its columns in numpy; a
    list of rows has not, so the number of columns in the message is read
    off the other array: wherever this module calls [cosine_similarity] the
    two arrays are slices of one matrix. *)
Definition check_pairwise_arrays (X Y : matrix) : result unit :=
  match X, Y with
  | [], _ => Raise (ValueError (min_samples_message 0 (n_features Y)))
  | _ :: _, [] => Raise (ValueError (min_samples_message 0 (n_features X)))
  | _ :: _, _ :: _ => Ok tt
  end.

Definition cosine_similarity (X : matrix) (Y : option matrix) : result matrix :=
  let Y' := match Y with Some Y0 => Y0 | None => X end in
  _ <- check_pairwise_arrays X Y' ;;
  X_normalized <- normalize X ;;
  Y_normalized <- normalize Y' ;;
  Ok (map (fun x => map (fun y => dot x y) Y_normalized) X_normalized).

(** *** [ranking_model.py] *)

Definition compute_cosine_similarity (jd_vector resume_vectors : matrix)
    : result vector :=
  K <- cosine_similarity jd_vector (Some resume_vectors) ;;
  index K 0.

(** Steps 1 to 8 of [rank_candidates]: the frame before it is sorted. *)
Definition results_frame (job_description : string) (resumes : list Resume)
    : result (frame Row) :=
  let cleaned_jd := clean_text job_description in
  let candidate_names := map name resumes in
  let cleaned_resumes := map (fun resume => clean_text (text resume)) resumes in
  let raw_resume_texts := map text resumes in
  let corpus := cleaned_jd :: cleaned_resumes in
  tfidf_matrix <- build_tfidf_matrix corpus ;;
  let jd_vector := firstn 1 tfidf_matrix in
  let resume_vectors := skipn 1 tfidf_matrix in
  similarity_scores <- compute_cosine_similarity jd_vector resume_vectors ;;
  let all_skills := map extract_skills raw_resume_texts in
  let skills_str :=
    map (fun skills =>
           match skills with
           | [] => "None detected"
           | _ => Str.join ", " skills
           end) all_skills in
  let quality_results := map analyze_resume_quality raw_resume_texts in
  let quality_scores := map score quality_results in
  let quality_labels :=
    map (fun r => get_quality_label (score r)) quality_results in
  let quality_details := quality_results in
  DataFrame candidate_names (np_round similarity_scores 4) skills_str
            (map (@List.length string) all_skills) quality_scores
            quality_labels all_skills quality_details.

Definition rank_candidates (job_description : string) (resumes : list Resume)
    : result (frame RankedRow) :=
  results_df <- results_frame job_description resumes ;;
  let results_df := reset_index (sort_values results_df) in
  Ok (insert_rank results_df).

(** The inner loop of [detect_duplicates], [for j in range(i + 1, n)]. *)
Fixpoint scan_row (names : list string) (sim_matrix : matrix) (threshold : Q)
    (i : nat) (js : list nat) (duplicates : list DuplicatePair)
    : result (list DuplicatePair) :=
  match js with
  | [] => Ok duplicates
  | j :: js' =>
      sim_row <- index sim_matrix i ;;
      sim_ij <- index sim_row j ;;
      let sim_score := py_round sim_ij 4 in
      if Qle_bool threshold sim_score then
        a <- index names i ;;
        b <- index names j ;;
        scan_row names sim_matrix threshold i js'
          (duplicates ++ [ {| candidate_a := a; candidate_b := b;
                              similarity := sim_score |} ])
      else scan_row names sim_matrix threshold i js' duplicates
  end.

(** The outer loop, [for i in range(n)]. *)
Fixpoint scan_rows (names : list string) (sim_matrix : matrix) (threshold : Q)
    (n : nat) (rows : list nat) (duplicates : list DuplicatePair)
    : result (list DuplicatePair) :=
  match rows with
  | [] => Ok duplicates
  | i :: rows' =>
      duplicates' <- scan_row names sim_matrix threshold i
                       (range (i + 1) n) duplicates ;;
      scan_rows names sim_matrix threshold n rows' duplicates'
  end.

Definition detect_duplicates (resumes : list Resume) (threshold : Q)
    : result (list DuplicatePair) :=
  if (List.length resumes <? 2)%nat then Ok []
  else
    let cleaned_texts := map (fun r => clean_text (text r)) resumes in
    let names := map name resumes in
    tfidf_matrix <- build_tfidf_matrix cleaned_texts ;;
    sim_matrix <- cosine_similarity tfidf_matrix None ;;
    let n := List.length resumes in
    scan_rows names sim_matrix threshold n (range 0 n) [].

End Pipeline.

Definition get_top_recommendations (results_df : frame RankedRow) (top_n : Z)
    : frame RankedRow :=
  let recommendations := head results_df top_n in
  recommendations.

(** ** A small numeric engine

    Raw term counts over the words of the corpus in place of the TF-IDF
    weights, and the square root to six decimals. Like the vectoriser the
    engine raises on an empty vocabulary and returns one row per document.
    It is not the vectoriser of the sources: it serves to show that the
    hypotheses of the general properties can be met, and in runs whose
    outcome does not depend on the weights. *)

Module Demo.

Fixpoint words_from (current : string) (s : string) : list string :=
  match s with
  | EmptyString =>
      if (2 <=? String.length current)%nat then [current] else []
  | String c s' =>
      if Str.is_word c then words_from (current ++ String c EmptyString) s'
      else if (2 <=? String.length current)%nat
           then current :: words_from "" s'
           else words_from "" s'
  end.

Definition words (document : string) : list string := words_from "" document.

Definition vocabulary (documents : list string) : list string :=
  nodup string_dec (flat_map words documents).

Definition count_of (term : string) (document : string) : Q :=
  inject_Z (Z.of_nat (count_occ string_dec (words document) term)).

Definition fit_transform (documents : list string) : result matrix :=
  match vocabulary documents with
  | [] => Raise (ValueError
            "empty vocabulary; perhaps the documents only contain stop words")
  | vocab => Ok (map (fun d => map (fun t => count_of t d) vocab) documents)
  end.

Definition sqrtQ (x : Q) : Q :=
  Qred (inject_Z (Z.sqrt (Qfloor (x * inject_Z (10 ^ 12)))) / inject_Z (10 ^ 6)).

Definition strip_and_filter (s : string) : string := s.

Definition rank : string -> list Resume -> result (frame RankedRow) :=
  rank_candidates strip_and_filter fit_transform sqrtQ.

Definition duplicates : list Resume -> Q -> result (list DuplicatePair) :=
  detect_duplicates strip_and_filter fit_transform sqrtQ.

Definition alice : Resume :=
  {| name := "alice"; text := "Skills: Python, SQL. Education: BSc" |}.
Definition bob : Resume :=
  {| name := "bob"; text := "barista, customer service" |}.
Definition carol : Resume :=
  {| name := "carol"; text := "barista, customer service" |}.
Definition dave : Resume :=
  {| name := "dave"; text := "" |}.
Definition dana : Resume :=
  {| name := "dana"; text := "python sql docker linux" |}.
Definition erin : Resume :=
  {| name := "erin";
     text := "python sql docker linux git aws azure java rust" |}.

Definition job : string := "python sql developer".
Definition applicants : list Resume := [bob; alice; carol].

Definition corpus : list string :=
  clean_text strip_and_filter job
  :: map (fun resume => clean_text strip_and_filter (text resume)) applicants.

Definition or_empty {A : Type} (m : result (list A)) : list A :=
  match m with Ok l => l | Raise _ => [] end.

(** The values that the runs on [job] and [applicants] produce. *)
Definition tfidf : matrix := Eval vm_compute in or_empty (fit_transform corpus).

Definition ranked : frame RankedRow :=
  Eval vm_compute in or_empty (rank job applicants).

Definition applicants_tfidf : matrix :=
  Eval vm_compute in
    or_empty (fit_transform
                (map (fun r => clean_text strip_and_filter (text r)) applicants)).

End Demo.

(** * Further functions of the sources *)

(** ** [skill_extractor.py]: [get_skills_by_category] *)

(** [x in l] on a list of strings. *)
Definition str_in (x : string) (l : list string) : bool :=
  existsb (String.eqb x) l.

(** One turn of the loop over [SKILL_CATEGORIES.items()]. *)
Definition category_step (found_skills : list string)
    (categorized : list (string * list string))
    (item : string * list string) : list (string * list string) :=
  let category := fst item in
  let skills := snd item in
  let matched :=
    map Str.title
        (filter (fun s => str_in (Str.title s) found_skills) skills) in
  match matched with
  | [] => categorized
  | _ :: _ => dict_set categorized category matched
  end.

Definition get_skills_by_category (found_skills : list string)
    : list (string * list string) :=
  fold_left (category_step found_skills) SKILL_CATEGORIES [].

(** The skills of one category that are among [found_skills]. *)
Definition matched_in (found_skills : list string) (skills : list string)
    : list string :=
  map Str.title (filter (fun s => str_in (Str.title s) found_skills) skills).

Definition category_entry (found_skills : list string)
    (item : string * list string) : list (string * list string) :=
  match matched_in found_skills (snd item) with
  | [] => []
  | m => [(fst item, m)]
  end.


(** The breakdown entry that [analyze_resume_quality] records for one
    section. *)
Definition breakdown_entry (text_lower : string) (config : QualityCheck)
    : string * BreakdownEntry :=
  (section_name config,
   {| found := section_found text_lower config;
      entry_weight := weight config |}).

(** The row that [rank_candidates] builds for one resume, given its
    similarity score. *)
Definition row_of (resume : Resume) (similarity : Q) : Row :=
  let skills := extract_skills (text resume) in
  let quality := analyze_resume_quality (text resume) in
  {| candidate_name := name resume;
     similarity_score := similarity;
     extracted_skills :=
       match skills with
       | [] => "None detected"
       | _ :: _ => Str.join ", " skills
       end;
     skill_count := List.length skills;
     quality_score := score quality;
     quality_label := get_quality_label (score quality);
     skills_list := skills;
     quality_detail := quality |}.

(** ** [preprocessing.py]: the steps of [clean_text] *)

(** [re.sub] for the patterns of [clean_text]. A match is tried at each
    position from left to right; a matched stretch is replaced and the scan
    goes on behind it. None of the patterns matches the empty string. *)
Module Sub.

Inductive pat : Type :=
| Text (s : string)             (* literal characters *)
| One (p : ascii -> bool)       (* one character of a class *)
| Plus (p : ascii -> bool)      (* a class repeated, [+], longest first *)
| Seq (a b : pat)               (* concatenation *)
| Alt (a b : pat).              (* [a|b], [a] tried first *)

(** What follows a pattern: the number of characters it goes on to match,
    if it matches. *)
Definition LCont : Type := list ascii -> option nat.

Fixpoint plus_more (p : ascii -> bool) (s : list ascii) (k : LCont) : option nat :=
  match s with
  | c :: s' =>
      if p c then
        match plus_more p s' k with
        | Some n => Some (S n)
        | None => k s
        end
      else k s
  | [] => k s
  end.

Fixpoint text_at (t s : list ascii) (k : LCont) : option nat :=
  match t with
  | [] => k s
  | c :: t' =>
      match s with
      | c' :: s' => if Ascii.eqb c c' then option_map S (text_at t' s' k) else None
      | [] => None
      end
  end.

(** [match_len r s k]: the length of the match of [r] followed by [k] at the
    start of [s], the first one in backtracking order. *)
Fixpoint match_len (r : pat) (s : list ascii) (k : LCont) : option nat :=
  match r with
  | Text t => text_at (list_ascii_of_string t) s k
  | One p =>
      match s with
      | c :: s' => if p c then option_map S (k s') else None
      | [] => None
      end
  | Plus p =>
      match s with
      | c :: s' => if p c then option_map S (plus_more p s' k) else None
      | [] => None
      end
  | Seq a b => match_len a s (fun s' => match_len b s' k)
  | Alt a b =>
      match match_len a s k with
      | Some n => Some n
      | None => match_len b s k
      end
  end.

(** [skip] counts the characters of the last match that are still to be
    passed over. *)
Fixpoint sub_from (r : pat) (repl : list ascii) (skip : nat) (s : list ascii)
    : list ascii :=
  match s with
  | [] => []
  | c :: s' =>
      match skip with
      | S k => sub_from r repl k s'
      | O =>
          match match_len r s (fun _ => Some 0%nat) with
          | Some (S n) => repl ++ sub_from r repl n s'
          | _ => c :: sub_from r repl 0 s'
          end
      end
  end.

(** [re.sub(pattern, repl, text)]. *)
Definition sub (r : pat) (repl : string) (text : string) : string :=
  string_of_list_ascii
    (sub_from r (list_ascii_of_string repl) 0 (list_ascii_of_string text)).

End Sub.

(** [str.strip()]: leading and trailing whitespace removed. *)
Fixpoint lstrip_chars (s : list ascii) : list ascii :=
  match s with
  | c :: s' => if Str.is_space c then lstrip_chars s' else s
  | [] => []
  end.

Definition strip_chars (s : list ascii) : list ascii :=
  rev (lstrip_chars (rev (lstrip_chars s))).

Definition strip (s : string) : string :=
  string_of_list_ascii (strip_chars (list_ascii_of_string s)).

Definition non_space (c : ascii) : bool := negb (Str.is_space c).

(** [r'http\S+|www\S+|https\S+'] *)
Definition url_pattern : Sub.pat :=
  Sub.Alt (Sub.Seq (Sub.Text "http") (Sub.Plus non_space))
    (Sub.Alt (Sub.Seq (Sub.Text "www") (Sub.Plus non_space))
             (Sub.Seq (Sub.Text "https") (Sub.Plus non_space))).

(** [r'\S+@\S+'] *)
Definition email_pattern : Sub.pat :=
  Sub.Seq (Sub.Plus non_space) (Sub.Seq (Sub.Text "@") (Sub.Plus non_space)).

(** The characters that [[^a-z0-9\s\+\-\#]] leaves alone, whitespace
    apart. *)
Definition kept_char (c : ascii) : bool :=
  Str.is_lower c || Str.is_digit c || Ascii.eqb c "+" || Ascii.eqb c "-"
  || Ascii.eqb c "#".

(** [r'[^a-z0-9\s\+\-\#]'] *)
Definition special_pattern : Sub.pat :=
  Sub.One (fun c => negb (kept_char c || Str.is_space c)).

(** [r'\s+'] *)
Definition spaces_pattern : Sub.pat := Sub.Plus Str.is_space.

(** Steps 2 to 5 of [clean_text], on the lowercased text. *)
Definition strip_noise (text : string) : string :=
  let text := Sub.sub url_pattern "" text in
  let text := Sub.sub email_pattern "" text in
  let text := Sub.sub special_pattern " " text in
  strip (Sub.sub spaces_pattern " " text).

Section StopWords.

(** [stopwords.words('english')] and [word_tokenize] of NLTK; either may
    raise, for instance when its data is not installed. *)
Variable stopwords_english : result (list string).
Variable word_tokenize : string -> result (list string).

(** The body of the [try] of step 6. *)
Definition remove_stopwords (text : string) : result string :=
  stop_words <- stopwords_english ;;
  tokens <- word_tokenize text ;;
  let filtered_tokens :=
    filter (fun token =>
              negb (str_in token stop_words) && (1 <? String.length token)%nat)
           tokens in
  Ok (Str.join " " filtered_tokens).

(** Steps 2 to 7 of [clean_text]: what [clean_text] does to the lowercased
    text. *)
Definition clean_steps (text : string) : string :=
  let text := strip_noise text in
  match remove_stopwords text with
  | Ok text' => text'
  | Raise _ => strip (Sub.sub spaces_pattern " " text)
  end.

End StopWords.

(** *** What a cleaned text looks like *)

(** Whitespace only as single blanks: every whitespace character is a
    blank and no two of them are adjacent ([after_space] tells whether the
    character before the list is whitespace). *)
Fixpoint single_spaced (after_space : bool) (l : list ascii) : bool :=
  match l with
  | [] => true
  | c :: l' =>
      if Str.is_space c
      then Ascii.eqb c " " && negb after_space && single_spaced true l'
      else single_spaced false l'
  end.

Definition starts_clean (l : list ascii) : bool :=
  match l with
  | c :: _ => negb (Str.is_space c)
  | [] => true
  end.

(** Words over [a-z0-9+-#] separated by single blanks, with no blank at
    either end. *)
Definition tidy (s : string) : Prop :=
  let l := list_ascii_of_string s in
  Forall (fun c => kept_char c = true \/ c = " "%char) l
  /\ single_spaced false l = true
  /\ starts_clean l = true
  /\ starts_clean (rev l) = true.

(** A run of whitespace replaced by one blank ([in_run] tells whether the
    run has begun). *)
Fixpoint collapse (in_run : bool) (l : list ascii) : list ascii :=
  match l with
  | [] => []
  | c :: l' =>
      if Str.is_space c
      then (if in_run then collapse true l' else " "%char :: collapse true l')
      else c :: collapse false l'
  end.

Fixpoint leading_spaces (l : list ascii) : nat :=
  match l with
  | c :: l' => if Str.is_space c then S (leading_spaces l') else 0%nat
  | [] => 0%nat
  end.

(** ** [resume_parser.py] *)

(** [s.rfind(c)] for a single character: the last index of [c], or -1. *)
Fixpoint rfind_from (c : ascii) (s : list ascii) (i best : Z) : Z :=
  match s with
  | [] => best
  | x :: s' => rfind_from c s' (i + 1)%Z (if Ascii.eqb x c then i else best)
  end.

Definition rfind (c : ascii) (s : list ascii) : Z := rfind_from c s 0%Z (-1)%Z.

(** [p[:i]] and [p[i:]] for [i >= 0]. *)
Definition upto (p : list ascii) (i : Z) : list ascii := firstn (Z.to_nat i) p.
Definition from (p : list ascii) (i : Z) : list ascii := skipn (Z.to_nat i) p.

(** The [while] loop of [splitext], which looks for a character other than
    the dot between the last separator and the last dot. *)
Fixpoint skip_leading_dots (p : list ascii) (dotIndex filenameIndex : Z)
    (steps : nat) : list ascii * list ascii :=
  match steps with
  | O => (p, [])
  | S steps' =>
      match nth_error p (Z.to_nat filenameIndex) with
      | Some "."%char =>
          skip_leading_dots p dotIndex (filenameIndex + 1)%Z steps'
      | _ => (upto p dotIndex, from p dotIndex)
      end
  end.

(** [os.path.splitext(p)] of [posixpath]: separator "/", extension
    separator ".". *)
Definition splitext_chars (p : list ascii) : list ascii * list ascii :=
  let sepIndex := rfind "/" p in
  let dotIndex := rfind "." p in
  if (sepIndex <? dotIndex)%Z then
    let filenameIndex := (sepIndex + 1)%Z in
    skip_leading_dots p dotIndex filenameIndex
                      (Z.to_nat (dotIndex - filenameIndex))
  else (p, []).

Definition splitext (p : string) : string * string :=
  let (root, ext) := splitext_chars (list_ascii_of_string p) in
  (string_of_list_ascii root, string_of_list_ascii ext).

(** [s.endswith(suffix)]. *)
Definition endswith (s suffix : string) : bool :=
  let n := String.length s in
  let m := String.length suffix in
  (m <=? n)%nat && String.eqb (String.substring (n - m) m s) suffix.

(** A Streamlit upload, an [io.BytesIO] with a name: the bytes from its
    position to its end, and whether it has been closed. *)
Record UploadedFile : Type := {
  file_name : string;
  file_bytes : string;
  closed : bool
}.

(** The file once [read()] has moved its position to the end. *)
Definition at_end (uploaded_file : UploadedFile) : UploadedFile :=
  {| file_name := file_name uploaded_file;
     file_bytes := "";
     closed := closed uploaded_file |}.

(** [uploaded_file.read()]: the bytes up to the end of the stream, where
    the position is left; on a closed file it raises. The second component
    is the file as the call leaves it. *)
Definition read (uploaded_file : UploadedFile) : result string * UploadedFile :=
  if closed uploaded_file
  then (Raise (ValueError "I/O operation on closed file."), uploaded_file)
  else (Ok (file_bytes uploaded_file), at_end uploaded_file).

Section Parser.

(** [fitz.open(stream=file_bytes, filetype="pdf")], read as the texts of its
    pages; it raises on bytes that are no PDF. *)
Variable fitz_pages : string -> result (list string).

(** [file_bytes.decode('utf-8', errors='ignore')]. *)
Variable decode_utf8_ignore : string -> string.

Definition extract_text_from_pdf (file_bytes : string) : result string :=
  pdf_document <- fitz_pages file_bytes ;;
  Ok (fold_left (fun extracted_text page_text => (extracted_text ++ page_text)%string)
                pdf_document "").

Definition extract_text_from_txt (file_bytes : string) : string :=
  decode_utf8_ignore file_bytes.

(** [parse_resume] reads the file before it looks at the extension. It
    gives what the call returns or raises, and the file as it leaves it. *)
Definition parse_resume (uploaded_file : UploadedFile)
    : result (string * string) * UploadedFile :=
  let filename := file_name uploaded_file in
  let candidate_name := fst (splitext filename) in
  let (file_bytes, uploaded_file') := read uploaded_file in
  (file_bytes <- file_bytes ;;
   extracted_text <-
     (if endswith (Str.lower filename) ".pdf" then extract_text_from_pdf file_bytes
      else if endswith (Str.lower filename) ".txt"
           then Ok (extract_text_from_txt file_bytes)
           else Ok "") ;;
   Ok (candidate_name, extracted_text),
   uploaded_file').

(** The loop of [parse_all_resumes]: what it returns or raises, and the
    files as it leaves them. The files after one that makes it raise are
    not touched. *)
Fixpoint parse_loop (uploaded_files : list UploadedFile) (resumes : list Resume)
    : result (list Resume) * list UploadedFile :=
  match uploaded_files with
  | [] => (Ok resumes, [])
  | uploaded_file :: rest =>
      match parse_resume uploaded_file with
      | (Raise e, uploaded_file') => (Raise e, uploaded_file' :: rest)
      | (Ok parsed, uploaded_file') =>
          let candidate_name := fst parsed in
          let extracted_text := snd parsed in
          let (outcome, rest') :=
            if String.eqb (strip extracted_text) "" then parse_loop rest resumes
            else parse_loop rest
                   (resumes ++ [ {| name := candidate_name;
                                    text := extracted_text |} ]) in
          (outcome, uploaded_file' :: rest')
      end
  end.

Definition parse_all_resumes (uploaded_files : list UploadedFile)
    : result (list Resume) * list UploadedFile :=
  parse_loop uploaded_files [].

End Parser.

(** A file type that [parse_resume] reads. *)
Definition supported (uploaded_file : UploadedFile) : bool :=
  endswith (Str.lower (file_name uploaded_file)) ".pdf"
  || endswith (Str.lower (file_name uploaded_file)) ".txt".

(** ** [visualization.py] and [app.py]: match strength *)

Definition STRONG_MATCH_COLOR : string := "#16a34a".
Definition MODERATE_COLOR : string := "#d97706".
Definition WEAK_COLOR : string := "#dc2626".

(** [visualization._score_color]. *)
Definition _score_color (score : Q) : string :=
  if Qle_bool (60 # 100) score then STRONG_MATCH_COLOR
  else if Qle_bool (30 # 100) score then MODERATE_COLOR
  else WEAK_COLOR.

(** The [lambda] of [app.py] that fills the 'Match Level' column. *)
Definition match_level (s : Q) : string :=
  if Qle_bool (60 # 100) s then "🟢 Strong"
  else if Qle_bool (30 # 100) s then "🟡 Moderate"
  else "🔴 Weak".

(** The 'Similarity Score (%)' column of [app.py]:
    [(display_df['Similarity Score'] * 100).round(2)]. *)
Definition similarity_percent (s : Q) : Q := py_round (s * 100) 2.

(** [color_score] of [app.py], which styles the cells of the
    'Similarity Score (%)' column. *)
Definition color_score (val : Q) : string :=
  if Qle_bool (60 # 100) val then
    "background-color: #dcfce7; color: #15803d; font-weight:600"
  else if Qle_bool (30 # 100) val then
    "background-color: #fef9c3; color: #92400e; font-weight:600"
  else "background-color: #fee2e2; color: #b91c1c; font-weight:600".

(** ** More sample data for concrete runs *)

Module Samples.

Definition dana_copy : Resume :=
  {| name := "dana (copy)"; text := text Demo.dana |}.

Definition twins : list Resume := [Demo.dana; dana_copy].

Definition twins_tfidf : matrix :=
  Eval vm_compute in
    Demo.or_empty
      (Demo.fit_transform
         (map (fun r => clean_text Demo.strip_and_filter (text r)) twins)).

Definition applicants_sim : matrix :=
  Eval vm_compute in
    Demo.or_empty (cosine_similarity Demo.sqrtQ Demo.applicants_tfidf None).

Definition duplicates_at (threshold : Q) : list DuplicatePair :=
  Demo.or_empty (Demo.duplicates Demo.applicants threshold).

(** A reader that knows one PDF, of two pages, and a decoder for plain
    ASCII bytes. *)
Definition fitz_pages (file_bytes : string) : result (list string) :=
  if String.eqb file_bytes "%PDF-sample"
  then Ok ["Jane Doe  "; "Skills: Python"]
  else Raise (ValueError "cannot open broken document").

Definition decode_utf8_ignore (file_bytes : string) : string := file_bytes.

Definition uploads : list UploadedFile :=
  [ {| file_name := "jane_doe.PDF"; file_bytes := "%PDF-sample"; closed := false |};
    {| file_name := "photo.png"; file_bytes := "not text"; closed := false |};
    {| file_name := "blank.txt"; file_bytes := "   "; closed := false |};
    {| file_name := "bob.smith.txt"; file_bytes := "barista"; closed := false |} ].

Definition broken_upload : UploadedFile :=
  {| file_name := "scan.pdf"; file_bytes := "garbage"; closed := false |}.

(** An upload of an unsupported type that has been closed. *)
Definition closed_upload : UploadedFile :=
  {| file_name := "logo.png"; file_bytes := "not text"; closed := true |}.

Definition parsed : list Resume :=
  Eval vm_compute in
    Demo.or_empty
      (fst (parse_all_resumes fitz_pages decode_utf8_ignore uploads)).

(** Resumes for the runs of the vectoriser. [finn] has the words of
    [Demo.dana] and four more; [hugo] has the words of [gina] and one
    more. *)
Definition finn : Resume :=
  {| name := "finn"; text := "python sql docker linux git aws azure java" |}.

Definition gina : Resume :=
  {| name := "gina"; text := "data analyst python sql data python tableau" |}.

Definition hugo : Resume :=
  {| name := "hugo";
     text := "data analyst python sql data python tableau excel" |}.

Definition ivan : Resume := {| name := "ivan"; text := "C" |}.

Definition judy : Resume := {| name := "judy"; text := "R" |}.

End Samples.

(** ** The vectoriser as scikit-learn computes it

    [TfidfVectorizer(max_features=8000, ngram_range=(1, 2),
    sublinear_tf=True, min_df=1)] with its other settings at their
    defaults: lower-casing, the token pattern [\b\w\w+\b], smoothed
    inverse document frequencies and L2-normalised rows. The logarithm and
    the square root are taken to eighteen decimals. The runs that tell what
    the modules return on given resumes use this engine. *)

Module Vectorizer.

(** [x] cut off after [digits] decimals. *)
Definition to_decimals (digits : nat) (x : Q) : Q :=
  Qred (inject_Z (Qfloor (x * inject_Z (10 ^ Z.of_nat digits)))
        / inject_Z (10 ^ Z.of_nat digits)).

(** The series [z + z^3/3 + z^5/5 + ...] of the inverse hyperbolic
    tangent at [z = p/q], from the term of index [k] on, in units of
    [10^-30]; [power] is [z^(2k+1)] in these units. *)
Fixpoint atanh_series (p2 q2 power : Z) (k terms : nat) : Z :=
  match terms with
  | O => 0%Z
  | S terms' =>
      (power / Z.of_nat (2 * k + 1)
       + atanh_series p2 q2 (power * p2 / q2) (S k) terms')%Z
  end.

(** [ln y = 2 atanh ((y - 1) / (y + 1))] for [y] from 1 to 2, in units of
    [10^-30]. *)
Definition ln_near_one (y : Q) : Z :=
  let z := Qred ((y - 1) / (y + 1)) in
  let p := Qnum z in
  let q := Zpos (Qden z) in
  (2 * atanh_series (p * p) (q * q) (10 ^ 30 * p / q) 0 24)%Z.

(** [np.log] on a number that is at least 1, as the counts and the
    document-frequency ratios are: [ln x = e ln 2 + ln (x / 2^e)]. *)
Definition ln (x : Q) : Q :=
  let e := Z.log2 (Qfloor x) in
  to_decimals 18
    (inject_Z (e * ln_near_one 2 + ln_near_one (x / inject_Z (2 ^ e)))
     / inject_Z (10 ^ 30)).

(** [np.sqrt]. *)
Definition sqrt (x : Q) : Q :=
  Qred (inject_Z (Z.sqrt (Qfloor (x * inject_Z (10 ^ 36)))) / inject_Z (10 ^ 18)).

(** The matches of the token pattern [\b\w\w+\b]: the maximal runs of two
    or more word characters. [token] is the run that is being read. *)
Fixpoint tokens_from (token : string) (doc : string) : list string :=
  match doc with
  | EmptyString =>
      if (2 <=? String.length token)%nat then [token] else []
  | String c doc' =>
      if Str.is_word c then tokens_from (token ++ String c EmptyString) doc'
      else if (2 <=? String.length token)%nat
           then token :: tokens_from "" doc'
           else tokens_from "" doc'
  end.

Definition tokenize (doc : string) : list string := tokens_from "" doc.

(** The word pairs of [_word_ngrams], joined by a blank. *)
Fixpoint bigrams (tokens : list string) : list string :=
  match tokens with
  | a :: (b :: _) as rest => (a ++ " " ++ b)%string :: bigrams rest
  | _ => []
  end.

(** The analyser: the tokens of the lower-cased document, then its word
    pairs. *)
Definition analyze (doc : string) : list string :=
  let tokens := tokenize (Str.lower doc) in
  (tokens ++ bigrams tokens)%list.

Definition count (terms : list string) (term : string) : nat :=
  count_occ string_dec terms term.

(** In how many documents a term occurs. *)
Definition document_frequency (analyzed : list (list string)) (term : string)
    : nat :=
  List.length (filter (fun terms => (0 <? count terms term)%nat) analyzed).

(** How often a term occurs in the corpus. *)
Definition total_count (analyzed : list (list string)) (term : string) : nat :=
  fold_right (fun terms acc => (count terms term + acc)%nat) 0%nat analyzed.

(** [_limit_features]: a vocabulary of more than [limit] terms is cut down
    to the [limit] terms that occur most often in the corpus, which stay in
    their order. Among terms that occur equally often numpy's [argsort]
    fixes no order; here the earlier term is kept. *)
Definition limit_features (limit : nat) (vocabulary : list string)
    (tfs : string -> nat) : list string :=
  if (List.length vocabulary <=? limit)%nat then vocabulary
  else
    let by_count :=
      stable_sort (fun a b : string => (tfs b <? tfs a)%nat)
                  (labelled vocabulary) in
    let kept := map fst (firstn limit by_count) in
    map snd (filter (fun p => existsb (Nat.eqb (fst p)) kept)
                    (labelled vocabulary)).

(** The smoothed inverse document frequency,
    [ln ((1 + n_samples) / (1 + df)) + 1]. *)
Definition idf (n_samples df : nat) : Q :=
  ln (inject_Z (Z.of_nat (1 + n_samples)) / inject_Z (Z.of_nat (1 + df))) + 1.

(** [sublinear_tf]: a count [n] above zero becomes [1 + ln n]. *)
Definition sublinear_tf (n : nat) : Q :=
  if (n =? 0)%nat then 0 else ln (inject_Z (Z.of_nat n)) + 1.

(** [fit_transform]: one row per document and one column per term of the
    vocabulary, in the order of the terms; the entries are kept to
    eighteen decimals. *)
Definition fit_transform (raw_documents : list string) : result matrix :=
  let analyzed := map analyze raw_documents in
  match Str.sorted (Str.set_of (List.concat analyzed)) with
  | [] => Raise (ValueError
            "empty vocabulary; perhaps the documents only contain stop words")
  | terms =>
      let vocabulary :=
        limit_features (Z.to_nat 8000) terms (total_count analyzed) in
      let n_samples := List.length raw_documents in
      let idf_ :=
        map (fun term => idf n_samples (document_frequency analyzed term))
            vocabulary in
      let weights :=
        map (fun terms =>
               map (fun p => Qred (sublinear_tf (count terms (fst p)) * snd p))
                   (combine vocabulary idf_))
            analyzed in
      rows <- normalize sqrt weights ;;
      Ok (map (map (to_decimals 18)) rows)
  end.

(** Steps 2 to 7 of [clean_text] on a text in which the stop-word filter
    finds nothing to remove: no stop word, no token of one character and
    no punctuation for the tokenizer to split off. Steps 6 and 7 then give
    the text of step 5 back, whether NLTK runs or the fallback does. *)
Definition strip_and_filter (text : string) : string := strip_noise text.

Definition rank : string -> list Resume -> result (frame RankedRow) :=
  rank_candidates strip_and_filter fit_transform sqrt.

Definition duplicates : list Resume -> Q -> result (list DuplicatePair) :=
  detect_duplicates strip_and_filter fit_transform sqrt.

(** The matrix [sim_matrix] that [detect_duplicates] computes. *)
Definition similarities (resumes : list Resume) : result matrix :=
  tfidf_matrix <-
    fit_transform (map (fun r => clean_text strip_and_filter (text r)) resumes) ;;
  cosine_similarity sqrt tfidf_matrix None.

(** Three resumes for a run at the default threshold, and their matrix. *)
Definition colleagues : list Resume := [Samples.gina; Samples.hugo; Demo.bob].

Definition colleagues_tfidf : matrix :=
  Eval vm_compute in
    Demo.or_empty
      (fit_transform
         (map (fun r => clean_text strip_and_filter (text r)) colleagues)).

End Vectorizer.

(** ** The vocabulary of the properties *)

Local Open Scope Q_scope.

(** *** Skill matching *)

(** Whole-word occurrence, as the specification words it: the keyword stands
    in the text with no word character right before it and none right after
    it. *)
Fixpoint strip_prefix (kw s : list ascii) : option (list ascii) :=
  match kw, s with
  | [], _ => Some s
  | c :: kw', c' :: s' => if Ascii.eqb c c' then strip_prefix kw' s' else None
  | _ :: _, [] => None
  end.

Fixpoint occurs_from (kw : list ascii) (prev : option ascii) (s : list ascii)
    : bool :=
  match strip_prefix kw s with
  | Some rest => negb (Re.word_of prev) && negb (Re.word_of (hd_error rest))
  | None => false
  end
  || match s with
     | [] => false
     | c :: s' => occurs_from kw (Some c) s'
     end.

Definition occurs_whole_word (keyword text : string) : bool :=
  occurs_from (list_ascii_of_string keyword) None (list_ascii_of_string text).

Definition last_char (c : ascii) (rest : string) : ascii :=
  last (list_ascii_of_string rest) c.

Definition word_delimited (skill : string) : bool :=
  match skill with
  | EmptyString => false
  | String c rest => Str.is_word c && Str.is_word (last_char c rest)
  end.

(** *** Quality scoring *)

Definition weight_sum (checks : list QualityCheck) : Q :=
  fold_right (fun c acc => weight c + acc) 0 checks.

Definition sections_found (text_lower : string) : list QualityCheck :=
  filter (section_found text_lower) QUALITY_CHECKS.

Definition sections_missing (text_lower : string) : list QualityCheck :=
  filter (fun c => negb (section_found text_lower c)) QUALITY_CHECKS.

(** *** Ranking order *)

(** Where a labelled row stands relative to another after [sort_values]:
    by a higher similarity, or at equal similarity by a higher quality, or at
    equal scores by a smaller label, the label being the position in the
    frame that was sorted. *)
Definition placed_before (x y : nat * Row) : Prop :=
  similarity_score (snd y) < similarity_score (snd x)
  \/ (similarity_score (snd x) == similarity_score (snd y)
      /\ quality_score (snd y) < quality_score (snd x))
  \/ (similarity_score (snd x) == similarity_score (snd y)
      /\ quality_score (snd x) == quality_score (snd y)
      /\ (fst x < fst y)%nat).

(** *** Similarity *)

(** The row that [normalize] makes of [x]. *)
Definition normalized (sqrtQ : Q -> Q) (x : vector) : vector :=
  map (fun v => v / handle_zeros_in_scale (row_norm sqrtQ x)) x.

Definition all_zero (v : vector) : Prop := Forall (fun x => x == 0) v.

(** *** Duplicate pairs *)

(** The entry [sim_matrix[i][j]] and the name [names[i]], for indices in
    range. *)
Definition sim_at (sim_matrix : matrix) (i j : nat) : Q :=
  nth j (nth i sim_matrix []) 0.

Definition name_at (names : list string) (i : nat) : string := nth i names "".

(** The record for the pair [(i, j)]. *)
Definition pair_record (names : list string) (sim_matrix : matrix)
    (ij : nat * nat) : DuplicatePair :=
  {| candidate_a := name_at names (fst ij);
     candidate_b := name_at names (snd ij);
     similarity := py_round (sim_at sim_matrix (fst ij) (snd ij)) 4 |}.

(** The test applied to the pair [(i, j)]. *)
Definition reported (sim_matrix : matrix) (threshold : Q) (ij : nat * nat) : bool :=
  Qle_bool threshold (py_round (sim_at sim_matrix (fst ij) (snd ij)) 4).

(** The pairs [(i, j)] with [i < j < n], row by row. *)
Definition pairs_below (n : nat) (rows : list nat) : list (nat * nat) :=
  flat_map (fun i => map (pair i) (range (i + 1) n)) rows.

(** * Properties *)

(** ** Sample evaluations *)

Example extract_skills_scenario :
  extract_skills "Skills: Python, React, AWS, Docker"
  = ["Aws"; "Docker"; "Python"; "React"].
Proof. vm_compute. reflexivity. Qed.

Example extract_skills_cpp :
  extract_skills "I know C++ and Java" = ["Java"].
Proof. vm_compute. reflexivity. Qed.

Example extract_skills_for :
  extract_skills "for her" = [].
Proof. vm_compute. reflexivity. Qed.

Example extract_skills_cicd :
  extract_skills "CI/CD with Scikit-Learn, C++11 and r" = ["C++"; "Ci/Cd"; "R"; "Scikit-Learn"].
Proof. vm_compute. reflexivity. Qed.

Example analyze_quality_sample :
  let r := analyze_resume_quality
             "Jane Doe jane@example.com Skills: Python. Education: BSc. Projects" in
  score r = 6 /\ feedback r = [feedback_for "Work Experience";
                                     feedback_for "Summary / Objective";
                                     feedback_for "Projects / Certifications"].
Proof. vm_compute. split; reflexivity. Qed.

Example analyze_quality_phone :
  score (analyze_resume_quality "call +1 (555) 010-9999 now") = 2.
Proof. vm_compute. reflexivity. Qed.

Example quality_label_length :
  String.length (get_quality_label 9) = 14%nat.
Proof. vm_compute. reflexivity. Qed.

(** ** Rounding *)

Lemma round_half_even_compat (x y : Q) :
  x == y -> round_half_even x = round_half_even y.
Proof.
  intros E. unfold round_half_even.
  rewrite (Qfloor_comp _ _ E).
  assert (C : (x - inject_Z (Qfloor y) ?= 1 # 2) = (y - inject_Z (Qfloor y) ?= 1 # 2)).
  { apply Qcompare_comp; [rewrite E; reflexivity | reflexivity]. }
  rewrite C. reflexivity.
Qed.

Lemma py_round_compat (x y : Q) (n : nat) :
  x == y -> py_round x n = py_round y n.
Proof.
  intros E. unfold py_round.
  set (scale := inject_Z (10 ^ Z.of_nat n)).
  rewrite (round_half_even_compat (x * scale) (y * scale)); [reflexivity|].
  rewrite E. reflexivity.
Qed.

Lemma round_half_even_cases (x : Q) :
  round_half_even x = Qfloor x
  \/ (round_half_even x = (Qfloor x + 1)%Z /\ 1 # 2 <= x - inject_Z (Qfloor x)).
Proof.
  unfold round_half_even.
  destruct (Qcompare_spec (x - inject_Z (Qfloor x)) (1 # 2)) as [E | L | G].
  - destruct (Z.even (Qfloor x)); [left; reflexivity | right; split; [reflexivity|]].
    rewrite E. apply Qle_refl.
  - left; reflexivity.
  - right; split; [reflexivity | apply Qlt_le_weak; exact G].
Qed.

Lemma round_half_even_lower (x : Q) (z : Z) :
  inject_Z z <= x -> (z <= round_half_even x)%Z.
Proof.
  intros H.
  assert (F : (z <= Qfloor x)%Z).
  { rewrite <- (Qfloor_Z z). apply Qfloor_resp_le. exact H. }
  destruct (round_half_even_cases x) as [-> | [-> _]]; lia.
Qed.

Lemma round_half_even_upper (x : Q) (z : Z) :
  x <= inject_Z z -> (round_half_even x <= z)%Z.
Proof.
  intros H.
  assert (F : (Qfloor x <= z)%Z).
  { rewrite <- (Qfloor_Z z). apply Qfloor_resp_le. exact H. }
  destruct (round_half_even_cases x) as [-> | [-> Hh]]; [exact F|].
  destruct (Z.eq_dec (Qfloor x) z) as [E | N]; [|lia].
  exfalso. subst z.
  assert (x - inject_Z (Qfloor x) <= 0) by lra.
  lra.
Qed.

Lemma py_round_bounds (x : Q) (n : nat) (a b : Z) :
  inject_Z a <= x -> x <= inject_Z b ->
  inject_Z a <= py_round x n /\ py_round x n <= inject_Z b.
Proof.
  intros Ha Hb. unfold py_round.
  set (p := (10 ^ Z.of_nat n)%Z).
  assert (Hp : (0 < p)%Z) by (apply Z.pow_pos_nonneg; lia).
  assert (Hs : 0 < inject_Z p) by (change 0 with (inject_Z 0); rewrite <- Zlt_Qlt; exact Hp).
  rewrite Qred_correct.
  assert (La : (a * p <= round_half_even (x * inject_Z p))%Z).
  { apply round_half_even_lower. rewrite inject_Z_mult.
    apply Qmult_le_compat_r; [exact Ha | apply Qlt_le_weak; exact Hs]. }
  assert (Lb : (round_half_even (x * inject_Z p) <= b * p)%Z).
  { apply round_half_even_upper. rewrite inject_Z_mult.
    apply Qmult_le_compat_r; [exact Hb | apply Qlt_le_weak; exact Hs]. }
  rewrite Zle_Qle, inject_Z_mult in La, Lb.
  split.
  - apply Qle_shift_div_l; assumption.
  - apply Qle_shift_div_r; assumption.
Qed.

Lemma round_half_even_near (x : Q) (k : Z) :
  inject_Z k - (1 # 2) < x -> x < inject_Z k + (1 # 2) ->
  round_half_even x = k.
Proof.
intros Hl Hu.
pose proof (Qfloor_le x) as F1. pose proof (Qlt_floor x) as F2.
rewrite inject_Z_plus in F2. change (inject_Z 1) with 1 in F2.
assert (Hk : Qfloor x = k \/ Qfloor x = (k - 1)%Z).
{ assert (L1 : (k - 1 < Qfloor x + 1)%Z).
  { rewrite Zlt_Qlt, inject_Z_plus. unfold Z.sub.
    rewrite inject_Z_plus, inject_Z_opp. change (inject_Z 1) with 1. lra. }
  assert (L2 : (Qfloor x < k + 1)%Z).
  { rewrite Zlt_Qlt, inject_Z_plus. change (inject_Z 1) with 1. lra. }
  lia. }
unfold round_half_even.
destruct Hk as [E | E]; rewrite E in *.
- destruct (Qcompare_spec (x - inject_Z k) (1 # 2)) as [C | C | C];
    [lra | reflexivity | lra].
- unfold Z.sub in *. rewrite inject_Z_plus, inject_Z_opp in *.
  change (inject_Z 1) with 1 in *.
  match goal with |- context [Qcompare ?a ?b] =>
    destruct (Qcompare_spec a b) as [C | C | C] end; [lra | lra | lia].
Qed.

(** A value closer than 0.00005 to a number of four decimals is rounded to
    that number. *)
Lemma py_round_near4 (x : Q) (k : Z) :
  inject_Z k / 10000 - (5 # 100000) < x ->
  x < inject_Z k / 10000 ->
  py_round x 4 == inject_Z k / 10000.
Proof.
intros Hl Hu. unfold py_round. rewrite Qred_correct.
change (inject_Z (10 ^ Z.of_nat 4)) with 10000.
rewrite (round_half_even_near (x * 10000) k); [reflexivity | |].
- assert (E : inject_Z k == inject_Z k / 10000 * 10000) by (field).
  rewrite E. lra.
- assert (E : inject_Z k == inject_Z k / 10000 * 10000) by (field).
  rewrite E at 1. lra.
Qed.

(** ** The quality checklist *)

Lemma total_weight_of_from (checks : list QualityCheck) (acc : Q) :
  fold_left (fun a v => a + weight v) checks acc == acc + weight_sum checks.
Proof.
  revert acc. induction checks as [| c checks IH]; intros acc; simpl.
  - lra.
  - rewrite IH. lra.
Qed.

Lemma quality_loop_earned (checks : list QualityCheck) (tl : string) (acc : QualityAcc) :
  earned_score (quality_loop checks tl acc)
  == earned_score acc + weight_sum (filter (section_found tl) checks).
Proof.
  revert acc. induction checks as [| c checks IH]; intros acc.
  - simpl. lra.
  - change (quality_loop (c :: checks) tl acc)
      with (quality_loop checks tl (quality_step tl acc c)).
    rewrite IH. unfold quality_step. simpl.
    destruct (section_found tl c); simpl; lra.
Qed.

Lemma quality_loop_feedback (checks : list QualityCheck) (tl : string) (acc : QualityAcc) :
  acc_feedback (quality_loop checks tl acc)
  = (acc_feedback acc
     ++ map (fun c => feedback_for (section_name c))
            (filter (fun c => negb (section_found tl c)) checks))%list.
Proof.
  revert acc. induction checks as [| c checks IH]; intros acc.
  - simpl. rewrite app_nil_r. reflexivity.
  - change (quality_loop (c :: checks) tl acc)
      with (quality_loop checks tl (quality_step tl acc c)).
    rewrite IH. unfold quality_step. simpl.
    destruct (section_found tl c); simpl; [reflexivity|].
    rewrite <- app_assoc. reflexivity.
Qed.

Lemma weight_sum_filter_bounds (f : QualityCheck -> bool) (checks : list QualityCheck) :
  Forall (fun c => 0 <= weight c) checks ->
  0 <= weight_sum (filter f checks) /\ weight_sum (filter f checks) <= weight_sum checks.
Proof.
  induction 1 as [| c checks Hc _ IH]; simpl.
  - lra.
  - destruct (f c); simpl; lra.
Qed.

Lemma QUALITY_CHECKS_weights : Forall (fun c => 0 <= weight c) QUALITY_CHECKS.
Proof. repeat constructor; simpl; lra. Qed.

Lemma QUALITY_CHECKS_total : total_weight_of QUALITY_CHECKS == 10.
Proof. vm_compute. reflexivity. Qed.

(** C5. For a non-empty text the score of [analyze_resume_quality] is the
    summed weight of the sections for which a pattern matches the lowercased
    text, divided by the total weight 10, times 10, rounded to one decimal,
    so it lies in [0, 10]; the feedback has one entry per section that was
    not found, in checklist order. For the empty text the score is 0, the
    breakdown is empty and the feedback is the single entry saying that no
    text was found. *)
Theorem analyze_resume_quality_score :
  analyze_resume_quality ""
  = {| score := 0; breakdown := []; feedback := ["No text found in resume."] |}
  /\ total_weight_of QUALITY_CHECKS == 10
  /\ forall text : string,
       text <> "" ->
       let r := analyze_resume_quality text in
       let text_lower := Str.lower text in
       score r = py_round (weight_sum (sections_found text_lower) / 10 * 10) 1
       /\ 0 <= score r <= 10
       /\ feedback r
          = map (fun c => feedback_for (section_name c)) (sections_missing text_lower)
       /\ List.length (feedback r) = List.length (sections_missing text_lower).
Proof.
  split; [reflexivity|]. split; [exact QUALITY_CHECKS_total|].
  intros text Hne. cbv zeta.
  unfold analyze_resume_quality.
  destruct (String.eqb_spec text ""); [contradiction|].
  cbn [score feedback].
  set (tl := Str.lower text).
  set (acc0 := {| earned_score := 0; acc_breakdown := []; acc_feedback := [] |}).
  assert (E : earned_score (quality_loop QUALITY_CHECKS tl acc0)
              == weight_sum (sections_found tl)).
  { rewrite quality_loop_earned. unfold sections_found. simpl earned_score. lra. }
  assert (S : earned_score (quality_loop QUALITY_CHECKS tl acc0)
                / total_weight_of QUALITY_CHECKS * 10
              == weight_sum (sections_found tl) / 10 * 10).
  { rewrite E, QUALITY_CHECKS_total. reflexivity. }
  split; [apply py_round_compat; exact S|].
  split.
  - rewrite (py_round_compat _ _ 1 S).
    destruct (weight_sum_filter_bounds (section_found tl) QUALITY_CHECKS
                QUALITY_CHECKS_weights) as [L U].
    assert (T : weight_sum QUALITY_CHECKS == 10) by (vm_compute; reflexivity).
    fold (sections_found tl) in L, U.
    apply (py_round_bounds _ 1 0 10).
    + change (inject_Z 0) with 0. field_simplify. lra.
    + change (inject_Z 10) with 10. field_simplify. lra.
  - rewrite quality_loop_feedback. simpl acc_feedback. simpl app.
    split; [reflexivity|]. unfold sections_missing. rewrite length_map. reflexivity.
Qed.

(** ** Quality labels *)

Lemma Qle_bool_false (x y : Q) : Qle_bool x y = false -> y < x.
Proof.
  intros H. apply Qnot_le_lt. intros L.
  apply Qle_bool_iff in L. congruence.
Qed.

(** C6, as the code has it. [get_quality_label] is total with no gaps, and
    returns the label with its marker: "🌟 Excellent" for every score of at
    least 8, "✅ Good" for every score in [6, 8), "⚠️ Average" for every score
    in [4, 6) and "❌ Needs Work" for every score below 4. *)
Theorem get_quality_label_bands (s : Q) :
  (8 <= s /\ get_quality_label s = "🌟 Excellent")
  \/ (6 <= s /\ s < 8 /\ get_quality_label s = "✅ Good")
  \/ (4 <= s /\ s < 6 /\ get_quality_label s = "⚠️ Average")
  \/ (s < 4 /\ get_quality_label s = "❌ Needs Work").
Proof.
  unfold get_quality_label.
  destruct (Qle_bool 8 s) eqn:E8.
  { left. split; [apply Qle_bool_iff; exact E8 | reflexivity]. }
  apply Qle_bool_false in E8.
  destruct (Qle_bool 6 s) eqn:E6.
  { right; left. repeat split; [apply Qle_bool_iff; exact E6 | exact E8]. }
  apply Qle_bool_false in E6.
  destruct (Qle_bool 4 s) eqn:E4.
  { right; right; left. repeat split; [apply Qle_bool_iff; exact E4 | exact E6]. }
  apply Qle_bool_false in E4.
  right; right; right. split; [exact E4 | reflexivity].
Qed.

(** ** Recommendations *)

Lemma firstn_prefix {A : Type} (n : nat) (l : list A) :
  exists rest, l = (firstn n l ++ rest)%list.
Proof. exists (skipn n l). symmetry. apply firstn_skipn. Qed.

(** C9, as the code has it. For [top_n >= 0], [get_top_recommendations]
    returns the first [min(top_n, L)] rows of its input in their order; for
    [top_n < 0] it returns the first [max(L + top_n, 0)] rows, that is all
    rows but the last [-top_n]. In both cases the result is a prefix of the
    input: nothing is re-sorted and no row is dropped from the front. *)
Theorem get_top_recommendations_prefix (results_df : frame RankedRow) (top_n : Z) :
  let L := Z.of_nat (List.length results_df) in
  let out := get_top_recommendations results_df top_n in
  (exists rest, results_df = (out ++ rest)%list)
  /\ (((0 <= top_n)%Z
       /\ out = firstn (Z.to_nat (Z.min top_n L)) results_df
       /\ Z.of_nat (List.length out) = Z.min top_n L)
      \/ ((top_n < 0)%Z
          /\ out = firstn (Z.to_nat (Z.max (L + top_n) 0)) results_df
          /\ Z.of_nat (List.length out) = Z.max (L + top_n) 0)).
Proof.
  cbv zeta. unfold get_top_recommendations, head.
  destruct (Z.leb_spec 0 top_n) as [Hn | Hn].
  - split; [apply firstn_prefix|]. left. split; [exact Hn|].
    destruct (Z.le_ge_cases top_n (Z.of_nat (List.length results_df))) as [Hl | Hl].
    + rewrite Z.min_l by exact Hl. split; [reflexivity|].
      rewrite length_firstn. lia.
    + rewrite Z.min_r by exact Hl. rewrite Nat2Z.id.
      rewrite firstn_all. rewrite firstn_all2 by lia. split; reflexivity.
  - split; [apply firstn_prefix|]. right. split; [exact Hn|].
    destruct (Z.le_ge_cases 0 (Z.of_nat (List.length results_df) + top_n)) as [Hl | Hl].
    + rewrite Z.max_l by exact Hl. split; [reflexivity|].
      rewrite length_firstn. lia.
    + rewrite Z.max_r by exact Hl.
      replace (Z.to_nat (Z.of_nat (List.length results_df) + top_n)) with 0%nat by lia.
      split; reflexivity.
Qed.

(** ** The stable sort *)

Lemma Qltb_true (x y : Q) : Qltb x y = true <-> x < y.
Proof.
  unfold Qltb. rewrite negb_true_iff. split.
  - apply Qle_bool_false.
  - intros L. destruct (Qle_bool y x) eqn:E; [|reflexivity].
    apply Qle_bool_iff in E. lra.
Qed.

Lemma Qltb_false (x y : Q) : Qltb x y = false <-> y <= x.
Proof.
  unfold Qltb. rewrite negb_false_iff. apply Qle_bool_iff.
Qed.

Lemma ranks_before_true (a b : Row) :
  ranks_before a b = true ->
  similarity_score b < similarity_score a
  \/ (similarity_score a == similarity_score b
      /\ quality_score b < quality_score a).
Proof.
  unfold ranks_before. rewrite orb_true_iff, andb_true_iff.
  rewrite !Qltb_true, Qeq_bool_iff. tauto.
Qed.

Lemma ranks_before_false (a b : Row) :
  ranks_before a b = false ->
  similarity_score a < similarity_score b
  \/ (similarity_score a == similarity_score b
      /\ quality_score a <= quality_score b).
Proof.
  unfold ranks_before. rewrite orb_false_iff, andb_false_iff.
  rewrite !Qltb_false. intros [Hs [Hq | Hq]].
  - destruct (Qeq_bool (similarity_score a) (similarity_score b)) eqn:E;
      [discriminate|].
    left. apply Qeq_bool_neq in E. lra.
  - destruct (Qlt_le_dec (similarity_score a) (similarity_score b)) as [L | L];
      [left; exact L | right; split; [lra | exact Hq]].
Qed.

Lemma placed_before_trans (x y z : nat * Row) :
  placed_before x y -> placed_before y z -> placed_before x z.
Proof.
  unfold placed_before.
  intros [A | [[A1 A2] | [A1 [A2 A3]]]] [B | [[B1 B2] | [B1 [B2 B3]]]];
    first [ left; lra
          | right; left; split; lra
          | right; right; split; [lra | split; [lra | lia]] ].
Qed.

Lemma insert_row_perm (x : nat * Row) (l : frame Row) :
  Permutation (x :: l) (insert_row ranks_before x l).
Proof.
  induction l as [| y l IH]; simpl.
  - apply Permutation_refl.
  - destruct (ranks_before (snd y) (snd x)).
    + eapply perm_trans; [apply perm_swap|]. apply perm_skip. exact IH.
    + apply Permutation_refl.
Qed.

Lemma sort_values_perm (df : frame Row) : Permutation df (sort_values df).
Proof.
  unfold sort_values, stable_sort.
  induction df as [| x df IH]; simpl.
  - apply perm_nil.
  - eapply perm_trans; [apply perm_skip; exact IH|]. apply insert_row_perm.
Qed.

Lemma insert_row_sorted (x : nat * Row) (l : frame Row) :
  StronglySorted placed_before l ->
  Forall (fun y => (fst x < fst y)%nat) l ->
  StronglySorted placed_before (insert_row ranks_before x l).
Proof.
  induction l as [| y l IH]; intros Hs Hl; simpl.
  - constructor; constructor.
  - inversion Hs as [| ? ? Hs' Hy]; subst.
    inversion Hl as [| ? ? Hxy Hl']; subst.
    destruct (ranks_before (snd y) (snd x)) eqn:E.
    + constructor; [apply IH; assumption|].
      apply (Permutation_Forall (insert_row_perm x l)).
      constructor; [|exact Hy].
      destruct (ranks_before_true _ _ E) as [A | A];
        [left; exact A | right; left; exact A].
    + assert (Pxy : placed_before x y).
      { destruct (ranks_before_false _ _ E) as [A | [A1 A2]].
        - left; exact A.
        - destruct (Qlt_le_dec (quality_score (snd y)) (quality_score (snd x)))
            as [L | L].
          + right; left. split; [lra | exact L].
          + right; right. split; [lra | split; [lra | exact Hxy]]. }
      constructor; [exact Hs|].
      constructor; [exact Pxy|].
      eapply Forall_impl; [|exact Hy].
      intros z Hz. exact (placed_before_trans _ _ _ Pxy Hz).
Qed.

Lemma sort_values_sorted (df : frame Row) :
  StronglySorted (fun a b => (fst a < fst b)%nat) df ->
  StronglySorted placed_before (sort_values df).
Proof.
  unfold sort_values, stable_sort.
  induction df as [| x df IH]; intros Hs; simpl.
  - constructor.
  - inversion Hs as [| ? ? Hs' Hx]; subst.
    apply insert_row_sorted; [apply IH; exact Hs'|].
    apply (Permutation_Forall (sort_values_perm df)). exact Hx.
Qed.

Lemma labelled_from_sorted {A : Type} (rows : list A) (start : nat) :
  StronglySorted (fun a b : nat * A => (fst a < fst b)%nat)
                 (combine (seq start (List.length rows)) rows).
Proof.
  revert start. induction rows as [| r rows IH]; intros start; simpl.
  - constructor.
  - constructor; [apply IH|].
    apply Forall_forall. intros [i a] Hin. simpl.
    apply in_combine_l in Hin. apply in_seq in Hin. lia.
Qed.

Lemma labelled_fst {A : Type} (rows : list A) :
  map fst (labelled rows) = seq 0 (List.length rows).
Proof.
  unfold labelled. generalize 0%nat.
  induction rows as [| r rows IH]; intros s; simpl; [reflexivity|].
  rewrite IH. reflexivity.
Qed.

Lemma labelled_length {A : Type} (rows : list A) :
  List.length (labelled rows) = List.length rows.
Proof.
  unfold labelled. rewrite length_combine, length_seq. lia.
Qed.

Lemma combine_seq_nth {A : Type} (rows : list A) (s k : nat) (p : nat * A) :
  nth_error (combine (seq s (List.length rows)) rows) k = Some p <->
  fst p = (s + k)%nat /\ nth_error rows k = Some (snd p).
Proof.
  revert k s. induction rows as [| r rows IH]; intros k s; simpl.
  - destruct k; simpl; split; try discriminate; intros [_ H]; discriminate.
  - destruct k as [| k]; simpl.
    + destruct p as [i a]; simpl. split.
      * intros H; inversion H; subst. split; [lia | reflexivity].
      * intros [H1 H2]. inversion H2; subst. f_equal. f_equal. lia.
    + rewrite IH. split; intros [H1 H2]; split; solve [lia | assumption].
Qed.

Lemma labelled_nth {A : Type} (rows : list A) (k : nat) (p : nat * A) :
  nth_error (labelled rows) k = Some p <->
  fst p = k /\ nth_error rows k = Some (snd p).
Proof. unfold labelled. apply (combine_seq_nth rows 0 k p). Qed.

Lemma StronglySorted_nth {A : Type} (R : A -> A -> Prop) (l : list A) :
  StronglySorted R l ->
  forall i j a b, (i < j)%nat ->
    nth_error l i = Some a -> nth_error l j = Some b -> R a b.
Proof.
  induction 1 as [| x l Hs IH Hx]; intros i j a b Hij Ha Hb.
  - destruct i; discriminate.
  - destruct j as [| j]; [lia|]. simpl in Hb.
    destruct i as [| i]; simpl in Ha.
    + inversion Ha; subst. rewrite Forall_forall in Hx.
      apply Hx. eapply nth_error_In. exact Hb.
    + apply (IH i j); (lia || assumption).
Qed.

Lemma insert_rank_nth (df : frame Row) (k : nat) (r : nat * RankedRow) :
  nth_error (insert_rank df) k = Some r <->
  exists p, nth_error df k = Some p
            /\ fst r = fst p /\ Rank (snd r) = S k /\ columns (snd r) = snd p.
Proof.
  unfold insert_rank, range.
  replace (List.length df + 1 - 1)%nat with (List.length df) by lia.
  rewrite nth_error_map.
  destruct (nth_error (combine (seq 1 (List.length df)) df) k) as [q |] eqn:E; simpl.
  - apply combine_seq_nth in E. destruct E as [E1 E2]. split.
    + intros H. inversion H; subst. simpl. exists (snd q).
      repeat split; [exact E2 | exact E1].
    + intros [p [Hp [H1 [H2 H3]]]]. rewrite Hp in E2. inversion E2; subst.
      destruct r as [i [rk cols]]; simpl in *. subst. 
      destruct q as [a [b c]]; simpl in *. subst. reflexivity.
  - split; [discriminate|].
    intros [p [Hp _]]. exfalso.
    assert (L : (k < List.length df)%nat) by (apply nth_error_Some; congruence).
    apply nth_error_None in E. rewrite length_combine, length_seq in E. lia.
Qed.

Lemma insert_rank_length (df : frame Row) :
  List.length (insert_rank df) = List.length df.
Proof.
  unfold insert_rank, range. rewrite length_map, length_combine, length_seq. lia.
Qed.

Lemma insert_rank_ranks (df : frame Row) :
  map (fun r => Rank (snd r)) (insert_rank df) = seq 1 (List.length df).
Proof.
  unfold insert_rank, range.
  replace (List.length df + 1 - 1)%nat with (List.length df) by lia.
  rewrite map_map. simpl. generalize 1%nat.
  induction df as [| x df IH]; intros s; simpl; [reflexivity|].
  rewrite IH. reflexivity.
Qed.

Lemma nth_error_pair {A B : Type} (l : list (A * B)) (k : nat) (a : A) (b : B) :
  nth_error (map fst l) k = Some a -> nth_error (map snd l) k = Some b ->
  nth_error l k = Some (a, b).
Proof.
  rewrite !nth_error_map.
  destruct (nth_error l k) as [[a' b'] |]; simpl; [|discriminate].
  intros H1 H2. inversion H1; inversion H2; subst. reflexivity.
Qed.

(** ** Frames built from columns *)

Lemma zip_columns_length (names : list string) (sims : vector) (strs : list string)
    (counts : list nat) (qscores : list Q) (labels : list string)
    (lists : list (list string)) (details : list QualityResult) :
  forallb (Nat.eqb (List.length names))
    [List.length sims; List.length strs; List.length counts;
     List.length qscores; List.length labels; List.length lists;
     List.length details] = true ->
  List.length (zip_columns names sims strs counts qscores labels lists details)
  = List.length names.
Proof.
  revert sims strs counts qscores labels lists details.
  induction names as [| n names IH];
    intros sims strs counts qscores labels lists details H; [reflexivity|].
  simpl in H. rewrite !andb_true_iff in H.
  destruct H as (H1 & H2 & H3 & H4 & H5 & H6 & H7 & _).
  destruct sims, strs, counts, qscores, labels, lists, details;
    try discriminate.
  simpl. f_equal. apply IH. simpl.
  simpl in H1, H2, H3, H4, H5, H6, H7.
  rewrite H1, H2, H3, H4, H5, H6, H7. reflexivity.
Qed.

Lemma zip_columns_nth (names : list string) (sims : vector) (strs : list string)
    (counts : list nat) (qscores : list Q) (labels : list string)
    (lists : list (list string)) (details : list QualityResult)
    (p : nat) (row : Row) :
  nth_error (zip_columns names sims strs counts qscores labels lists details) p
  = Some row ->
  nth_error names p = Some (candidate_name row)
  /\ nth_error sims p = Some (similarity_score row)
  /\ nth_error qscores p = Some (quality_score row)
  /\ nth_error lists p = Some (skills_list row).
Proof.
  revert names sims strs counts qscores labels lists details.
  induction p as [| p IH];
    intros names sims strs counts qscores labels lists details H;
    destruct names, sims, strs, counts, qscores, labels, lists, details;
    try discriminate; simpl in H.
  - inversion H; subst. simpl. repeat split.
  - simpl. apply (IH _ _ _ _ _ _ _ _ H).
Qed.

(** ** The similarity engine and the ranking pipeline *)

Section PipelineFacts.

Variable strip_and_filter : string -> string.
Variable fit_transform : list string -> result matrix.
Variable sqrtQ : Q -> Q.

Lemma handle_zeros_in_scale_nonzero (scale : Q) :
  Qeq_bool (handle_zeros_in_scale scale) 0 = false.
Proof.
  unfold handle_zeros_in_scale.
  destruct (Qeq_bool scale 0) eqn:E; [reflexivity | exact E].
Qed.

Lemma mapM_checked_div (x : vector) (d : Q) :
  Qeq_bool d 0 = false ->
  mapM (fun v => checked_div v d) x = Ok (map (fun v => v / d) x).
Proof.
  intros Hd. induction x as [| v x IH]; simpl; [reflexivity|].
  unfold checked_div at 1. rewrite Hd. simpl. rewrite IH. reflexivity.
Qed.

Lemma normalize_row_ok (x : vector) :
  normalize_row sqrtQ x = Ok (normalized sqrtQ x).
Proof.
  unfold normalize_row.
  apply mapM_checked_div. apply handle_zeros_in_scale_nonzero.
Qed.

Lemma normalize_ok (X : matrix) : normalize sqrtQ X = Ok (map (normalized sqrtQ) X).
Proof.
  unfold normalize.
  induction X as [| x X IH]; simpl; [reflexivity|].
  rewrite normalize_row_ok. simpl.
  rewrite IH. reflexivity.
Qed.

Lemma cosine_similarity_ok (X Y : matrix) :
  X <> [] -> Y <> [] ->
  cosine_similarity sqrtQ X (Some Y)
  = Ok (map (fun x => map (fun y => dot (normalized sqrtQ x) (normalized sqrtQ y)) Y) X).
Proof.
  intros HX HY. unfold cosine_similarity.
  destruct X as [| x X]; [contradiction|].
  destruct Y as [| y Y]; [contradiction|].
  cbn [check_pairwise_arrays bind].
  rewrite !normalize_ok. cbn [bind].
  rewrite map_map. f_equal. apply map_ext. intros a.
  rewrite map_map. reflexivity.
Qed.

Lemma cosine_similarity_self_ok (X : matrix) :
  X <> [] ->
  cosine_similarity sqrtQ X None
  = Ok (map (fun x => map (fun y => dot (normalized sqrtQ x) (normalized sqrtQ y)) X) X).
Proof.
  intros HX. unfold cosine_similarity.
  destruct X as [| x X]; [contradiction|].
  cbn [check_pairwise_arrays bind].
  rewrite !normalize_ok. cbn [bind].
  rewrite map_map. f_equal. apply map_ext. intros a.
  rewrite map_map. reflexivity.
Qed.

Lemma compute_cosine_similarity_ok (jd : vector) (resume_vectors : matrix) :
  resume_vectors <> [] ->
  compute_cosine_similarity sqrtQ [jd] resume_vectors
  = Ok (map (fun y => dot (normalized sqrtQ jd) (normalized sqrtQ y)) resume_vectors).
Proof.
  intros H. unfold compute_cosine_similarity.
  rewrite cosine_similarity_ok; [reflexivity | discriminate | exact H].
Qed.

(** *** Zero vectors *)

Lemma dot_zero_l (a b : vector) : all_zero a -> dot a b == 0.
Proof.
intros Ha. revert b. unfold dot.
induction Ha as [| x a Hx _ IH]; intros b; [reflexivity|].
destruct b as [| y b]; [reflexivity|].
simpl. rewrite IH, Hx. lra.
Qed.

Lemma dot_zero_r (a b : vector) : all_zero b -> dot a b == 0.
Proof.
intros Hb. revert a. unfold dot.
induction Hb as [| y b Hy _ IH]; intros a.
- destruct a; reflexivity.
- destruct a as [| x a]; [reflexivity|].
  simpl. rewrite IH, Hy. lra.
Qed.

Lemma normalized_zero (a : vector) : all_zero a -> all_zero (normalized sqrtQ a).
Proof.
unfold normalized. generalize (handle_zeros_in_scale (row_norm sqrtQ a)).
intros d Ha. induction Ha as [| x a Hx _ IH]; simpl; constructor.
- rewrite Hx. unfold Qdiv. lra.
- exact IH.
Qed.

(** C7. When the job-description vector or a resume vector is all zero,
    [compute_cosine_similarity] returns its scores, and the score of that
    resume is 0: the zero norm is replaced by one before the division, so no
    division by zero is met. *)
Theorem cosine_similarity_zero_vector (jd : vector) (resume_vectors : matrix)
    (i : nat) (r : vector) :
  nth_error resume_vectors i = Some r ->
  all_zero jd \/ all_zero r ->
  exists (scores : vector) (s : Q),
    compute_cosine_similarity sqrtQ [jd] resume_vectors = Ok scores
    /\ List.length scores = List.length resume_vectors
    /\ nth_error scores i = Some s
    /\ s == 0.
Proof.
intros Hr Hz.
assert (Hne : resume_vectors <> []).
{ intros E. subst. destruct i; discriminate. }
exists (map (fun y => dot (normalized sqrtQ jd) (normalized sqrtQ y)) resume_vectors).
exists (dot (normalized sqrtQ jd) (normalized sqrtQ r)).
split; [apply compute_cosine_similarity_ok; exact Hne|].
split; [apply length_map|].
split; [rewrite nth_error_map, Hr; reflexivity|].
destruct Hz as [Hz | Hz].
- apply dot_zero_l. apply normalized_zero. exact Hz.
- apply dot_zero_r. apply normalized_zero. exact Hz.
Qed.

(** *** The frame before sorting *)

Lemma results_frame_rows (job_description : string) (resumes : list Resume)
    (unsorted : frame Row) :
  results_frame strip_and_filter fit_transform sqrtQ job_description resumes
  = Ok unsorted ->
  exists rows : list Row,
    unsorted = labelled rows
    /\ List.length rows = List.length resumes
    /\ forall p row, nth_error rows p = Some row ->
         exists resume, nth_error resumes p = Some resume
           /\ candidate_name row = name resume
           /\ quality_score row = score (analyze_resume_quality (text resume))
           /\ skills_list row = extract_skills (text resume).
Proof.
unfold results_frame.
destruct (build_tfidf_matrix fit_transform _) as [tfidf | e]; [|discriminate].
cbn [bind].
destruct (compute_cosine_similarity sqrtQ _ _) as [scores | e]; [|discriminate].
cbn [bind]. unfold DataFrame.
match goal with |- context [forallb ?f ?l] => destruct (forallb f l) eqn:Hlen end;
  [|discriminate].
intros H. inversion H; subst unsorted; clear H.
eexists. split; [reflexivity|]. split.
- rewrite (zip_columns_length _ _ _ _ _ _ _ _ Hlen). apply length_map.
- intros p row Hp.
  destruct (zip_columns_nth _ _ _ _ _ _ _ _ _ _ Hp) as (Hn & _ & Hq & Hs).
  rewrite nth_error_map in Hn.
  destruct (nth_error resumes p) as [resume |] eqn:Hres; [|discriminate].
  exists resume. split; [reflexivity|].
  simpl in Hn. inversion Hn as [Hn'].
  rewrite !nth_error_map, Hres in Hq. simpl in Hq. inversion Hq as [Hq'].
  rewrite !nth_error_map, Hres in Hs. simpl in Hs. inversion Hs as [Hs'].
  repeat split; reflexivity.
Qed.

Lemma rank_candidates_unfold (job_description : string) (resumes : list Resume)
    (df : frame RankedRow) :
  rank_candidates strip_and_filter fit_transform sqrtQ job_description resumes
  = Ok df ->
  exists unsorted,
    results_frame strip_and_filter fit_transform sqrtQ job_description resumes
    = Ok unsorted
    /\ df = insert_rank (reset_index (sort_values unsorted)).
Proof.
unfold rank_candidates.
destruct (results_frame _ _ _ _ _) as [unsorted | e]; [|discriminate].
cbn [bind]. intros H. inversion H. exists unsorted. split; reflexivity.
Qed.

Lemma labelled_In_nth {A : Type} (rows : list A) (p : nat) (a : A) :
  In (p, a) (labelled rows) -> nth_error (labelled rows) p = Some (p, a).
Proof.
intros Hin. apply In_nth_error in Hin. destruct Hin as [k Hk].
pose proof (proj1 (labelled_nth rows k (p, a)) Hk) as [E _].
simpl in E. subst k. exact Hk.
Qed.

(** C1. The rows that [rank_candidates] returns are the rows of the frame it
    built, one per resume in input order, rearranged by a permutation [perm]
    of the input positions; for all output positions [i < j] the similarity
    score of row [i] is greater than that of row [j], or the similarity
    scores are equal and the quality score of row [i] is greater, or both
    scores are equal and row [i]'s resume came before row [j]'s in the
    input. *)
Theorem rank_candidates_sorted_stable (job_description : string)
    (resumes : list Resume) (df : frame RankedRow) :
  rank_candidates strip_and_filter fit_transform sqrtQ job_description resumes
  = Ok df ->
  exists (unsorted : frame Row) (perm : list nat),
    results_frame strip_and_filter fit_transform sqrtQ job_description resumes
    = Ok unsorted
    /\ Permutation perm (seq 0 (List.length resumes))
    /\ List.length df = List.length perm
    /\ (forall k p r,
          nth_error perm k = Some p -> nth_error df k = Some r ->
          nth_error unsorted p = Some (p, columns (snd r))
          /\ exists resume, nth_error resumes p = Some resume
               /\ candidate_name (columns (snd r)) = name resume)
    /\ (forall i j p_i p_j r_i r_j,
          (i < j)%nat ->
          nth_error perm i = Some p_i -> nth_error perm j = Some p_j ->
          nth_error df i = Some r_i -> nth_error df j = Some r_j ->
          let score_i := similarity_score (columns (snd r_i)) in
          let score_j := similarity_score (columns (snd r_j)) in
          let quality_i := quality_score (columns (snd r_i)) in
          let quality_j := quality_score (columns (snd r_j)) in
          score_j < score_i
          \/ (score_i == score_j /\ quality_j < quality_i)
          \/ (score_i == score_j /\ quality_i == quality_j /\ (p_i < p_j)%nat)).
Proof.
intros Hrun.
destruct (rank_candidates_unfold _ _ _ Hrun) as [unsorted [Hframe Hdf]].
destruct (results_frame_rows _ _ _ Hframe) as [rows [Hlab [Hlen Hrows]]].
set (sorted := sort_values unsorted) in *.
assert (Hperm : Permutation unsorted sorted) by apply sort_values_perm.
assert (Hsorted : StronglySorted placed_before sorted).
{ apply sort_values_sorted. subst unsorted. apply labelled_from_sorted. }
assert (Hrow : forall k p r,
          nth_error (map fst sorted) k = Some p -> nth_error df k = Some r ->
          nth_error sorted k = Some (p, columns (snd r))).
{ intros k p r Hp Hr. subst df.
  apply insert_rank_nth in Hr. destruct Hr as [q [Hq [_ [_ Hc]]]].
  unfold reset_index in Hq. apply labelled_nth in Hq. destruct Hq as [_ Hq].
  rewrite Hc. apply nth_error_pair; assumption. }
exists unsorted, (map fst sorted).
split; [exact Hframe|]. split.
{ rewrite <- Hlen, <- labelled_fst, <- Hlab.
  apply Permutation_sym, Permutation_map. exact Hperm. }
split.
{ subst df. rewrite insert_rank_length. unfold reset_index.
  rewrite labelled_length, !length_map. reflexivity. }
split.
- intros k p r Hp Hr.
  pose proof (Hrow k p r Hp Hr) as Hk.
  assert (Hin : In (p, columns (snd r)) unsorted).
  { apply (Permutation_in _ (Permutation_sym Hperm)).
    eapply nth_error_In. exact Hk. }
  rewrite Hlab in Hin |- *. apply labelled_In_nth in Hin.
  split; [exact Hin|].
  apply labelled_nth in Hin. destruct Hin as [_ Hin]. simpl in Hin.
  destruct (Hrows _ _ Hin) as [resume [H1 [H2 _]]].
  exists resume. split; assumption.
- intros i j p_i p_j r_i r_j Hij Hpi Hpj Hri Hrj. cbv zeta.
  pose proof (Hrow i p_i r_i Hpi Hri) as Hi.
  pose proof (Hrow j p_j r_j Hpj Hrj) as Hj.
  exact (StronglySorted_nth _ _ Hsorted i j _ _ Hij Hi Hj).
Qed.

(** *** Ranks *)

Lemma sort_values_length (df : frame Row) :
  List.length (sort_values df) = List.length df.
Proof. symmetry. apply Permutation_length, sort_values_perm. Qed.

Lemma insert_rank_labels (df : frame Row) :
  map fst (insert_rank df) = map fst df.
Proof.
apply nth_error_ext. intros k. rewrite !nth_error_map.
destruct (nth_error (insert_rank df) k) as [r |] eqn:E.
- apply insert_rank_nth in E. destruct E as [p [Hp [Hf _]]].
  rewrite Hp. simpl. rewrite Hf. reflexivity.
- destruct (nth_error df k) as [p |] eqn:E2; [|reflexivity].
  exfalso. apply nth_error_None in E. rewrite insert_rank_length in E.
  assert (k < List.length df)%nat by (apply nth_error_Some; congruence).
  lia.
Qed.

(** C2, as the code has it. For a non-empty resume list of length [N] on
    which the vectoriser returns its matrix, one row per document of the
    corpus, [rank_candidates] returns exactly [N] rows, and their Rank values
    are 1, 2, ..., [N] in output order, whatever the scores are: rows that
    tie on both scores still get distinct consecutive ranks. *)
Theorem rank_candidates_ranks (job_description : string)
    (resumes : list Resume) (tfidf_matrix : matrix) :
  resumes <> [] ->
  build_tfidf_matrix fit_transform
    (clean_text strip_and_filter job_description
     :: map (fun resume => clean_text strip_and_filter (text resume)) resumes)
  = Ok tfidf_matrix ->
  List.length tfidf_matrix = S (List.length resumes) ->
  exists df : frame RankedRow,
    rank_candidates strip_and_filter fit_transform sqrtQ job_description resumes
    = Ok df
    /\ List.length df = List.length resumes
    /\ map (fun r => Rank (snd r)) df = seq 1 (List.length resumes)
    /\ map fst df = seq 0 (List.length resumes).
Proof.
intros Hne Hfit Hshape.
destruct tfidf_matrix as [| jd resume_vectors]; [discriminate|].
simpl in Hshape. injection Hshape as Hshape.
assert (Hrv : resume_vectors <> []).
{ intros E. subst. destruct resumes; [contradiction | discriminate]. }
unfold rank_candidates, results_frame. rewrite Hfit. cbn [bind firstn skipn].
rewrite (compute_cosine_similarity_ok jd resume_vectors Hrv). cbn [bind].
unfold DataFrame.
match goal with |- context [forallb ?f ?l] =>
  assert (Hlen : forallb f l = true) end.
{ unfold np_round. cbn [forallb]. rewrite !length_map, Hshape.
  rewrite Nat.eqb_refl. reflexivity. }
rewrite Hlen. cbn [bind].
match goal with |- context [sort_values ?x] =>
  assert (L : List.length (reset_index (sort_values x)) = List.length resumes);
  [| set (sorted := sort_values x) in * ]
end.
{ unfold reset_index. rewrite labelled_length, length_map, sort_values_length.
  rewrite labelled_length, (zip_columns_length _ _ _ _ _ _ _ _ Hlen).
  apply length_map. }
eexists. split; [reflexivity|].
split; [rewrite insert_rank_length; exact L|].
split; [rewrite insert_rank_ranks, L; reflexivity|].
rewrite insert_rank_labels. unfold reset_index in *.
rewrite labelled_fst. rewrite labelled_length in L. rewrite L. reflexivity.
Qed.

(** C8, as the code has it. [rank_candidates] on an empty resume list
    raises ValueError for every job description, and returns no rows. The
    error is the vectoriser's when the vectoriser raises on the corpus that
    holds the cleaned job description alone; otherwise it comes from
    [cosine_similarity], which refuses the resume matrix with no rows. The
    vectoriser is taken to return one row per document and to raise nothing
    but ValueError, as scikit-learn's does. *)
Theorem rank_candidates_empty_raises (job_description : string) :
  (forall documents m, fit_transform documents = Ok m ->
                       List.length m = List.length documents) ->
  (forall documents e, fit_transform documents = Raise e ->
                       exists msg, e = ValueError msg) ->
  exists msg : string,
    rank_candidates strip_and_filter fit_transform sqrtQ job_description []
    = Raise (ValueError msg)
    /\ (build_tfidf_matrix fit_transform
          [clean_text strip_and_filter job_description]
        = Raise (ValueError msg)
        \/ exists jd_vector : vector,
             build_tfidf_matrix fit_transform
               [clean_text strip_and_filter job_description]
             = Ok [jd_vector]
             /\ cosine_similarity sqrtQ [jd_vector] (Some [])
                = Raise (ValueError msg)
             /\ msg = min_samples_message 0 (List.length jd_vector)).
Proof.
intros Hshape Hraise. unfold rank_candidates, results_frame, build_tfidf_matrix.
cbn [map].
destruct (fit_transform [clean_text strip_and_filter job_description])
  as [m | e] eqn:Hfit.
- pose proof (Hshape _ _ Hfit) as Hlen.
  destruct m as [| jd_vector [| x m]]; try discriminate.
  exists (min_samples_message 0 (List.length jd_vector)). split.
  + cbn [bind firstn skipn]. unfold compute_cosine_similarity, cosine_similarity.
    cbn [check_pairwise_arrays n_features bind]. reflexivity.
  + right. exists jd_vector. repeat split.
- destruct (Hraise _ _ Hfit) as [msg ->]. exists msg.
  split; [reflexivity | left; reflexivity].
Qed.

End PipelineFacts.

(** ** Duplicate detection *)

Lemma index_ok_nth {A : Type} (l : list A) (i : nat) (a d : A) :
  index l i = Ok a -> nth i l d = a.
Proof.
unfold index. destruct (nth_error l i) as [x |] eqn:E; [|discriminate].
intros H. inversion H; subst. apply nth_error_nth. exact E.
Qed.

Lemma index_in_range {A : Type} (l : list A) (i : nat) (d : A) :
  (i < List.length l)%nat -> index l i = Ok (nth i l d).
Proof.
intros H. unfold index. rewrite (nth_error_nth' l d H). reflexivity.
Qed.

Lemma scan_row_result (names : list string) (sim_matrix : matrix) (threshold : Q)
    (i : nat) (js : list nat) (duplicates out : list DuplicatePair) :
  scan_row names sim_matrix threshold i js duplicates = Ok out ->
  out = (duplicates
         ++ map (pair_record names sim_matrix)
                (filter (reported sim_matrix threshold) (map (pair i) js)))%list.
Proof.
revert duplicates. induction js as [| j js IH]; intros duplicates H.
- simpl in H. inversion H. simpl. rewrite app_nil_r. reflexivity.
- cbn [scan_row] in H.
  destruct (index sim_matrix i) as [sim_row |] eqn:Erow; [|discriminate].
  cbn [bind] in H.
  destruct (index sim_row j) as [sim_ij |] eqn:Eij; [|discriminate].
  cbn [bind] in H.
  assert (Es : sim_at sim_matrix i j = sim_ij).
  { unfold sim_at, matrix, vector in *. rewrite (index_ok_nth _ _ _ [] Erow).
    apply (index_ok_nth _ _ _ 0 Eij). }
  cbn [map filter]. unfold reported at 1. cbn [fst snd]. rewrite Es.
  destruct (Qle_bool threshold (py_round sim_ij 4)).
  + destruct (index names i) as [a |] eqn:Ea; [|discriminate].
    cbn [bind] in H.
    destruct (index names j) as [b |] eqn:Eb; [|discriminate].
    cbn [bind] in H.
    rewrite (IH _ H). rewrite <- app_assoc. f_equal. cbn [map app]. f_equal.
    unfold pair_record, name_at. cbn [fst snd]. rewrite Es.
    rewrite (index_ok_nth _ _ _ "" Ea), (index_ok_nth _ _ _ "" Eb). reflexivity.
  + apply IH. exact H.
Qed.

Lemma scan_row_returns (names : list string) (sim_matrix : matrix) (threshold : Q)
    (i : nat) (js : list nat) (duplicates : list DuplicatePair) :
  (i < List.length names)%nat ->
  (i < List.length sim_matrix)%nat ->
  Forall (fun j => (j < List.length names)%nat
                   /\ (j < List.length (nth i sim_matrix []))%nat) js ->
  exists out, scan_row names sim_matrix threshold i js duplicates = Ok out.
Proof.
intros Hn Hm Hjs. revert duplicates.
induction Hjs as [| j js [Hj1 Hj2] _ IH]; intros duplicates.
- eexists. reflexivity.
- cbn [scan_row].
  rewrite (index_in_range sim_matrix i [] Hm). cbn [bind].
  rewrite (index_in_range _ j 0 Hj2). cbn [bind].
  destruct (Qle_bool threshold _).
  + rewrite (index_in_range names i "" Hn). cbn [bind].
    rewrite (index_in_range names j "" Hj1). cbn [bind]. apply IH.
  + apply IH.
Qed.

Lemma scan_rows_result (names : list string) (sim_matrix : matrix) (threshold : Q)
    (n : nat) (rows : list nat) (duplicates out : list DuplicatePair) :
  scan_rows names sim_matrix threshold n rows duplicates = Ok out ->
  out = (duplicates
         ++ map (pair_record names sim_matrix)
                (filter (reported sim_matrix threshold) (pairs_below n rows)))%list.
Proof.
revert duplicates. induction rows as [| i rows IH]; intros duplicates H.
- simpl in H. inversion H. simpl. rewrite app_nil_r. reflexivity.
- cbn [scan_rows] in H.
  destruct (scan_row names sim_matrix threshold i (range (i + 1) n) duplicates)
    as [mid |] eqn:Erow; [|discriminate].
  cbn [bind] in H.
  rewrite (IH _ H). rewrite (scan_row_result _ _ _ _ _ _ _ Erow).
  unfold pairs_below. cbn [flat_map].
  rewrite filter_app, map_app, app_assoc. reflexivity.
Qed.

Lemma scan_rows_returns (names : list string) (sim_matrix : matrix) (threshold : Q)
    (n : nat) (rows : list nat) (duplicates : list DuplicatePair) :
  List.length names = n ->
  List.length sim_matrix = n ->
  Forall (fun row => List.length row = n) sim_matrix ->
  Forall (fun i => (i < n)%nat) rows ->
  exists out, scan_rows names sim_matrix threshold n rows duplicates = Ok out.
Proof.
intros Hn Hm Hsq Hrows. revert duplicates.
induction Hrows as [| i rows Hi _ IH]; intros duplicates.
- eexists. reflexivity.
- cbn [scan_rows].
  destruct (scan_row_returns names sim_matrix threshold i (range (i + 1) n)
              duplicates) as [mid Hmid]; try lia.
  { apply Forall_forall. intros j Hj. unfold range in Hj. apply in_seq in Hj.
    assert (Hrow : List.length (nth i sim_matrix []) = n).
    { rewrite Forall_forall in Hsq. apply Hsq. apply nth_In. lia. }
    lia. }
  rewrite Hmid. cbn [bind]. apply IH.
Qed.

Lemma pairs_below_In (n : nat) (i j : nat) :
  In (i, j) (pairs_below n (range 0 n)) <-> (i < j)%nat /\ (j < n)%nat.
Proof.
unfold pairs_below. rewrite in_flat_map. split.
- intros [i' [Hi' Hin]]. apply in_map_iff in Hin.
  destruct Hin as [j' [E Hj']]. inversion E; subst.
  unfold range in *. apply in_seq in Hi', Hj'. lia.
- intros [Hij Hjn]. exists i. split.
  + unfold range. apply in_seq. lia.
  + apply in_map. unfold range. apply in_seq. lia.
Qed.

Lemma NoDup_flat_map_pairs (f : nat -> list nat) (rows : list nat) :
  NoDup rows -> (forall i, NoDup (f i)) ->
  NoDup (flat_map (fun i => map (pair i) (f i)) rows).
Proof.
intros Hrows Hf. induction Hrows as [| i rows Hi _ IH]; simpl.
- constructor.
- apply NoDup_app.
  + apply Finite.Injective_map_NoDup; [|apply Hf].
    intros a b E. inversion E. reflexivity.
  + exact IH.
  + intros [a b] H1 H2. apply in_map_iff in H1. destruct H1 as [x [E _]].
    inversion E; subst. apply in_flat_map in H2. destruct H2 as [i' [Hi' H2]].
    apply in_map_iff in H2. destruct H2 as [y [E2 _]]. inversion E2; subst.
    contradiction.
Qed.

Lemma pairs_below_NoDup (n : nat) : NoDup (pairs_below n (range 0 n)).
Proof.
unfold pairs_below. apply NoDup_flat_map_pairs.
- unfold range. apply seq_NoDup.
- intros i. unfold range. apply seq_NoDup.
Qed.

Section DuplicateFacts.

Variable strip_and_filter : string -> string.
Variable fit_transform : list string -> result matrix.
Variable sqrtQ : Q -> Q.

Lemma detect_duplicates_few (resumes : list Resume) (threshold : Q) :
  (List.length resumes < 2)%nat ->
  detect_duplicates strip_and_filter fit_transform sqrtQ resumes threshold = Ok [].
Proof.
intros H. unfold detect_duplicates.
destruct (Nat.ltb_spec (List.length resumes) 2); [reflexivity | lia].
Qed.

Lemma detect_duplicates_unfold (resumes : list Resume) (threshold : Q)
    (dups : list DuplicatePair) :
  (2 <= List.length resumes)%nat ->
  detect_duplicates strip_and_filter fit_transform sqrtQ resumes threshold = Ok dups ->
  exists tfidf_matrix sim_matrix,
    build_tfidf_matrix fit_transform
      (map (fun r => clean_text strip_and_filter (text r)) resumes) = Ok tfidf_matrix
    /\ cosine_similarity sqrtQ tfidf_matrix None = Ok sim_matrix
    /\ dups = map (pair_record (map name resumes) sim_matrix)
                  (filter (reported sim_matrix threshold)
                          (pairs_below (List.length resumes)
                                       (range 0 (List.length resumes)))).
Proof.
intros Hn. unfold detect_duplicates.
destruct (Nat.ltb_spec (List.length resumes) 2); [lia|].
destruct (build_tfidf_matrix fit_transform _) as [tfidf |] eqn:Hfit;
  [|discriminate].
cbn [bind].
destruct (cosine_similarity sqrtQ tfidf None) as [sim |] eqn:Hsim; [|discriminate].
cbn [bind]. intros Hscan. exists tfidf, sim.
split; [reflexivity|]. split; [exact Hsim|].
apply scan_rows_result in Hscan. exact Hscan.
Qed.

(** C3, as the code has it. [detect_duplicates] returns the empty list,
    without raising, for fewer than two resumes. For two or more resumes on
    which the vectoriser returns its matrix, one row per resume, it returns
    exactly one record per pair of positions [i < j] whose similarity,
    rounded to four decimals, is at least the threshold: no record pairs a
    resume with itself, none is the reverse of another, and none has a
    rounded similarity below the threshold. *)
Theorem detect_duplicates_pairs (resumes : list Resume) (threshold : Q) :
  ((List.length resumes < 2)%nat ->
   detect_duplicates strip_and_filter fit_transform sqrtQ resumes threshold = Ok [])
  /\ (forall tfidf_matrix : matrix,
        (2 <= List.length resumes)%nat ->
        build_tfidf_matrix fit_transform
          (map (fun r => clean_text strip_and_filter (text r)) resumes)
        = Ok tfidf_matrix ->
        List.length tfidf_matrix = List.length resumes ->
        exists (sim_matrix : matrix) (pairs : list (nat * nat)),
          cosine_similarity sqrtQ tfidf_matrix None = Ok sim_matrix
          /\ NoDup pairs
          /\ (forall i j, In (i, j) pairs <->
                ((i < j)%nat /\ (j < List.length resumes)%nat
                 /\ threshold <= py_round (sim_at sim_matrix i j) 4))
          /\ detect_duplicates strip_and_filter fit_transform sqrtQ resumes threshold
             = Ok (map (pair_record (map name resumes) sim_matrix) pairs)).
Proof.
split; [apply detect_duplicates_few|].
intros tfidf Hn Hfit Hshape.
assert (Hne : tfidf <> []).
{ intros E. subst. simpl in Hshape. lia. }
set (n := List.length resumes) in *.
set (sim := map (fun x => map (fun y => dot (normalized sqrtQ x) (normalized sqrtQ y))
                              tfidf) tfidf).
assert (Hsim : cosine_similarity sqrtQ tfidf None = Ok sim)
  by (apply cosine_similarity_self_ok; exact Hne).
exists sim, (filter (reported sim threshold) (pairs_below n (range 0 n))).
split; [exact Hsim|]. split; [apply NoDup_filter, pairs_below_NoDup|]. split.
- intros i j. rewrite filter_In, pairs_below_In. unfold reported. cbn [fst snd].
  rewrite Qle_bool_iff. tauto.
- unfold detect_duplicates. fold n.
  destruct (Nat.ltb_spec n 2); [lia|].
  rewrite Hfit. cbn [bind]. rewrite Hsim. cbn [bind].
  destruct (scan_rows_returns (map name resumes) sim threshold n (range 0 n) [])
    as [out Hout].
  + apply length_map.
  + unfold sim. rewrite length_map. exact Hshape.
  + unfold sim. apply Forall_forall. intros row Hrow.
    apply in_map_iff in Hrow. destruct Hrow as [x [E _]]. subst row.
    rewrite length_map. exact Hshape.
  + apply Forall_forall. intros i Hi. unfold range in Hi. apply in_seq in Hi. lia.
  + rewrite Hout. f_equal. apply (scan_rows_result _ _ _ _ _ _ _ Hout).
Qed.

Lemma detect_duplicates_returns (resumes : list Resume) (threshold : Q)
    (tfidf_matrix : matrix) :
  (2 <= List.length resumes)%nat ->
  build_tfidf_matrix fit_transform
    (map (fun r => clean_text strip_and_filter (text r)) resumes)
  = Ok tfidf_matrix ->
  List.length tfidf_matrix = List.length resumes ->
  exists sim_matrix : matrix,
    cosine_similarity sqrtQ tfidf_matrix None = Ok sim_matrix
    /\ detect_duplicates strip_and_filter fit_transform sqrtQ resumes threshold
       = Ok (map (pair_record (map name resumes) sim_matrix)
                 (filter (reported sim_matrix threshold)
                         (pairs_below (List.length resumes)
                                      (range 0 (List.length resumes))))).
Proof.
intros Hn Hfit Hshape.
assert (Hne : tfidf_matrix <> []).
{ intros E. subst. simpl in Hshape. lia. }
set (n := List.length resumes) in *.
set (sim := map (fun x => map (fun y => dot (normalized sqrtQ x) (normalized sqrtQ y))
                              tfidf_matrix) tfidf_matrix).
assert (Hsim : cosine_similarity sqrtQ tfidf_matrix None = Ok sim)
  by (apply cosine_similarity_self_ok; exact Hne).
exists sim. split; [exact Hsim|].
unfold detect_duplicates. fold n.
destruct (Nat.ltb_spec n 2); [lia|].
rewrite Hfit. cbn [bind]. rewrite Hsim. cbn [bind].
destruct (scan_rows_returns (map name resumes) sim threshold n (range 0 n) [])
  as [out Hout].
- apply length_map.
- unfold sim. rewrite length_map. exact Hshape.
- unfold sim. apply Forall_forall. intros row Hrow.
  apply in_map_iff in Hrow. destruct Hrow as [x [E _]]. subst row.
  rewrite length_map. exact Hshape.
- apply Forall_forall. intros i Hi. unfold range in Hi. apply in_seq in Hi. lia.
- rewrite Hout. f_equal. apply (scan_rows_result _ _ _ _ _ _ _ Hout).
Qed.

(** C10. [detect_duplicates] rounds each similarity to four decimals, tests
    the rounded value against the threshold and puts the rounded value in
    the record. Whenever the vectoriser returns its matrix, one row per
    resume, the call returns, and the pair of positions [i < j] is in the
    report exactly when its rounded similarity is at least the threshold;
    every record of the report carries the rounded similarity of its pair.
    So a pair whose exact similarity is below a threshold of four decimals
    by less than 0.00005 is reported, with the threshold itself as its
    similarity. This happens with the vectoriser of the sources at the
    default threshold: for gina and hugo the similarity is 0.899955..., and
    at 0.90 the pair is reported with similarity 0.9. *)
Theorem detect_duplicates_rounds_before_comparing :
  (forall (resumes : list Resume) (threshold : Q) (tfidf_matrix : matrix),
      (2 <= List.length resumes)%nat ->
      build_tfidf_matrix fit_transform
        (map (fun r => clean_text strip_and_filter (text r)) resumes)
      = Ok tfidf_matrix ->
      List.length tfidf_matrix = List.length resumes ->
      exists (sim_matrix : matrix) (dups : list DuplicatePair),
        cosine_similarity sqrtQ tfidf_matrix None = Ok sim_matrix
        /\ detect_duplicates strip_and_filter fit_transform sqrtQ resumes threshold
           = Ok dups
        /\ (forall i j, (i < j)%nat -> (j < List.length resumes)%nat ->
              (In (pair_record (map name resumes) sim_matrix (i, j)) dups
               <-> threshold <= py_round (sim_at sim_matrix i j) 4))
        /\ (forall d, In d dups ->
              exists i j, (i < j)%nat /\ (j < List.length resumes)%nat
                /\ d = pair_record (map name resumes) sim_matrix (i, j)
                /\ similarity d = py_round (sim_at sim_matrix i j) 4
                /\ threshold <= similarity d)
        /\ (forall i j (k : Z), (i < j)%nat -> (j < List.length resumes)%nat ->
              threshold == inject_Z k / 10000 ->
              threshold - (5 # 100000) < sim_at sim_matrix i j ->
              sim_at sim_matrix i j < threshold ->
              py_round (sim_at sim_matrix i j) 4 == threshold
              /\ In (pair_record (map name resumes) sim_matrix (i, j)) dups))
  /\ (let resumes := Vectorizer.colleagues in
      let threshold := 9 # 10 in
      exists sim_matrix : matrix,
        Vectorizer.similarities resumes = Ok sim_matrix
        /\ 89995 # 100000 < sim_at sim_matrix 0 1
        /\ sim_at sim_matrix 0 1 < threshold
        /\ Vectorizer.duplicates resumes threshold
           = Ok [ {| candidate_a := "gina"; candidate_b := "hugo";
                     similarity := 9 # 10 |} ]).
Proof.
split.
- intros resumes threshold tfidf_matrix Hn Hfit Hshape.
  destruct (detect_duplicates_returns resumes threshold tfidf_matrix Hn Hfit Hshape)
    as [sim [Hsim Hrun]].
  set (n := List.length resumes) in *.
  set (dups := map (pair_record (map name resumes) sim)
                   (filter (reported sim threshold) (pairs_below n (range 0 n)))) in *.
  assert (Hin : forall i j, (i < j)%nat -> (j < n)%nat ->
            threshold <= py_round (sim_at sim i j) 4 ->
            In (pair_record (map name resumes) sim (i, j)) dups).
  { intros i j Hij Hj Hle. unfold dups. apply in_map. apply filter_In. split.
    - apply pairs_below_In. split; assumption.
    - unfold reported. cbn [fst snd]. apply Qle_bool_iff. exact Hle. }
  assert (Hout : forall d, In d dups ->
            exists i j, (i < j)%nat /\ (j < n)%nat
              /\ d = pair_record (map name resumes) sim (i, j)
              /\ similarity d = py_round (sim_at sim i j) 4
              /\ threshold <= similarity d).
  { intros d Hd. unfold dups in Hd. apply in_map_iff in Hd.
    destruct Hd as [[i j] [Hd Hp]]. apply filter_In in Hp.
    destruct Hp as [Hp Hrep]. apply pairs_below_In in Hp.
    exists i, j. split; [tauto|]. split; [tauto|]. split; [symmetry; exact Hd|].
    subst d. split; [reflexivity|].
    unfold reported in Hrep. apply Qle_bool_iff in Hrep. exact Hrep. }
  exists sim, dups. split; [exact Hsim|]. split; [exact Hrun|].
  split; [|split; [exact Hout|]].
  + intros i j Hij Hj. split; [|apply Hin; assumption].
    intros Hd. destruct (Hout _ Hd) as [i' [j' [_ [_ [E [_ Hle]]]]]].
    cbn [pair_record similarity fst snd] in Hle. exact Hle.
  + intros i j k Hij Hj Hk Hlow Hhigh.
    assert (Hr : py_round (sim_at sim i j) 4 == threshold).
    { rewrite Hk. apply py_round_near4; rewrite <- Hk; assumption. }
    split; [exact Hr|]. apply Hin; try assumption. rewrite Hr. apply Qle_refl.
- cbv zeta. eexists. split; [vm_compute; reflexivity|].
  split; [vm_compute; reflexivity|].
  split; [vm_compute; reflexivity|]. vm_compute. reflexivity.
Qed.

End DuplicateFacts.

(** ** Skill extraction *)

(** C4, where the code departs from it. In "I know C++ and Java" the keyword
    "c++" occurs as a whole word of the lowercased text, yet the pattern
    [\bc\+\+\b] finds nothing, because [\b] after "+" asks for a word
    character to follow; [extract_skills] returns only "Java". *)
Theorem extract_skills_misses_cpp :
  occurs_whole_word "c++" (Str.lower "I know C++ and Java") = true
  /\ Re.search (skill_pattern "c++") (Str.lower "I know C++ and Java") = false
  /\ extract_skills "I know C++ and Java" = ["Java"].
Proof. vm_compute. repeat split; reflexivity. Qed.

(** *** What [extract_skills] returns *)

Lemma found_skills_loop_spec (skills : list string) (text_lower : string)
    (found_skills : list string) :
  found_skills_loop skills text_lower found_skills
  = (found_skills
     ++ map Str.title
            (filter (fun skill => Re.search (skill_pattern skill) text_lower)
                    skills))%list.
Proof.
revert found_skills. induction skills as [| skill skills IH]; intros acc; simpl.
- rewrite app_nil_r. reflexivity.
- destruct (Re.search (skill_pattern skill) text_lower); rewrite IH.
  + rewrite <- app_assoc. reflexivity.
  + reflexivity.
Qed.

Lemma insert_sorted_perm (x : string) (l : list string) :
  Permutation (x :: l) (Str.insert_sorted x l).
Proof.
induction l as [| y l IH]; simpl.
- apply Permutation_refl.
- destruct (String.leb x y).
  + apply Permutation_refl.
  + eapply perm_trans; [apply perm_swap|]. apply perm_skip. exact IH.
Qed.

Lemma sorted_perm (l : list string) : Permutation l (Str.sorted l).
Proof.
unfold Str.sorted. induction l as [| x l IH]; simpl.
- apply perm_nil.
- eapply perm_trans; [apply perm_skip; exact IH | apply insert_sorted_perm].
Qed.

Lemma insert_sorted_Sorted (x : string) (l : list string) :
  Sorted (fun a b => String.leb a b = true) l ->
  Sorted (fun a b => String.leb a b = true) (Str.insert_sorted x l).
Proof.
induction l as [| y l IH]; intros Hs; simpl.
- constructor; constructor.
- destruct (String.leb x y) eqn:E.
  + constructor; [exact Hs | constructor; exact E].
  + inversion Hs as [| ? ? Hs' Hhd]; subst.
    constructor; [apply IH; exact Hs'|].
    assert (Hyx : String.leb y x = true).
    { destruct (String.leb_total x y) as [H | H]; [congruence | exact H]. }
    destruct l as [| z l]; simpl.
    * constructor. exact Hyx.
    * destruct (String.leb x z); constructor; [exact Hyx|].
      inversion Hhd; assumption.
Qed.

Lemma sorted_Sorted (l : list string) :
  Sorted (fun a b => String.leb a b = true) (Str.sorted l).
Proof.
unfold Str.sorted. induction l as [| x l IH]; simpl.
- constructor.
- apply insert_sorted_Sorted. exact IH.
Qed.

(** The list that [extract_skills] returns is in alphabetical order, has no
    repeats, and holds exactly the title-cased taxonomy skills whose pattern
    is found in the lowercased text. *)
Lemma extract_skills_sorted_members (text : string) :
  Sorted (fun a b => String.leb a b = true) (extract_skills text)
  /\ NoDup (extract_skills text)
  /\ (text <> "" ->
      forall x, In x (extract_skills text) <->
        exists skill, In skill ALL_SKILLS
          /\ Re.search (skill_pattern skill) (Str.lower text) = true
          /\ x = Str.title skill).
Proof.
unfold extract_skills. destruct (String.eqb_spec text "") as [E | E].
- split; [constructor|]. split; [constructor|]. intros H; contradiction.
- split; [apply sorted_Sorted|]. split.
  + apply (Permutation_NoDup (sorted_perm _)). apply NoDup_nodup.
  + intros _ x. rewrite found_skills_loop_spec, app_nil_l.
    split.
    * intros H. apply (Permutation_in _ (Permutation_sym (sorted_perm _))) in H.
      apply nodup_In in H. apply in_map_iff in H. destruct H as [skill [Hx Hin]].
      apply filter_In in Hin. exists skill. repeat split; try tauto. congruence.
    * intros [skill [Hin [Hm Hx]]]. apply (Permutation_in _ (sorted_perm _)).
      apply nodup_In. apply in_map_iff. exists skill. split; [congruence|].
      apply filter_In. split; assumption.
Qed.

(** *** Where the pattern and whole-word occurrence agree *)

Lemma last_nonempty {A : Type} (x : A) (l : list A) (c d : A) :
  last (x :: l) c = last (x :: l) d.
Proof.
revert x. induction l as [| y l IH]; intros x; [reflexivity|].
change (last (x :: y :: l) c) with (last (y :: l) c).
change (last (x :: y :: l) d) with (last (y :: l) d).
apply IH.
Qed.

Lemma last_char_cons (c d : ascii) (rest : string) :
  last_char c (String d rest) = last_char d rest.
Proof.
unfold last_char. cbn [list_ascii_of_string].
destruct (list_ascii_of_string rest) as [| x l]; [reflexivity|].
change (last (d :: x :: l) c) with (last (x :: l) c).
apply last_nonempty.
Qed.

Lemma match_lits (c : ascii) (rest : string) (prev : option ascii)
    (s : list ascii) (k : Re.Cont) :
  Re.match_at (Re.lits (String c rest)) prev s k
  = match strip_prefix (c :: list_ascii_of_string rest) s with
    | Some s' => k (Some (last_char c rest)) s'
    | None => false
    end.
Proof.
revert c prev s. induction rest as [| d rest IH]; intros c prev s.
- simpl. destruct s as [| c' s]; [reflexivity|].
  destruct (Ascii.eqb_spec c c'); [subst; reflexivity | reflexivity].
- change (Re.lits (String c (String d rest)))
    with (Re.Cat (Re.Lit c) (Re.lits (String d rest))).
  cbn [Re.match_at]. destruct s as [| c' s]; [reflexivity|].
  change (strip_prefix (c :: list_ascii_of_string (String d rest)) (c' :: s))
    with (if Ascii.eqb c c'
          then strip_prefix (d :: list_ascii_of_string rest) s else None).
  destruct (Ascii.eqb c c'); [|reflexivity].
  rewrite IH, last_char_cons. reflexivity.
Qed.

Lemma strip_prefix_head (c : ascii) (kw s rest : list ascii) :
  strip_prefix (c :: kw) s = Some rest -> hd_error s = Some c.
Proof.
destruct s as [| c' s]; simpl; [discriminate|].
destruct (Ascii.eqb_spec c c'); [subst; reflexivity | discriminate].
Qed.

Lemma skill_pattern_at (c : ascii) (rest : string) (prev : option ascii)
    (s : list ascii) :
  Str.is_word c = true -> Str.is_word (last_char c rest) = true ->
  Re.match_at (skill_pattern (String c rest)) prev s (fun _ _ => true)
  = match strip_prefix (c :: list_ascii_of_string rest) s with
    | Some s' => negb (Re.word_of prev) && negb (Re.word_of (hd_error s'))
    | None => false
    end.
Proof.
intros Hc Hl. unfold skill_pattern, Re.escape.
cbn [Re.match_at]. rewrite match_lits.
destruct (strip_prefix (c :: list_ascii_of_string rest) s) as [s' |] eqn:E.
- assert (Hb : Re.at_boundary prev s = negb (Re.word_of prev)).
  { unfold Re.at_boundary. rewrite (strip_prefix_head _ _ _ _ E).
    cbn [Re.word_of]. rewrite Hc. apply xorb_true_r. }
  assert (He : Re.at_boundary (Some (last_char c rest)) s'
               = negb (Re.word_of (hd_error s'))).
  { unfold Re.at_boundary. cbn [Re.word_of]. rewrite Hl. apply xorb_true_l. }
  rewrite Hb, He.
  destruct (Re.word_of prev), (Re.word_of (hd_error s')); reflexivity.
- destruct (Re.at_boundary prev s); reflexivity.
Qed.

(** For a keyword that begins and ends with a word character, the pattern
    [\b...\b] is found in a text exactly when the keyword occurs in it as a
    whole word. *)
Lemma skill_pattern_whole_word (c : ascii) (rest : string) (text : string) :
  Str.is_word c = true -> Str.is_word (last_char c rest) = true ->
  Re.search (skill_pattern (String c rest)) text
  = occurs_whole_word (String c rest) text.
Proof.
intros Hc Hl. unfold Re.search, occurs_whole_word.
cbn [list_ascii_of_string].
generalize (@None ascii). induction (list_ascii_of_string text) as [| a s IH];
  intros prev.
- cbn [Re.search_from occurs_from]. rewrite skill_pattern_at by assumption.
  reflexivity.
- cbn [Re.search_from occurs_from]. rewrite skill_pattern_at by assumption.
  rewrite IH. reflexivity.
Qed.

(** Every taxonomy keyword but "c++" and "c#" begins and ends with a word
    character; for those the code finds exactly the whole-word
    occurrences. *)
Lemma taxonomy_word_delimited :
  filter (fun skill => negb (word_delimited skill)) ALL_SKILLS = ["c++"; "c#"].
Proof. vm_compute. reflexivity. Qed.

Lemma extract_skills_pattern_agrees (skill text : string) :
  word_delimited skill = true ->
  Re.search (skill_pattern skill) text = occurs_whole_word skill text.
Proof.
destruct skill as [| c rest]; [discriminate|]. simpl.
rewrite andb_true_iff. intros [Hc Hl]. apply skill_pattern_whole_word; assumption.
Qed.

(** ** Concrete runs *)

Example demo_ranked_order :
  map (fun r => (Rank (snd r), candidate_name (columns (snd r)))) Demo.ranked
  = [(1, "alice"); (2, "bob"); (3, "carol")]%nat.
Proof. vm_compute. reflexivity. Qed.

Lemma demo_fit_transform_rows (documents : list string) (m : matrix) :
  Demo.fit_transform documents = Ok m ->
  List.length m = List.length documents.
Proof.
unfold Demo.fit_transform.
destruct (Demo.vocabulary documents); [discriminate|].
intros H. inversion H. apply length_map.
Qed.

(** The order of the ranked rows on the sample applicants: alice first, then
    bob and carol, who tie on both scores, in their input order. *)
Lemma rank_candidates_sorted_stable_witness :
  Demo.rank Demo.job Demo.applicants = Ok Demo.ranked
  /\ exists (unsorted : frame Row) (perm : list nat),
       results_frame Demo.strip_and_filter Demo.fit_transform Demo.sqrtQ
         Demo.job Demo.applicants = Ok unsorted
       /\ Permutation perm (seq 0 (List.length Demo.applicants))
       /\ List.length Demo.ranked = List.length perm
       /\ (forall k p r,
             nth_error perm k = Some p -> nth_error Demo.ranked k = Some r ->
             nth_error unsorted p = Some (p, columns (snd r))
             /\ exists resume, nth_error Demo.applicants p = Some resume
                  /\ candidate_name (columns (snd r)) = name resume)
       /\ (forall i j p_i p_j r_i r_j,
             (i < j)%nat ->
             nth_error perm i = Some p_i -> nth_error perm j = Some p_j ->
             nth_error Demo.ranked i = Some r_i ->
             nth_error Demo.ranked j = Some r_j ->
             similarity_score (columns (snd r_j)) < similarity_score (columns (snd r_i))
             \/ (similarity_score (columns (snd r_i))
                 == similarity_score (columns (snd r_j))
                 /\ quality_score (columns (snd r_j)) < quality_score (columns (snd r_i)))
             \/ (similarity_score (columns (snd r_i))
                 == similarity_score (columns (snd r_j))
                 /\ quality_score (columns (snd r_i))
                    == quality_score (columns (snd r_j))
                 /\ (p_i < p_j)%nat)).
Proof.
split; [vm_compute; reflexivity|].
apply (rank_candidates_sorted_stable Demo.strip_and_filter Demo.fit_transform
         Demo.sqrtQ Demo.job Demo.applicants Demo.ranked).
vm_compute. reflexivity.
Defined.

Lemma rank_candidates_ranks_witness :
  exists df : frame RankedRow,
    Demo.rank Demo.job Demo.applicants = Ok df
    /\ List.length df = 3%nat
    /\ map (fun r => Rank (snd r)) df = [1; 2; 3]%nat
    /\ map fst df = [0; 1; 2]%nat.
Proof.
apply (rank_candidates_ranks Demo.strip_and_filter Demo.fit_transform Demo.sqrtQ
         Demo.job Demo.applicants Demo.tfidf).
- discriminate.
- vm_compute. reflexivity.
- reflexivity.
Defined.

Lemma cosine_similarity_zero_vector_witness :
  exists (scores : vector) (s : Q),
    compute_cosine_similarity Demo.sqrtQ [[1; 2]] [[0; 0]; [3; 4]] = Ok scores
    /\ List.length scores = 2%nat
    /\ nth_error scores 0 = Some s
    /\ s == 0.
Proof.
apply (cosine_similarity_zero_vector Demo.sqrtQ [1; 2] [[0; 0]; [3; 4]] 0 [0; 0]).
- reflexivity.
- right. constructor; [reflexivity|]. constructor; [reflexivity|]. constructor.
Defined.

(** The vectoriser returns one row per document. *)
Lemma vectorizer_fit_transform_rows (documents : list string) (m : matrix) :
  Vectorizer.fit_transform documents = Ok m ->
  List.length m = List.length documents.
Proof.
unfold Vectorizer.fit_transform.
destruct (Str.sorted _); [discriminate|].
cbv zeta. rewrite normalize_ok. cbn [bind]. intros H. inversion H.
rewrite !length_map. reflexivity.
Qed.

(** The vectoriser raises nothing but ValueError. *)
Lemma vectorizer_fit_transform_raises (documents : list string) (e : exn) :
  Vectorizer.fit_transform documents = Raise e ->
  exists msg, e = ValueError msg.
Proof.
unfold Vectorizer.fit_transform.
destruct (Str.sorted _).
- intros H. inversion H. eexists. reflexivity.
- cbv zeta. rewrite normalize_ok. discriminate.
Qed.

Lemma rank_candidates_empty_raises_witness :
  exists msg : string,
    Vectorizer.rank "Senior Data Scientist" [] = Raise (ValueError msg)
    /\ (build_tfidf_matrix Vectorizer.fit_transform
          [clean_text Vectorizer.strip_and_filter "Senior Data Scientist"]
        = Raise (ValueError msg)
        \/ exists jd_vector : vector,
             build_tfidf_matrix Vectorizer.fit_transform
               [clean_text Vectorizer.strip_and_filter "Senior Data Scientist"]
             = Ok [jd_vector]
             /\ cosine_similarity Vectorizer.sqrt [jd_vector] (Some [])
                = Raise (ValueError msg)
             /\ msg = min_samples_message 0 (List.length jd_vector)).
Proof.
apply (rank_candidates_empty_raises Vectorizer.strip_and_filter
         Vectorizer.fit_transform Vectorizer.sqrt "Senior Data Scientist").
- exact vectorizer_fit_transform_rows.
- exact vectorizer_fit_transform_raises.
Defined.

Lemma detect_duplicates_rounds_before_comparing_witness :
  let resumes := Vectorizer.colleagues in
  let threshold := 9 # 10 in
  exists (sim_matrix : matrix) (dups : list DuplicatePair),
    cosine_similarity Vectorizer.sqrt Vectorizer.colleagues_tfidf None
    = Ok sim_matrix
    /\ Vectorizer.duplicates resumes threshold = Ok dups
    /\ (forall i j, (i < j)%nat -> (j < List.length resumes)%nat ->
          (In (pair_record (map name resumes) sim_matrix (i, j)) dups
           <-> threshold <= py_round (sim_at sim_matrix i j) 4))
    /\ (forall d, In d dups ->
          exists i j, (i < j)%nat /\ (j < List.length resumes)%nat
            /\ d = pair_record (map name resumes) sim_matrix (i, j)
            /\ similarity d = py_round (sim_at sim_matrix i j) 4
            /\ threshold <= similarity d)
    /\ (forall i j (k : Z), (i < j)%nat -> (j < List.length resumes)%nat ->
          threshold == inject_Z k / 10000 ->
          threshold - (5 # 100000) < sim_at sim_matrix i j ->
          sim_at sim_matrix i j < threshold ->
          py_round (sim_at sim_matrix i j) 4 == threshold
          /\ In (pair_record (map name resumes) sim_matrix (i, j)) dups).
Proof.
cbv zeta.
apply (proj1 (detect_duplicates_rounds_before_comparing
                Vectorizer.strip_and_filter Vectorizer.fit_transform
                Vectorizer.sqrt)
         Vectorizer.colleagues (9 # 10) Vectorizer.colleagues_tfidf).
- simpl. lia.
- vm_compute. reflexivity.
- reflexivity.
Defined.

Lemma detect_duplicates_pairs_witness :
  exists (sim_matrix : matrix) (pairs : list (nat * nat)),
    cosine_similarity Demo.sqrtQ Demo.applicants_tfidf None = Ok sim_matrix
    /\ NoDup pairs
    /\ (forall i j, In (i, j) pairs <->
          ((i < j)%nat /\ (j < 3)%nat
           /\ 9 # 10 <= py_round (sim_at sim_matrix i j) 4))
    /\ Demo.duplicates Demo.applicants (9 # 10)
       = Ok (map (pair_record (map name Demo.applicants) sim_matrix) pairs).
Proof.
apply (proj2 (detect_duplicates_pairs Demo.strip_and_filter Demo.fit_transform
                Demo.sqrtQ Demo.applicants (9 # 10)) Demo.applicants_tfidf).
- simpl. lia.
- vm_compute. reflexivity.
- reflexivity.
Defined.

Lemma analyze_resume_quality_score_witness :
  let r := analyze_resume_quality (text Demo.alice) in
  score r = py_round (weight_sum (sections_found (Str.lower (text Demo.alice))) / 10 * 10) 1
  /\ 0 <= score r <= 10
  /\ feedback r
     = map (fun c => feedback_for (section_name c))
           (sections_missing (Str.lower (text Demo.alice)))
  /\ List.length (feedback r)
     = List.length (sections_missing (Str.lower (text Demo.alice))).
Proof.
apply (proj2 (proj2 analyze_resume_quality_score) (text Demo.alice)).
discriminate.
Defined.

(** *** Inputs on which the specification and the code part *)

(** Two resume lists on which [rank_candidates] returns no rows at all: a
    resume with no text under an empty job description, and the empty
    list. *)
Lemma rank_candidates_raises_without_vocabulary :
  Demo.rank "" [Demo.dave]
  = Raise (ValueError
             "empty vocabulary; perhaps the documents only contain stop words")
  /\ is_ok (Demo.rank "" [Demo.dave]) = false
  /\ is_ok (Demo.rank "python developer" []) = false.
Proof. vm_compute. repeat split; reflexivity. Qed.

(** The empty resume list makes [rank_candidates] raise. With the job
    description "Senior Data Scientist" the vocabulary has five terms, three
    words and two word pairs, and [cosine_similarity] refuses the resume
    matrix of no rows and five columns; with an empty job description the
    vectoriser finds no term. *)
Lemma rank_candidates_empty_list_raises :
  Vectorizer.rank "Senior Data Scientist" []
  = Raise (ValueError
             "Found array with 0 sample(s) (shape=(0, 5)) while a minimum of 1 is required by check_pairwise_arrays.")
  /\ Vectorizer.rank "" []
     = Raise (ValueError
                "empty vocabulary; perhaps the documents only contain stop words").
Proof. split; vm_compute; reflexivity. Qed.

(** Two resume lists of two on which [detect_duplicates] does not return
    the pairs at or above the threshold. The similarity of dana and finn is
    0.554059..., below the threshold 0.5541, and the pair is reported all
    the same, with the rounded similarity. The texts of ivan and judy hold no
    token of two characters, so the vectoriser raises and nothing is
    returned. *)
Lemma detect_duplicates_reports_below_threshold :
  let resumes := [Demo.dana; Samples.finn] in
  let threshold := 5541 # 10000 in
  exists sim_matrix : matrix,
    Vectorizer.similarities resumes = Ok sim_matrix
    /\ 55405 # 100000 < sim_at sim_matrix 0 1
    /\ sim_at sim_matrix 0 1 < threshold
    /\ 0 <= threshold <= 1
    /\ Vectorizer.duplicates resumes threshold
       = Ok [ {| candidate_a := "dana"; candidate_b := "finn";
                 similarity := 5541 # 10000 |} ]
    /\ Vectorizer.duplicates [Samples.ivan; Samples.judy] threshold
       = Raise (ValueError
                  "empty vocabulary; perhaps the documents only contain stop words").
Proof.
cbv zeta. eexists. split; [vm_compute; reflexivity|].
split; [vm_compute; reflexivity|].
split; [vm_compute; reflexivity|].
split; [split; vm_compute; discriminate|].
split; vm_compute; reflexivity.
Qed.

(** The label for a score of 9 carries its marker; it is not the bare word. *)
Lemma get_quality_label_has_marker :
  get_quality_label 9 = "🌟 Excellent"
  /\ String.eqb (get_quality_label 9) "Excellent" = false.
Proof. vm_compute. split; reflexivity. Qed.

(** With [top_n = -1] the first two of three rows are returned, where a
    clamp to [0, 3] would return none. *)
Lemma get_top_recommendations_negative :
  List.length Demo.ranked = 3%nat
  /\ get_top_recommendations Demo.ranked (-1) = firstn 2 Demo.ranked
  /\ List.length (get_top_recommendations Demo.ranked (-1)) = 2%nat
  /\ firstn (Z.to_nat (Z.min (Z.max (-1) 0) 3)) Demo.ranked = [].
Proof. vm_compute. repeat split; reflexivity. Qed.

(** * Further properties *)

(** ** Skill extraction and letter case *)

Lemma lower_char_idem (c : ascii) :
  Str.lower_char (Str.lower_char c) = Str.lower_char c.
Proof.
destruct c as [[] [] [] [] [] [] [] []]; vm_compute; reflexivity.
Qed.

Lemma lower_idem (s : string) : Str.lower (Str.lower s) = Str.lower s.
Proof.
induction s as [| c s IH]; simpl; [reflexivity|].
rewrite lower_char_idem, IH. reflexivity.
Qed.

Lemma lower_empty (s : string) : Str.lower s = "" <-> s = "".
Proof.
destruct s; simpl; split; intros H; try reflexivity; discriminate.
Qed.

Lemma eqb_empty_lower (t1 t2 : string) :
  Str.lower t1 = Str.lower t2 -> String.eqb t1 "" = String.eqb t2 "".
Proof.
intros H.
destruct (String.eqb_spec t1 "") as [E1 | N1], (String.eqb_spec t2 "") as [E2 | N2];
  try reflexivity; exfalso.
- apply N2. apply lower_empty. rewrite <- H, E1. reflexivity.
- apply N1. apply lower_empty. rewrite H, E2. reflexivity.
Qed.

(** X1. What [extract_skills] returns is in alphabetical order and free of
    repeats; each member is the title-cased form of a taxonomy keyword whose
    pattern is found in the lowercased text, and each such keyword is
    represented; so the list is never longer than the taxonomy. The empty
    text gives the empty list. *)
Theorem extract_skills_result (text : string) :
  let out := extract_skills text in
  Sorted (fun a b => String.leb a b = true) out
  /\ NoDup out
  /\ (forall x, In x out ->
        exists skill, In skill ALL_SKILLS
          /\ Re.search (skill_pattern skill) (Str.lower text) = true
          /\ x = Str.title skill)
  /\ (forall skill, text <> "" -> In skill ALL_SKILLS ->
        Re.search (skill_pattern skill) (Str.lower text) = true ->
        In (Str.title skill) out)
  /\ (List.length out <= List.length ALL_SKILLS)%nat
  /\ extract_skills "" = [].
Proof.
cbv zeta.
destruct (extract_skills_sorted_members text) as [Hs [Hn Hm]].
split; [exact Hs|]. split; [exact Hn|]. split.
{ intros x Hx. destruct (String.eqb_spec text "") as [E | E].
  - subst. destruct Hx.
  - apply (Hm E). exact Hx. }
split.
{ intros skill E Hin Hfound. apply (Hm E). exists skill. repeat split; assumption. }
split; [|reflexivity].
unfold extract_skills. destruct (String.eqb text ""); [simpl; lia|].
rewrite <- (Permutation_length (sorted_perm _)).
rewrite found_skills_loop_spec, app_nil_l.
eapply Nat.le_trans.
- apply NoDup_incl_length; [apply NoDup_nodup|].
  intros x Hx. apply nodup_In in Hx. exact Hx.
- rewrite length_map. apply filter_length_le.
Qed.

(** X2. Matching ignores letter case: two texts that are equal once
    lowercased yield the same skills and the same quality assessment. *)
Theorem analysis_ignores_case (text1 text2 : string) :
  Str.lower text1 = Str.lower text2 ->
  extract_skills text1 = extract_skills text2
  /\ analyze_resume_quality text1 = analyze_resume_quality text2.
Proof.
intros H. unfold extract_skills, analyze_resume_quality.
rewrite (eqb_empty_lower _ _ H), H. split; reflexivity.
Qed.

(** X3. For every taxonomy keyword other than "c++" and "c#" the pattern
    that [extract_skills] builds is found in a text exactly when the keyword
    occurs there with no word character right before or right after it. *)
Theorem skill_pattern_is_whole_word (skill text : string) :
  In skill ALL_SKILLS -> skill <> "c++" -> skill <> "c#" ->
  Re.search (skill_pattern skill) text = occurs_whole_word skill text.
Proof.
intros Hin H1 H2. apply extract_skills_pattern_agrees.
destruct (word_delimited skill) eqn:E; [reflexivity|]. exfalso.
assert (Hf : In skill (filter (fun s => negb (word_delimited s)) ALL_SKILLS)).
{ apply filter_In. split; [exact Hin | rewrite E; reflexivity]. }
rewrite taxonomy_word_delimited in Hf.
destruct Hf as [Hf | [Hf | []]]; congruence.
Qed.

(** ** Skills by category *)

Lemma dict_set_fresh {V : Type} (d : list (string * V)) (key : string) (value : V) :
  ~ In key (map fst d) -> dict_set d key value = (d ++ [(key, value)])%list.
Proof.
induction d as [| [k v] d IH]; intros Hk; simpl; [reflexivity|].
destruct (String.eqb_spec k key) as [E | E].
- exfalso. apply Hk. left. exact E.
- rewrite IH; [reflexivity|]. intros H. apply Hk. right. exact H.
Qed.

Lemma nodup_fixed_NoDup (l : list string) : nodup string_dec l = l -> NoDup l.
Proof. intros H. rewrite <- H. apply NoDup_nodup. Qed.

Lemma SKILL_CATEGORIES_names : NoDup (map fst SKILL_CATEGORIES).
Proof. apply nodup_fixed_NoDup. vm_compute. reflexivity. Qed.

Lemma ALL_SKILLS_titles : NoDup (map Str.title ALL_SKILLS).
Proof. apply nodup_fixed_NoDup. vm_compute. reflexivity. Qed.

Lemma categorize_from (found_skills : list string)
    (cats acc : list (string * list string)) :
  NoDup (map fst cats) ->
  (forall k, In k (map fst acc) -> ~ In k (map fst cats)) ->
  fold_left (category_step found_skills) cats acc
  = (acc ++ flat_map (category_entry found_skills) cats)%list.
Proof.
revert acc. induction cats as [| [category skills] cats IH]; intros acc Hn Hd.
- simpl. rewrite app_nil_r. reflexivity.
- simpl in Hn. inversion Hn as [| ? ? Hfresh Hn']; subst.
  cbn [fold_left flat_map]. unfold category_step at 2, category_entry at 1.
  cbn [fst snd]. fold (matched_in found_skills skills).
  destruct (matched_in found_skills skills) as [| m ms] eqn:E.
  + apply IH; [exact Hn'|].
    intros k Hk Hin. apply (Hd k Hk). right. exact Hin.
  + rewrite dict_set_fresh.
    * rewrite IH; [rewrite <- app_assoc; reflexivity | exact Hn' |].
      intros k Hk Hin. rewrite map_app in Hk. apply in_app_or in Hk.
      destruct Hk as [Hk | [Hk | []]].
      -- apply (Hd k Hk). right. exact Hin.
      -- simpl in Hk. subst k. contradiction.
    * intros Hin. apply (Hd _ Hin). left. reflexivity.
Qed.

Lemma get_skills_by_category_closed (found_skills : list string) :
  get_skills_by_category found_skills
  = flat_map (category_entry found_skills) SKILL_CATEGORIES.
Proof.
unfold get_skills_by_category.
rewrite categorize_from; [reflexivity | exact SKILL_CATEGORIES_names |].
intros k [].
Qed.

Lemma category_entry_skills (found_skills : list string)
    (item : string * list string) :
  flat_map snd (category_entry found_skills item)
  = matched_in found_skills (snd item).
Proof.
unfold category_entry.
destruct (matched_in found_skills (snd item)) as [| m ms]; [reflexivity|].
cbn [flat_map snd]. apply app_nil_r.
Qed.

Lemma matched_in_app (found_skills a b : list string) :
  matched_in found_skills (a ++ b)
  = (matched_in found_skills a ++ matched_in found_skills b)%list.
Proof. unfold matched_in. rewrite filter_app, map_app. reflexivity. Qed.

Lemma flat_map_category_entries (found_skills : list string)
    (cats : list (string * list string)) :
  flat_map snd (flat_map (category_entry found_skills) cats)
  = matched_in found_skills (flat_map snd cats).
Proof.
induction cats as [| item cats IH]; [reflexivity|].
cbn [flat_map]. rewrite flat_map_app, IH, matched_in_app, category_entry_skills.
reflexivity.
Qed.

Lemma kept_titles_NoDup {A B : Type} (title : A -> B) (kept : A -> bool) :
  forall skills : list A,
    NoDup (map title skills) -> NoDup (map title (filter kept skills)).
Proof.
intros skills. induction skills as [| s rest IH]; cbn [map filter]; intros H.
- constructor.
- apply NoDup_cons_iff in H. destruct H as [Hs Hrest].
  destruct (kept s); cbn [map]; [|exact (IH Hrest)].
  apply NoDup_cons; [|exact (IH Hrest)].
  rewrite in_map_iff. intros [y [E Hy]]. apply filter_In in Hy.
  apply Hs. rewrite in_map_iff. exists y. split; [exact E | apply Hy].
Qed.

Lemma str_in_In (x : string) (l : list string) : str_in x l = true <-> In x l.
Proof.
unfold str_in. rewrite existsb_exists. split.
- intros [y [Hy E]]. apply String.eqb_eq in E. subst. exact Hy.
- intros H. exists x. split; [exact H | apply String.eqb_refl].
Qed.

(** X4. Grouping the skills that [extract_skills] found loses and invents
    nothing: the skills listed over all categories are, up to order, exactly
    the extracted skills, each of them once; no category is listed with an
    empty list, no category twice, and each listed category holds the
    title-cased keywords of that taxonomy category that were found. *)
Theorem get_skills_by_category_partition (text : string) :
  let found_skills := extract_skills text in
  let categorized := get_skills_by_category found_skills in
  Permutation (flat_map snd categorized) found_skills
  /\ Forall (fun entry => snd entry <> []) categorized
  /\ NoDup (map fst categorized)
  /\ (forall category listed, In (category, listed) categorized ->
        exists skills, In (category, skills) SKILL_CATEGORIES
          /\ listed = map Str.title
                        (filter (fun s => str_in (Str.title s) found_skills)
                                skills)).
Proof.
cbv zeta. rewrite get_skills_by_category_closed.
set (found := extract_skills text).
assert (Hentry : forall category listed,
          In (category, listed) (flat_map (category_entry found) SKILL_CATEGORIES) ->
          exists skills, In (category, skills) SKILL_CATEGORIES
            /\ listed = matched_in found skills /\ listed <> []).
{ intros category listed Hin. apply in_flat_map in Hin.
  destruct Hin as [[c skills] [Hc Hin]]. unfold category_entry in Hin.
  cbn [fst snd] in Hin.
  destruct (matched_in found skills) as [| m ms] eqn:E; [destruct Hin|].
  destruct Hin as [Hin | []]. inversion Hin; subst.
  exists skills. repeat split; [exact Hc | congruence | discriminate]. }
split.
{ rewrite flat_map_category_entries. fold ALL_SKILLS.
  destruct (extract_skills_sorted_members text) as [_ [Hnd Hmem]].
  apply NoDup_Permutation.
  - unfold matched_in. apply kept_titles_NoDup. exact ALL_SKILLS_titles.
  - exact Hnd.
  - intros x. unfold matched_in. rewrite in_map_iff. split.
    + intros [s [E Hs]]. apply filter_In in Hs. destruct Hs as [_ Hs].
      apply str_in_In in Hs. subst x. exact Hs.
    + intros Hx. destruct (String.eqb_spec text "") as [Et | Et].
      * unfold found, extract_skills in Hx. subst text. destruct Hx.
      * destruct (proj1 (Hmem Et x) Hx) as [skill [Hin [_ E]]].
        exists skill. split; [symmetry; exact E|].
        apply filter_In. split; [exact Hin|].
        apply str_in_In. rewrite <- E. exact Hx. }
split.
{ apply Forall_forall. intros [category listed] Hin.
  destruct (Hentry _ _ Hin) as [_ [_ [_ Hne]]]. exact Hne. }
split.
{ assert (G : forall cats, NoDup (map fst cats) ->
            NoDup (map fst (flat_map (category_entry found) cats))
            /\ incl (map fst (flat_map (category_entry found) cats)) (map fst cats)).
  { induction cats as [| [c skills] cats IH]; intros Hn.
    - split; [constructor | intros x []].
    - simpl in Hn. inversion Hn as [| ? ? Hc Hn']; subst.
      destruct (IH Hn') as [IH1 IH2]. cbn [flat_map].
      unfold category_entry at 1 3. cbn [fst snd].
      destruct (matched_in found skills) as [| m ms].
      + split; [exact IH1|]. intros x Hx. right. apply IH2. exact Hx.
      + cbn [app map fst]. split.
        * constructor; [|exact IH1]. intros Hin. apply Hc. apply IH2. exact Hin.
        * intros x [Hx | Hx]; [left; exact Hx | right; apply IH2; exact Hx]. }
  apply G. exact SKILL_CATEGORIES_names. }
intros category listed Hin.
destruct (Hentry _ _ Hin) as [skills [H1 [H2 _]]].
exists skills. split; [exact H1 | exact H2].
Qed.

(** ** The quality breakdown *)

Lemma QUALITY_CHECKS_names : NoDup (map section_name QUALITY_CHECKS).
Proof. apply nodup_fixed_NoDup. vm_compute. reflexivity. Qed.

Lemma quality_loop_breakdown (checks : list QualityCheck) (tl : string)
    (acc : QualityAcc) :
  NoDup (map section_name checks) ->
  (forall k, In k (map fst (acc_breakdown acc)) ->
             ~ In k (map section_name checks)) ->
  acc_breakdown (quality_loop checks tl acc)
  = (acc_breakdown acc ++ map (breakdown_entry tl) checks)%list.
Proof.
revert acc. induction checks as [| c checks IH]; intros acc Hn Hd.
- simpl. rewrite app_nil_r. reflexivity.
- simpl in Hn. inversion Hn as [| ? ? Hc Hn']; subst.
  change (quality_loop (c :: checks) tl acc)
    with (quality_loop checks tl (quality_step tl acc c)).
  rewrite IH; [| exact Hn' |].
  + unfold quality_step. cbn [acc_breakdown].
    rewrite dict_set_fresh.
    * rewrite <- app_assoc. reflexivity.
    * intros Hin. apply (Hd _ Hin). left. reflexivity.
  + unfold quality_step. cbn [acc_breakdown].
    rewrite dict_set_fresh by (intros Hin; apply (Hd _ Hin); left; reflexivity).
    intros k Hk Hin. rewrite map_app in Hk. apply in_app_or in Hk.
    destruct Hk as [Hk | [Hk | []]].
    * apply (Hd k Hk). right. exact Hin.
    * simpl in Hk. subst k. contradiction.
Qed.

Lemma filter_split_length {A : Type} (f : A -> bool) (l : list A) :
  (List.length (filter (fun x => negb (f x)) l) + List.length (filter f l)
   = List.length l)%nat.
Proof.
induction l as [| x l IH]; [reflexivity|].
simpl. destruct (f x); simpl; lia.
Qed.

(** X5. For a non-empty text the breakdown of [analyze_resume_quality] has
    one entry per checklist section, in checklist order, each with the
    section's weight and with [found] telling whether one of its patterns
    matches the lowercased text; the feedback entries are as many as the
    breakdown entries that are not found. For the empty text the breakdown
    is empty. *)
Theorem analyze_resume_quality_breakdown :
  breakdown (analyze_resume_quality "") = []
  /\ forall text : string,
       text <> "" ->
       let r := analyze_resume_quality text in
       breakdown r = map (breakdown_entry (Str.lower text)) QUALITY_CHECKS
       /\ map fst (breakdown r) = map section_name QUALITY_CHECKS
       /\ List.length (feedback r)
          = List.length (filter (fun e => negb (found (snd e))) (breakdown r))
       /\ (List.length (feedback r)
           + List.length (filter (fun e => found (snd e)) (breakdown r))
           = List.length QUALITY_CHECKS)%nat.
Proof.
split; [reflexivity|]. intros text Hne. cbv zeta.
assert (Hb : breakdown (analyze_resume_quality text)
             = map (breakdown_entry (Str.lower text)) QUALITY_CHECKS).
{ unfold analyze_resume_quality.
  destruct (String.eqb_spec text ""); [contradiction|].
  cbn [breakdown]. rewrite quality_loop_breakdown.
  - reflexivity.
  - exact QUALITY_CHECKS_names.
  - intros k []. }
assert (Hf : feedback (analyze_resume_quality text)
             = map (fun c => feedback_for (section_name c))
                   (sections_missing (Str.lower text))).
{ unfold analyze_resume_quality.
  destruct (String.eqb_spec text ""); [contradiction|].
  cbn [feedback]. rewrite quality_loop_feedback. reflexivity. }
rewrite Hb, Hf. clear Hb Hf. unfold sections_missing.
generalize QUALITY_CHECKS. intros checks.
split; [reflexivity|]. split.
{ rewrite map_map. reflexivity. }
rewrite !length_map.
assert (G : forall p : BreakdownEntry -> bool,
          List.length (filter (fun e => p (snd e))
                              (map (breakdown_entry (Str.lower text)) checks))
          = List.length (filter (fun c => p (snd (breakdown_entry (Str.lower text) c)))
                                checks)).
{ intros p. induction checks as [| c checks IH]; [reflexivity|].
  simpl. destruct (p _); simpl; rewrite IH; reflexivity. }
split.
- rewrite (G (fun e => negb (found e))). reflexivity.
- rewrite (G found). cbn [breakdown_entry snd found].
  apply filter_split_length.
Qed.

(** ** The quality score as a whole number *)

Lemma round_half_even_Z (z : Z) : round_half_even (inject_Z z) = z.
Proof.
unfold round_half_even. rewrite Qfloor_Z.
destruct (Qcompare_spec (inject_Z z - inject_Z z) (1 # 2)) as [E | L | G].
- exfalso. lra.
- reflexivity.
- exfalso. lra.
Qed.

Lemma py_round_whole (x : Q) (z : Z) (n : nat) :
  x == inject_Z z -> py_round x n == inject_Z z.
Proof.
intros E. rewrite (py_round_compat _ _ n E). unfold py_round.
set (p := (10 ^ Z.of_nat n)%Z).
assert (Hp : (0 < p)%Z) by (apply Z.pow_pos_nonneg; lia).
rewrite Qred_correct.
rewrite (round_half_even_compat _ (inject_Z (z * p)))
  by (rewrite inject_Z_mult; reflexivity).
rewrite round_half_even_Z, inject_Z_mult.
assert (Hq : 0 < inject_Z p)
  by (change 0 with (inject_Z 0); rewrite <- Zlt_Qlt; exact Hp).
field. lra.
Qed.

Lemma weight_sum_split (f : QualityCheck -> bool) (checks : list QualityCheck) :
  weight_sum checks
  == weight_sum (filter f checks)
     + weight_sum (filter (fun c => negb (f c)) checks).
Proof.
induction checks as [| c checks IH]; simpl; [lra|].
destruct (f c); simpl; lra.
Qed.

Lemma weight_sum_whole (checks : list QualityCheck) :
  Forall (fun c => exists z, (0 < z)%Z /\ weight c = inject_Z z) checks ->
  exists z, (0 <= z)%Z /\ weight_sum checks == inject_Z z
            /\ (z = 0%Z <-> checks = []).
Proof.
induction 1 as [| c checks [w [Hw Ew]] _ [z [Hz [Ez Hiff]]]].
- exists 0%Z. split; [lia|]. split; [reflexivity | tauto].
- exists (w + z)%Z. split; [lia|]. split.
  + simpl. rewrite Ew, Ez, inject_Z_plus. reflexivity.
  + split; [lia | discriminate].
Qed.

Lemma QUALITY_CHECKS_whole :
  Forall (fun c => exists z, (0 < z)%Z /\ weight c = inject_Z z) QUALITY_CHECKS.
Proof.
repeat constructor;
  first [ exists 2%Z; split; [lia | reflexivity]
        | exists 1%Z; split; [lia | reflexivity] ].
Qed.

Lemma Forall_filter_keep {A : Type} (P : A -> Prop) (f : A -> bool) (l : list A) :
  Forall P l -> Forall P (filter f l).
Proof.
intros H. apply Forall_forall. intros x Hx. apply filter_In in Hx.
rewrite Forall_forall in H. apply H. tauto.
Qed.

(** X6. The rounding in [analyze_resume_quality] never changes the value:
    for a non-empty text the score is exactly the summed weight of the
    sections found, a whole number from 0 to 10; it is 10 exactly when there
    is no feedback, and 0 exactly when no section is found. *)
Theorem analyze_resume_quality_whole_score (text : string) :
  text <> "" ->
  let r := analyze_resume_quality text in
  score r == weight_sum (sections_found (Str.lower text))
  /\ (exists z : Z, (0 <= z <= 10)%Z /\ score r == inject_Z z)
  /\ (score r == 10 <-> feedback r = [])
  /\ (score r == 0 <-> sections_found (Str.lower text) = []).
Proof.
intros Hne. cbv zeta.
destruct (weight_sum_whole (sections_found (Str.lower text))
            (Forall_filter_keep _ _ _ QUALITY_CHECKS_whole)) as [zf [Hzf [Ezf Hf0]]].
destruct (weight_sum_whole (sections_missing (Str.lower text))
            (Forall_filter_keep _ _ _ QUALITY_CHECKS_whole)) as [zm [Hzm [Ezm Hm0]]].
assert (Hsplit : inject_Z zf + inject_Z zm == 10).
{ rewrite <- Ezf, <- Ezm. unfold sections_found, sections_missing.
  rewrite <- weight_sum_split. vm_compute. reflexivity. }
assert (Hsum : (zf + zm = 10)%Z).
{ rewrite <- inject_Z_plus in Hsplit. change 10 with (inject_Z 10) in Hsplit.
  apply (proj1 (inject_Z_injective _ _)) in Hsplit. exact Hsplit. }
assert (Hscore : score (analyze_resume_quality text) == inject_Z zf).
{ unfold analyze_resume_quality.
  destruct (String.eqb_spec text ""); [contradiction|].
  cbn [score]. apply py_round_whole.
  rewrite quality_loop_earned, QUALITY_CHECKS_total. cbn [earned_score].
  change (filter (section_found (Str.lower text)) QUALITY_CHECKS)
    with (sections_found (Str.lower text)).
  rewrite Ezf. field. }
assert (Hfeed : feedback (analyze_resume_quality text)
                = map (fun c => feedback_for (section_name c)) (sections_missing (Str.lower text))).
{ unfold analyze_resume_quality.
  destruct (String.eqb_spec text ""); [contradiction|].
  cbn [feedback]. rewrite quality_loop_feedback. reflexivity. }
split; [rewrite Hscore, Ezf; reflexivity|].
split; [exists zf; split; [lia | exact Hscore]|].
split.
- rewrite Hscore, Hfeed. change 10 with (inject_Z 10). split.
  + intros E. apply (proj1 (inject_Z_injective _ _)) in E.
    assert (zm = 0%Z) by lia. apply Hm0 in H. rewrite H. reflexivity.
  + intros E. apply map_eq_nil in E. apply Hm0 in E.
    assert (zf = 10%Z) by lia. subst zf. reflexivity.
- rewrite Hscore. change 0 with (inject_Z 0). split.
  + intros E. apply (proj1 (inject_Z_injective _ _)) in E. apply Hf0. exact E.
  + intros E. apply Hf0 in E. rewrite E. reflexivity.
Qed.

(** ** The rows of the ranking *)

Lemma py_round_idem (x : Q) (n : nat) : py_round (py_round x n) n = py_round x n.
Proof.
assert (E : py_round x n
            == inject_Z (round_half_even (x * inject_Z (10 ^ Z.of_nat n)))
               / inject_Z (10 ^ Z.of_nat n)).
{ unfold py_round. apply Qred_correct. }
rewrite (py_round_compat _ _ n E). unfold py_round at 1.
set (p := (10 ^ Z.of_nat n)%Z).
set (z := round_half_even (x * inject_Z p)).
assert (Hp : (0 < p)%Z) by (apply Z.pow_pos_nonneg; lia).
assert (Hq : 0 < inject_Z p)
  by (change 0 with (inject_Z 0); rewrite <- Zlt_Qlt; exact Hp).
rewrite (round_half_even_compat _ (inject_Z z)) by (field; lra).
rewrite round_half_even_Z. reflexivity.
Qed.

Lemma zip_columns_rows (resumes : list Resume) (sims : vector) :
  zip_columns (map name resumes) sims
    (map (fun skills => match skills with
                        | [] => "None detected"
                        | _ :: _ => Str.join ", " skills
                        end)
         (map extract_skills (map text resumes)))
    (map (@List.length string) (map extract_skills (map text resumes)))
    (map score (map analyze_resume_quality (map text resumes)))
    (map (fun r => get_quality_label (score r))
         (map analyze_resume_quality (map text resumes)))
    (map extract_skills (map text resumes))
    (map analyze_resume_quality (map text resumes))
  = map (fun p => row_of (fst p) (snd p)) (combine resumes sims).
Proof.
revert sims. induction resumes as [| r resumes IH]; intros sims; [reflexivity|].
destruct sims as [| s sims]; [reflexivity|].
cbn [map zip_columns combine]. rewrite IH. reflexivity.
Qed.

Lemma insert_rank_columns (df : frame Row) :
  map (fun r => columns (snd r)) (insert_rank df) = map snd df.
Proof.
apply nth_error_ext. intros k. rewrite !nth_error_map.
destruct (nth_error (insert_rank df) k) as [r |] eqn:E.
- apply insert_rank_nth in E. destruct E as [p [Hp [_ [_ Hc]]]].
  rewrite Hp. simpl. rewrite Hc. reflexivity.
- destruct (nth_error df k) as [p |] eqn:E2; [|reflexivity].
  exfalso. apply nth_error_None in E. rewrite insert_rank_length in E.
  assert (k < List.length df)%nat by (apply nth_error_Some; congruence).
  lia.
Qed.

Lemma labelled_rows {A : Type} (rows : list A) : map snd (labelled rows) = rows.
Proof.
unfold labelled. generalize 0%nat.
induction rows as [| r rows IH]; intros s; simpl; [reflexivity|].
rewrite IH. reflexivity.
Qed.

Lemma firstn_of_seq (n start len : nat) :
  firstn n (seq start len) = seq start (Nat.min n len).
Proof.
revert start len. induction n as [| n IH]; intros start len; [reflexivity|].
destruct len as [| len]; [reflexivity|].
simpl. rewrite IH. reflexivity.
Qed.

Section RankingFacts.

Variable strip_and_filter : string -> string.
Variable fit_transform : list string -> result matrix.
Variable sqrtQ : Q -> Q.

(** The rows of a returned ranking are, up to order, the rows built from
    the resumes and their rounded scores. *)
Lemma rank_candidates_rows (job_description : string) (resumes : list Resume)
    (df : frame RankedRow) :
  rank_candidates strip_and_filter fit_transform sqrtQ job_description resumes
  = Ok df ->
  exists scores : vector,
    List.length scores = List.length resumes
    /\ Permutation (map (fun r => columns (snd r)) df)
                   (map (fun p => row_of (fst p) (snd p))
                        (combine resumes (np_round scores 4)))
    /\ map (fun r => Rank (snd r)) df = seq 1 (List.length resumes)
    /\ List.length df = List.length resumes.
Proof.
unfold rank_candidates, results_frame.
destruct (build_tfidf_matrix fit_transform _) as [tfidf | e]; [|discriminate].
cbn [bind].
destruct (compute_cosine_similarity sqrtQ _ _) as [scores | e]; [|discriminate].
cbn [bind]. unfold DataFrame.
match goal with |- context [forallb ?f ?l] => destruct (forallb f l) eqn:Hlen end;
  [|discriminate].
cbn [bind]. intros H. inversion H; subst df; clear H.
assert (Hs : List.length scores = List.length resumes).
{ cbn [forallb] in Hlen. apply andb_true_iff in Hlen. destruct Hlen as [Hlen _].
  apply Nat.eqb_eq in Hlen. unfold np_round in Hlen.
  rewrite !length_map in Hlen. symmetry. exact Hlen. }
rewrite zip_columns_rows.
set (rows := map (fun p => row_of (fst p) (snd p))
                 (combine resumes (np_round scores 4))).
assert (Hrows : List.length rows = List.length resumes).
{ unfold rows, np_round. rewrite length_map, length_combine, length_map. lia. }
exists scores. split; [exact Hs|]. split.
{ rewrite insert_rank_columns. unfold reset_index. rewrite labelled_rows.
  apply Permutation_trans with (map snd (labelled rows)).
  - apply Permutation_map, Permutation_sym, sort_values_perm.
  - rewrite labelled_rows. apply Permutation_refl. }
assert (L : List.length (reset_index (sort_values (labelled rows)))
            = List.length resumes).
{ unfold reset_index.
  rewrite labelled_length, length_map, sort_values_length, labelled_length.
  exact Hrows. }
split; [rewrite insert_rank_ranks, L; reflexivity|].
rewrite insert_rank_length. exact L.
Qed.

(** X7. In every row that [rank_candidates] returns the columns agree with
    one another and with the resume they come from: the skill count is the
    length of the skill list, the displayed skills are the list joined with
    ", " or "None detected" for an empty list, the quality label is the
    label of the quality score, the quality detail carries that score, and
    the similarity score has at most four decimals. *)
Theorem rank_candidates_row_columns (job_description : string)
    (resumes : list Resume) (df : frame RankedRow) (r : nat * RankedRow) :
  rank_candidates strip_and_filter fit_transform sqrtQ job_description resumes
  = Ok df ->
  In r df ->
  let row := columns (snd r) in
  skill_count row = List.length (skills_list row)
  /\ extracted_skills row
     = match skills_list row with
       | [] => "None detected"
       | _ :: _ => Str.join ", " (skills_list row)
       end
  /\ quality_label row = get_quality_label (quality_score row)
  /\ score (quality_detail row) = quality_score row
  /\ py_round (similarity_score row) 4 = similarity_score row
  /\ exists resume, In resume resumes
       /\ candidate_name row = name resume
       /\ skills_list row = extract_skills (text resume)
       /\ quality_detail row = analyze_resume_quality (text resume).
Proof.
intros Hrun Hr. cbv zeta.
destruct (rank_candidates_rows _ _ _ Hrun) as [scores [_ [Hperm _]]].
assert (Hin : In (columns (snd r))
                 (map (fun p => row_of (fst p) (snd p))
                      (combine resumes (np_round scores 4)))).
{ apply (Permutation_in _ Hperm). apply in_map_iff. exists r. tauto. }
apply in_map_iff in Hin. destruct Hin as [[resume s] [E Hin]].
cbn [fst snd] in E. rewrite <- E. unfold row_of. cbn.
repeat split.
- pose proof (in_combine_r _ _ _ _ Hin) as Hs. unfold np_round in Hs.
  apply in_map_iff in Hs. destruct Hs as [x [Hx _]]. subst s.
  apply py_round_idem.
- exists resume. repeat split. apply (in_combine_l _ _ _ _ Hin).
Qed.

Lemma map_fst_combine {A B : Type} (l : list A) (l' : list B) :
  List.length l = List.length l' -> map fst (combine l l') = l.
Proof.
revert l'. induction l as [| x l IH]; intros l' H; [reflexivity|].
destruct l' as [| y l']; [discriminate|].
simpl. rewrite IH; [reflexivity|]. simpl in H. lia.
Qed.

(** X8. [rank_candidates] neither loses nor repeats a candidate: the
    candidate names of the returned rows are, up to order, the names of the
    input resumes, duplicates included. *)
Theorem rank_candidates_keeps_candidates (job_description : string)
    (resumes : list Resume) (df : frame RankedRow) :
  rank_candidates strip_and_filter fit_transform sqrtQ job_description resumes
  = Ok df ->
  Permutation (map (fun r => candidate_name (columns (snd r))) df)
              (map name resumes).
Proof.
intros Hrun.
destruct (rank_candidates_rows _ _ _ Hrun) as [scores [Hs [Hperm _]]].
apply (Permutation_map candidate_name) in Hperm.
rewrite !map_map in Hperm. cbn [row_of candidate_name] in Hperm.
rewrite <- (map_map fst name) in Hperm.
rewrite map_fst_combine in Hperm.
- exact Hperm.
- unfold np_round. rewrite length_map. symmetry. exact Hs.
Qed.

(** X9. The recommendations taken from a ranking are its best-ranked rows:
    for [top_n >= 0], [get_top_recommendations] applied to the result of
    [rank_candidates] on [N] resumes returns the rows ranked 1, 2, ...,
    [min(top_n, N)], in that order. *)
Theorem top_recommendations_of_ranking (job_description : string)
    (resumes : list Resume) (df : frame RankedRow) (top_n : Z) :
  rank_candidates strip_and_filter fit_transform sqrtQ job_description resumes
  = Ok df ->
  (0 <= top_n)%Z ->
  map (fun r => Rank (snd r)) (get_top_recommendations df top_n)
  = seq 1 (Nat.min (Z.to_nat top_n) (List.length resumes)).
Proof.
intros Hrun Hn.
destruct (rank_candidates_rows _ _ _ Hrun) as [_ [_ [_ [Hranks _]]]].
unfold get_top_recommendations, head.
destruct (Z.leb_spec 0 top_n); [|lia].
rewrite <- firstn_map, Hranks. apply firstn_of_seq.
Qed.

End RankingFacts.

(** ** More on duplicate detection *)

Lemma filter_map_swap {A B : Type} (f : A -> B) (p : B -> bool) (l : list A) :
  filter p (map f l) = map f (filter (fun x => p (f x)) l).
Proof.
induction l as [| x l IH]; [reflexivity|].
simpl. destruct (p (f x)); simpl; rewrite IH; reflexivity.
Qed.

Lemma filter_filter_implied {A : Type} (p q : A -> bool) (l : list A) :
  (forall x, q x = true -> p x = true) ->
  filter q (filter p l) = filter q l.
Proof.
intros H. induction l as [| x l IH]; [reflexivity|].
simpl. destruct (p x) eqn:Ep; simpl.
- rewrite IH. reflexivity.
- destruct (q x) eqn:Eq; [|exact IH].
  apply H in Eq. congruence.
Qed.

Lemma dot_comm (a b : vector) : dot a b == dot b a.
Proof.
unfold dot. revert b. induction a as [| x a IH]; intros b.
- destruct b; reflexivity.
- destruct b as [| y b]; [reflexivity|].
  simpl. rewrite IH. ring.
Qed.

Lemma dot_scaled (a b : vector) (d : Q) :
  ~ d == 0 ->
  dot (map (fun v => v / d) a) (map (fun v => v / d) b) == dot a b / (d * d).
Proof.
intros Hd. unfold dot. revert b. induction a as [| x a IH]; intros b.
- simpl. field. exact Hd.
- destruct b as [| y b].
  + simpl. field. exact Hd.
  + simpl. rewrite IH. field. exact Hd.
Qed.

Lemma nth_map_in_range {A B : Type} (f : A -> B) (l : list A) (i : nat)
    (d : B) (x : A) :
  nth_error l i = Some x -> nth i (map f l) d = f x.
Proof.
intros H. apply nth_error_nth. rewrite nth_error_map, H. reflexivity.
Qed.

Section DuplicateMore.

Variable strip_and_filter : string -> string.
Variable fit_transform : list string -> result matrix.
Variable sqrtQ : Q -> Q.

Lemma cosine_self_entry (X sim : matrix) (i j : nat) (x y : vector) :
  cosine_similarity sqrtQ X None = Ok sim ->
  nth_error X i = Some x -> nth_error X j = Some y ->
  sim_at sim i j = dot (normalized sqrtQ x) (normalized sqrtQ y).
Proof.
intros Hsim Hx Hy.
assert (Hne : X <> []) by (intros E; subst; destruct i; discriminate).
rewrite (cosine_similarity_self_ok sqrtQ X Hne) in Hsim.
inversion Hsim; subst sim. unfold sim_at, matrix, vector in *.
rewrite (nth_map_in_range _ X i [] x Hx).
exact (nth_map_in_range
         (fun b => dot (normalized sqrtQ x) (normalized sqrtQ b)) X j 0 y Hy).
Qed.

(** X10. Raising the threshold only filters the report: when
    [detect_duplicates] returns for two thresholds [low <= high], the
    records reported at [high] are exactly the records reported at [low]
    whose similarity is at least [high], in the same order. *)
Theorem detect_duplicates_threshold_filters (resumes : list Resume)
    (low high : Q) (at_low at_high : list DuplicatePair) :
  low <= high ->
  detect_duplicates strip_and_filter fit_transform sqrtQ resumes low = Ok at_low ->
  detect_duplicates strip_and_filter fit_transform sqrtQ resumes high = Ok at_high ->
  at_high = filter (fun d => Qle_bool high (similarity d)) at_low.
Proof.
intros Hle Hlow Hhigh.
destruct (Nat.lt_ge_cases (List.length resumes) 2) as [Hn | Hn].
- rewrite (detect_duplicates_few _ _ _ _ low Hn) in Hlow.
  rewrite (detect_duplicates_few _ _ _ _ high Hn) in Hhigh.
  inversion Hlow; inversion Hhigh; subst. reflexivity.
- destruct (detect_duplicates_unfold _ _ _ _ _ _ Hn Hlow)
    as [tfidf [sim [Hfit [Hsim Elow]]]].
  destruct (detect_duplicates_unfold _ _ _ _ _ _ Hn Hhigh)
    as [tfidf' [sim' [Hfit' [Hsim' Ehigh]]]].
  rewrite Hfit in Hfit'. inversion Hfit'; subst tfidf'.
  rewrite Hsim in Hsim'. inversion Hsim'; subst sim'.
  subst at_low at_high. rewrite filter_map_swap. f_equal.
  symmetry. apply filter_filter_implied.
  intros ij. unfold reported, pair_record. cbn [similarity fst snd].
  rewrite !Qle_bool_iff. intros H. lra.
Qed.

(** X11. The pairwise test does not depend on the direction of a pair: on
    the matrix that [cosine_similarity] returns for the resumes, entry
    [(i, j)] equals entry [(j, i)], so the rounded similarity and the
    outcome of the threshold test are the same for [(i, j)] and [(j, i)];
    scanning only [i < j] leaves out no pair that the reverse direction
    would report. *)
Theorem duplicate_test_symmetric (tfidf_matrix sim_matrix : matrix)
    (names : list string) (threshold : Q) (i j : nat) :
  cosine_similarity sqrtQ tfidf_matrix None = Ok sim_matrix ->
  (i < List.length tfidf_matrix)%nat ->
  (j < List.length tfidf_matrix)%nat ->
  sim_at sim_matrix i j == sim_at sim_matrix j i
  /\ similarity (pair_record names sim_matrix (i, j))
     = similarity (pair_record names sim_matrix (j, i))
  /\ reported sim_matrix threshold (i, j) = reported sim_matrix threshold (j, i).
Proof.
intros Hsim Hi Hj.
destruct (nth_error tfidf_matrix i) as [x |] eqn:Ex;
  [| apply nth_error_None in Ex; lia].
destruct (nth_error tfidf_matrix j) as [y |] eqn:Ey;
  [| apply nth_error_None in Ey; lia].
assert (E : sim_at sim_matrix i j == sim_at sim_matrix j i).
{ rewrite (cosine_self_entry _ _ _ _ _ _ Hsim Ex Ey).
  rewrite (cosine_self_entry _ _ _ _ _ _ Hsim Ey Ex). apply dot_comm. }
split; [exact E|].
unfold pair_record, reported. cbn [similarity fst snd].
rewrite (py_round_compat _ _ 4 E). split; reflexivity.
Qed.

(** X12. Two resumes with the same non-zero document vector are reported as
    duplicates with similarity 1 at every threshold up to 1, provided the
    square root is exact on the squared norm of that vector. *)
Theorem detect_duplicates_identical_vectors (resumes : list Resume)
    (threshold : Q) (tfidf_matrix : matrix) (i j : nat) (x : vector) :
  build_tfidf_matrix fit_transform
    (map (fun r => clean_text strip_and_filter (text r)) resumes)
  = Ok tfidf_matrix ->
  List.length tfidf_matrix = List.length resumes ->
  (i < j)%nat ->
  nth_error tfidf_matrix i = Some x ->
  nth_error tfidf_matrix j = Some x ->
  ~ dot x x == 0 ->
  sqrtQ (dot x x) * sqrtQ (dot x x) == dot x x ->
  threshold <= 1 ->
  exists dups,
    detect_duplicates strip_and_filter fit_transform sqrtQ resumes threshold
    = Ok dups
    /\ In {| candidate_a := name_at (map name resumes) i;
             candidate_b := name_at (map name resumes) j;
             similarity := 1 |} dups.
Proof.
intros Hfit Hshape Hij Hi Hj Hnz Hsq Hthr.
assert (Hjn : (j < List.length resumes)%nat).
{ rewrite <- Hshape. apply nth_error_Some. congruence. }
assert (Hne : tfidf_matrix <> []) by (intros E; subst; destruct i; discriminate).
pose proof (cosine_similarity_self_ok sqrtQ tfidf_matrix Hne) as Hsim.
set (sim := map (fun a => map (fun b => dot (normalized sqrtQ a) (normalized sqrtQ b))
                              tfidf_matrix) tfidf_matrix) in *.
assert (Hone : sim_at sim i j == 1).
{ rewrite (cosine_self_entry _ _ _ _ _ _ Hsim Hi Hj).
  unfold normalized, row_norm, handle_zeros_in_scale.
  assert (Hs : ~ sqrtQ (dot x x) == 0).
  { intros E. apply Hnz. rewrite <- Hsq, E. ring. }
  destruct (Qeq_bool (sqrtQ (dot x x)) 0) eqn:Eb.
  - exfalso. apply Hs. apply Qeq_bool_iff. exact Eb.
  - rewrite dot_scaled by exact Hs. rewrite Hsq. field. exact Hnz. }
assert (Hround : py_round (sim_at sim i j) 4 = 1).
{ rewrite (py_round_compat _ _ 4 Hone). vm_compute. reflexivity. }
assert (Hrun : exists dups,
          detect_duplicates strip_and_filter fit_transform sqrtQ resumes threshold
          = Ok dups).
{ unfold detect_duplicates.
  destruct (Nat.ltb_spec (List.length resumes) 2); [lia|].
  rewrite Hfit. cbn [bind]. rewrite Hsim. cbn [bind].
  apply scan_rows_returns.
  - apply length_map.
  - unfold sim. rewrite length_map. exact Hshape.
  - unfold sim. apply Forall_forall. intros row Hrow.
    apply in_map_iff in Hrow. destruct Hrow as [a [E _]]. subst row.
    rewrite length_map. exact Hshape.
  - apply Forall_forall. intros k Hk. unfold range in Hk. apply in_seq in Hk. lia. }
destruct Hrun as [dups Hrun]. exists dups. split; [exact Hrun|].
assert (Hn : (2 <= List.length resumes)%nat) by lia.
destruct (detect_duplicates_unfold _ _ _ _ _ _ Hn Hrun)
  as [tfidf' [sim' [Hfit' [Hsim' Edups]]]].
rewrite Hfit in Hfit'. inversion Hfit'; subst tfidf'.
rewrite Hsim in Hsim'. inversion Hsim'; subst sim'.
subst dups. apply in_map_iff. exists (i, j). split.
- unfold pair_record. cbn [fst snd]. rewrite Hround. reflexivity.
- apply filter_In. split.
  + apply pairs_below_In. lia.
  + unfold reported. cbn [fst snd]. rewrite Hround. apply Qle_bool_iff. exact Hthr.
Qed.

End DuplicateMore.

(** ** Text cleaning *)

Example strip_noise_sample :
  strip_noise (Str.lower
    "Contact: Jane.Doe@mail.org  https://jane.dev
     Senior C++ / C# dev, see www.example.com!")
  = "contact senior c++ c# dev see".
Proof. vm_compute. reflexivity. Qed.

Example email_pattern_backtracks :
  Sub.sub email_pattern "" "a@b@ x@ @y ok@ok." = " x@ @y ".
Proof. vm_compute. reflexivity. Qed.

Example url_pattern_sample :
  Sub.sub url_pattern "" "seehttp://a.b www wwwx http" = "see www  http".
Proof. vm_compute. reflexivity. Qed.

(** *** The substitutions as functions on the characters *)

Lemma sub_one (p : ascii -> bool) (repl : list ascii) (s : list ascii) :
  Sub.sub_from (Sub.One p) repl 0 s
  = flat_map (fun c => if p c then repl else [c]) s.
Proof.
induction s as [| c s IH]; [reflexivity|].
cbn [Sub.sub_from Sub.match_len flat_map].
destruct (p c); cbn [option_map]; rewrite IH; reflexivity.
Qed.

Lemma plus_more_spaces (s : list ascii) :
  Sub.plus_more Str.is_space s (fun _ => Some 0%nat) = Some (leading_spaces s).
Proof.
induction s as [| c s IH]; [reflexivity|].
cbn [Sub.plus_more leading_spaces].
destruct (Str.is_space c); [rewrite IH; reflexivity | reflexivity].
Qed.

Lemma sub_spaces (s : list ascii) :
  Sub.sub_from spaces_pattern [" "%char] (leading_spaces s) s = collapse true s
  /\ Sub.sub_from spaces_pattern [" "%char] 0 s = collapse false s.
Proof.
induction s as [| c s [IH1 IH2]]; [split; reflexivity|].
assert (H2 : Sub.sub_from spaces_pattern [" "%char] 0 (c :: s)
             = collapse false (c :: s)).
{ cbn [Sub.sub_from Sub.match_len spaces_pattern collapse].
  destruct (Str.is_space c).
  - rewrite plus_more_spaces. cbn [option_map app]. rewrite IH1. reflexivity.
  - rewrite IH2. reflexivity. }
split; [|exact H2].
cbn [leading_spaces]. destruct (Str.is_space c) eqn:E.
- cbn [Sub.sub_from collapse]. rewrite E. exact IH1.
- rewrite H2. cbn [collapse]. rewrite E. reflexivity.
Qed.

(** *** Blanks in the collapsed text *)

Lemma collapse_single_spaced (b : bool) (l : list ascii) :
  single_spaced b (collapse b l) = true.
Proof.
revert b. induction l as [| c l IH]; intros b; [reflexivity|].
cbn [collapse]. destruct (Str.is_space c) eqn:E.
- destruct b; [apply IH|].
  cbn [single_spaced]. change (Str.is_space " ") with true. cbn.
  apply IH.
- cbn [single_spaced]. rewrite E. apply IH.
Qed.

Lemma collapse_chars (P : ascii -> Prop) (b : bool) (l : list ascii) :
  P " "%char -> Forall (fun c => Str.is_space c = false -> P c) l ->
  Forall P (collapse b l).
Proof.
intros Hsp H. revert b. induction H as [| c l Hc _ IH]; intros b; [constructor|].
cbn [collapse]. destruct (Str.is_space c) eqn:E.
- destruct b; [apply IH | constructor; [exact Hsp | apply IH]].
- constructor; [apply Hc; reflexivity | apply IH].
Qed.

Lemma collapse_fixed (b : bool) (l : list ascii) :
  single_spaced b l = true -> collapse b l = l.
Proof.
revert b. induction l as [| c l IH]; intros b H; [reflexivity|].
cbn [single_spaced collapse] in *. destruct (Str.is_space c) eqn:E.
- apply andb_true_iff in H. destruct H as [H H3].
  apply andb_true_iff in H. destruct H as [H1 H2].
  apply Ascii.eqb_eq in H1. destruct b; [discriminate|].
  subst c. rewrite (IH true H3). reflexivity.
- rewrite (IH false H). reflexivity.
Qed.

Lemma single_spaced_weaken (b : bool) (l : list ascii) :
  single_spaced b l = true -> single_spaced false l = true.
Proof.
destruct l as [| c l]; [reflexivity|]. cbn [single_spaced].
destruct (Str.is_space c); [|exact (fun H => H)].
intros H. apply andb_true_iff in H. destruct H as [H H3].
apply andb_true_iff in H. destruct H as [H1 H2].
rewrite H1, H3. reflexivity.
Qed.

Lemma single_spaced_suffix (b : bool) (x y : list ascii) :
  single_spaced b (x ++ y) = true -> single_spaced false y = true.
Proof.
revert b. induction x as [| c x IH]; intros b H.
- apply (single_spaced_weaken b). exact H.
- cbn [app single_spaced] in H. destruct (Str.is_space c).
  + apply andb_true_iff in H. destruct H as [_ H]. apply (IH true H).
  + apply (IH false H).
Qed.

Lemma single_spaced_prefix (b : bool) (x y : list ascii) :
  single_spaced b (x ++ y) = true -> single_spaced b x = true.
Proof.
revert b. induction x as [| c x IH]; intros b H; [reflexivity|].
cbn [app single_spaced] in *. destruct (Str.is_space c).
- apply andb_true_iff in H. destruct H as [H1 H]. rewrite H1. apply (IH true H).
- apply (IH false H).
Qed.

(** *** [strip] *)

Lemma lstrip_split (l : list ascii) :
  exists pre, l = (pre ++ lstrip_chars l)%list
              /\ Forall (fun c => Str.is_space c = true) pre
              /\ starts_clean (lstrip_chars l) = true.
Proof.
induction l as [| c l [pre [E [Hpre Hclean]]]].
- exists []. repeat split; constructor.
- cbn [lstrip_chars]. destruct (Str.is_space c) eqn:Ec.
  + exists (c :: pre). split; [simpl; rewrite <- E; reflexivity|].
    split; [constructor; assumption | exact Hclean].
  + exists []. split; [reflexivity|]. split; [constructor|].
    simpl. rewrite Ec. reflexivity.
Qed.

Lemma lstrip_clean (l : list ascii) :
  starts_clean l = true -> lstrip_chars l = l.
Proof.
destruct l as [| c l]; [reflexivity|]. simpl.
destruct (Str.is_space c); [discriminate | reflexivity].
Qed.

Lemma starts_clean_app (x y : list ascii) :
  x <> [] -> starts_clean (x ++ y) = starts_clean x.
Proof. destruct x; [contradiction | reflexivity]. Qed.

(** [strip] cuts whitespace off both ends and nothing else. *)
Lemma strip_chars_split (l : list ascii) :
  exists pre post,
    l = (pre ++ strip_chars l ++ post)%list
    /\ Forall (fun c => Str.is_space c = true) pre
    /\ Forall (fun c => Str.is_space c = true) post
    /\ starts_clean (strip_chars l) = true
    /\ starts_clean (rev (strip_chars l)) = true.
Proof.
unfold strip_chars.
destruct (lstrip_split l) as [pre [E1 [Hpre Hc1]]].
destruct (lstrip_split (rev (lstrip_chars l))) as [post [E2 [Hpost Hc2]]].
set (m := lstrip_chars l) in *.
set (B := lstrip_chars (rev m)) in *.
exists pre, (rev post).
assert (Em : m = (rev B ++ rev post)%list).
{ rewrite <- (rev_involutive m), E2, rev_app_distr. reflexivity. }
split; [rewrite <- Em; exact E1|].
split; [exact Hpre|].
split; [apply Forall_rev; exact Hpost|].
split; [|rewrite rev_involutive; exact Hc2].
destruct B as [| b B'] eqn:EB; [reflexivity|].
rewrite Em in Hc1. rewrite starts_clean_app in Hc1; [exact Hc1|].
intros H. apply (f_equal (@List.length ascii)) in H.
rewrite length_rev in H. discriminate.
Qed.

Lemma strip_chars_fixed (l : list ascii) :
  starts_clean l = true -> starts_clean (rev l) = true -> strip_chars l = l.
Proof.
intros H1 H2. unfold strip_chars.
rewrite (lstrip_clean l H1), (lstrip_clean (rev l) H2). apply rev_involutive.
Qed.

(** *** The text after step 5 *)

Lemma strip_noise_chars (text : string) :
  exists l : list ascii,
    Forall (fun c => kept_char c = true \/ Str.is_space c = true) l
    /\ list_ascii_of_string (strip_noise text) = strip_chars (collapse false l).
Proof.
unfold strip_noise, strip, Sub.sub.
rewrite !list_ascii_of_string_of_list_ascii.
set (l0 := Sub.sub_from email_pattern _ 0 _).
exists (Sub.sub_from special_pattern [" "%char] 0 l0).
split.
- unfold special_pattern. rewrite sub_one.
  apply Forall_forall. intros c Hc. apply in_flat_map in Hc.
  destruct Hc as [c0 [_ Hc]].
  destruct (kept_char c0 || Str.is_space c0) eqn:E; cbn [negb] in Hc.
  + destruct Hc as [Hc | []]. subst c. apply orb_true_iff in E. exact E.
  + destruct Hc as [Hc | []]. subst c. right. reflexivity.
- change (list_ascii_of_string " ") with [" "%char].
  rewrite (proj2 (sub_spaces _)). reflexivity.
Qed.

(** X13. The text that [clean_text] has after its step 5, which it hands to
    the stop-word filter and returns when that filter fails, consists of
    words over the characters a-z, 0-9, +, - and #, separated by single
    blanks, with no blank at either end. *)
Theorem strip_noise_tidy (text : string) : tidy (strip_noise text).
Proof.
unfold tidy. cbv zeta.
destruct (strip_noise_chars text) as [l [Hl E]]. rewrite E. clear E.
set (c := collapse false l).
destruct (strip_chars_split c) as [pre [post [Ec [_ [_ [H1 H2]]]]]].
assert (Hchars : Forall (fun a => kept_char a = true \/ a = " "%char) c).
{ apply collapse_chars; [right; reflexivity|].
  eapply Forall_impl; [|exact Hl].
  intros a [Ha | Ha] Hs; [left; exact Ha | congruence]. }
assert (Hsp : single_spaced false c = true) by apply collapse_single_spaced.
split.
{ rewrite Ec in Hchars. apply Forall_app in Hchars. destruct Hchars as [_ H].
  apply Forall_app in H. destruct H as [H _]. exact H. }
split.
{ rewrite Ec in Hsp. apply single_spaced_suffix in Hsp.
  apply single_spaced_prefix in Hsp. exact Hsp. }
split; assumption.
Qed.

Lemma strip_spaces_fixed (s : string) :
  tidy s -> strip (Sub.sub spaces_pattern " " s) = s.
Proof.
intros [_ [Hsp [H1 H2]]]. unfold strip, Sub.sub.
rewrite list_ascii_of_string_of_list_ascii.
change (list_ascii_of_string " ") with [" "%char].
rewrite (proj2 (sub_spaces _)), (collapse_fixed _ _ Hsp).
rewrite (strip_chars_fixed _ H1 H2). apply string_of_list_ascii_of_string.
Qed.

Lemma stopword_filter_split (stop_words tokens : list string) :
  filter (fun token =>
            negb (str_in token stop_words) && (1 <? String.length token)%nat)
         tokens
  = filter (fun token => negb (str_in token stop_words))
           (filter (fun token => (2 <=? String.length token)%nat) tokens).
Proof.
induction tokens as [| t tokens IH]; [reflexivity|].
cbn [filter].
replace (1 <? String.length t)%nat with (2 <=? String.length t)%nat
  by (destruct (Nat.leb_spec 2 (String.length t)),
               (Nat.ltb_spec 1 (String.length t)); reflexivity || lia).
destruct (2 <=? String.length t)%nat.
- cbn [filter]. destruct (negb (str_in t stop_words)); cbn [andb].
  + rewrite IH. reflexivity.
  + exact IH.
- rewrite andb_false_r. exact IH.
Qed.

Section CleanTextFacts.

Variable stopwords_english : result (list string).
Variable word_tokenize : string -> result (list string).

(** X14. [clean_text] does not fail with the stop-word filter: when the
    stop-word list or the tokenizer raises, it returns the text of step 5
    unchanged (collapsing and trimming it again alters nothing), so the
    result is tidy; when both return, the result is the tokens joined by
    single blanks, without the stop words and the tokens of one
    character. *)
Theorem clean_text_with_filter (text : string) :
  let cleaned := clean_text (clean_steps stopwords_english word_tokenize) text in
  let noiseless := strip_noise (Str.lower text) in
  (forall e, remove_stopwords stopwords_english word_tokenize noiseless = Raise e ->
     cleaned = noiseless /\ tidy cleaned)
  /\ (forall stop_words tokens,
        stopwords_english = Ok stop_words ->
        word_tokenize noiseless = Ok tokens ->
        text <> "" ->
        exists kept,
          cleaned = Str.join " " kept
          /\ kept = filter (fun token => negb (str_in token stop_words)) 
                           (filter (fun token => (2 <=? String.length token)%nat) tokens)
          /\ Forall (fun token => ~ In token stop_words
                                  /\ (2 <= String.length token)%nat) kept).
Proof.
cbv zeta. split.
- intros e He.
  assert (E : clean_text (clean_steps stopwords_english word_tokenize) text
              = strip_noise (Str.lower text)).
  { unfold clean_text. destruct (String.eqb_spec text "") as [Et | Et].
    - subst. vm_compute. reflexivity.
    - unfold clean_steps. rewrite He.
      apply strip_spaces_fixed, strip_noise_tidy. }
  split; [exact E | rewrite E; apply strip_noise_tidy].
- intros stop_words tokens Hsw Htok Hne.
  eexists. split; [|split; [reflexivity|]].
  + unfold clean_text. destruct (String.eqb_spec text ""); [contradiction|].
    unfold clean_steps, remove_stopwords. rewrite Hsw. cbn [bind].
    rewrite Htok. cbn [bind]. rewrite stopword_filter_split. reflexivity.
  + apply Forall_forall. intros t Ht.
    apply filter_In in Ht. destruct Ht as [Ht Hs].
    apply filter_In in Ht. destruct Ht as [_ Hl].
    split.
    * intros Hin. apply str_in_In in Hin. rewrite Hin in Hs. discriminate.
    * apply Nat.leb_le. exact Hl.
Qed.

End CleanTextFacts.

(** ** Parsing uploads *)

Example splitext_samples :
  map splitext ["john_doe.pdf"; "jane.doe.CV.txt"; ".bashrc"; "notes";
                "dir.v2/readme"; "..pdf"; "a/.hidden.txt"]
  = [("john_doe", ".pdf"); ("jane.doe.CV", ".txt"); (".bashrc", "");
     ("notes", ""); ("dir.v2/readme", ""); ("..pdf", "");
     ("a/.hidden", ".txt")].
Proof. vm_compute. reflexivity. Qed.

Example endswith_samples :
  map (fun s => endswith s ".pdf") ["a.pdf"; ".pdf"; "pdf"; "a.pdf.txt"; ""]
  = [true; true; false; false; false].
Proof. vm_compute. reflexivity. Qed.

(** *** [splitext] *)

Lemma rfind_from_absent (c : ascii) (s : list ascii) (i best : Z) :
  ~ In c s -> rfind_from c s i best = best.
Proof.
revert i best. induction s as [| x s IH]; intros i best H; [reflexivity|].
cbn [rfind_from]. destruct (Ascii.eqb_spec x c) as [E | E].
- exfalso. apply H. left. exact E.
- apply IH. intros Hin. apply H. right. exact Hin.
Qed.

Lemma rfind_from_last (c : ascii) (a b : list ascii) (i best : Z) :
  ~ In c b ->
  rfind_from c (a ++ c :: b) i best = (i + Z.of_nat (List.length a))%Z.
Proof.
intros Hb. revert i best. induction a as [| x a IH]; intros i best.
- cbn [app rfind_from]. rewrite Ascii.eqb_refl.
  rewrite rfind_from_absent by exact Hb. simpl. lia.
- cbn [app rfind_from]. rewrite IH. cbn [List.length]. lia.
Qed.

Lemma rfind_from_app_absent (c : ascii) (a b : list ascii) (i best : Z) :
  ~ In c b -> rfind_from c (a ++ b) i best = rfind_from c a i best.
Proof.
intros Hb. revert i best. induction a as [| x a IH]; intros i best.
- cbn [app]. rewrite rfind_from_absent by exact Hb. reflexivity.
- cbn [app rfind_from]. apply IH.
Qed.

Lemma rfind_from_range (c : ascii) (s : list ascii) (i best : Z) :
  (best < i)%Z ->
  (best <= rfind_from c s i best < i + Z.of_nat (List.length s))%Z
  \/ (rfind_from c s i best = best /\ s = []).
Proof.
revert i best. induction s as [| x s IH]; intros i best H.
- right. split; reflexivity.
- left. cbn [rfind_from List.length].
  destruct (Ascii.eqb x c).
  + destruct (IH (i + 1)%Z i) as [H1 | [H1 _]]; lia.
  + destruct (IH (i + 1)%Z best) as [H1 | [H1 _]]; lia.
Qed.

Lemma rfind_bounds (c : ascii) (s : list ascii) :
  (-1 <= rfind c s < Z.of_nat (List.length s))%Z \/ (rfind c s = (-1)%Z /\ s = []).
Proof.
unfold rfind. destruct (rfind_from_range c s 0 (-1)) as [H | H]; [lia | | ].
- left. lia.
- right. exact H.
Qed.

Lemma skip_leading_dots_finds (p : list ascii) (dotIndex filenameIndex : Z)
    (steps : nat) (k : nat) (c : ascii) :
  (0 <= filenameIndex)%Z ->
  steps = Z.to_nat (dotIndex - filenameIndex) ->
  (filenameIndex <= Z.of_nat k < dotIndex)%Z ->
  nth_error p k = Some c -> c <> "."%char ->
  skip_leading_dots p dotIndex filenameIndex steps
  = (upto p dotIndex, from p dotIndex).
Proof.
revert filenameIndex. induction steps as [| steps IH];
  intros filenameIndex H0 Hs Hk Hc Hne.
- lia.
- cbn [skip_leading_dots].
  destruct (nth_error p (Z.to_nat filenameIndex)) as [x |] eqn:Ex;
    [|reflexivity].
  destruct (Ascii.eqb_spec x ".") as [E | E].
  + subst x.
    assert (Z.of_nat k <> filenameIndex).
    { intros Ek. rewrite <- Ek, Nat2Z.id, Hc in Ex. inversion Ex. congruence. }
    apply IH; try assumption; lia.
  + destruct x as [[] [] [] [] [] [] [] []]; try reflexivity.
    exfalso. apply E. reflexivity.
Qed.

Lemma splitext_chars_joins (p : list ascii) :
  (fst (splitext_chars p) ++ snd (splitext_chars p))%list = p.
Proof.
unfold splitext_chars. destruct (_ <? _)%Z; [|apply app_nil_r].
generalize (rfind "." p) (rfind "/" p + 1)%Z
           (Z.to_nat (rfind "." p - (rfind "/" p + 1))).
intros d f steps. revert f. induction steps as [| steps IH]; intros f.
- apply app_nil_r.
- cbn [skip_leading_dots].
  destruct (nth_error p (Z.to_nat f)) as [x |];
    [| apply firstn_skipn].
  destruct x as [[] [] [] [] [] [] [] []]; try apply firstn_skipn. apply IH.
Qed.

Lemma string_app_chars (a b : string) :
  list_ascii_of_string (a ++ b)
  = (list_ascii_of_string a ++ list_ascii_of_string b)%list.
Proof.
induction a as [| c a IH]; [reflexivity|]. simpl. rewrite IH. reflexivity.
Qed.

Lemma string_of_chars_app (a b : list ascii) :
  string_of_list_ascii (a ++ b)
  = (string_of_list_ascii a ++ string_of_list_ascii b)%string.
Proof.
induction a as [| c a IH]; [reflexivity|]. simpl. rewrite IH. reflexivity.
Qed.

(** X15. [splitext] only cuts: root and extension put together give the
    file name back. When the name is [stem.ext], with no dot or slash in
    [ext] and a character other than the dot in the last path component of
    [stem], the root (the candidate name of [parse_resume]) is [stem] and
    the extension is [.ext]. *)
Theorem splitext_root (p stem ext : string) :
  (fst (splitext p) ++ snd (splitext p))%string = p
  /\ (~ In "."%char (list_ascii_of_string ext) ->
      ~ In "/"%char (list_ascii_of_string ext) ->
      (exists c, In c (from (list_ascii_of_string stem)
                            (rfind "/" (list_ascii_of_string stem) + 1))
                 /\ c <> "."%char) ->
      splitext (stem ++ "." ++ ext) = (stem, ("." ++ ext)%string)).
Proof.
split.
{ unfold splitext. pose proof (splitext_chars_joins (list_ascii_of_string p)) as H.
  destruct (splitext_chars (list_ascii_of_string p)) as [root e]. cbn [fst snd] in *.
  rewrite <- string_of_chars_app, H. apply string_of_list_ascii_of_string. }
intros Hdot Hsep [c [Hc Hne]].
set (s := list_ascii_of_string stem) in *.
set (e := list_ascii_of_string ext) in *.
assert (Ep : list_ascii_of_string (stem ++ "." ++ ext) = (s ++ "."%char :: e)%list).
{ rewrite string_app_chars. reflexivity. }
unfold splitext. rewrite Ep. unfold splitext_chars.
assert (Ed : rfind "." (s ++ "."%char :: e) = Z.of_nat (List.length s)).
{ unfold rfind. rewrite rfind_from_last by exact Hdot. lia. }
assert (Es : rfind "/" (s ++ "."%char :: e) = rfind "/" s).
{ unfold rfind. apply rfind_from_app_absent.
  intros [H | H]; [discriminate | contradiction]. }
rewrite Ed, Es.
assert (Hb : (-1 <= rfind "/" s < Z.of_nat (List.length s))%Z).
{ destruct (rfind_bounds "/" s) as [H | [_ H]]; [exact H|].
  exfalso. unfold from in Hc. rewrite H in Hc. destruct (Z.to_nat _); destruct Hc. }
destruct (Z.ltb_spec (rfind "/" s) (Z.of_nat (List.length s))); [|lia].
unfold from in Hc. apply In_nth_error in Hc. destruct Hc as [j Hj].
rewrite nth_error_skipn in Hj.
assert (Hlt : (Z.to_nat (rfind "/" s + 1) + j < List.length s)%nat).
{ apply nth_error_Some. congruence. }
rewrite (skip_leading_dots_finds _ _ _ _ (Z.to_nat (rfind "/" s + 1) + j) c);
  try assumption; try lia.
- unfold upto, from. rewrite Nat2Z.id.
  rewrite firstn_app, firstn_all, Nat.sub_diag. cbn [firstn]. rewrite app_nil_r.
  rewrite skipn_app, skipn_all, Nat.sub_diag. cbn [skipn app].
  unfold s, e. rewrite !string_of_list_ascii_of_string.
  change (string_of_list_ascii ("."%char :: list_ascii_of_string ext))
    with (String "." (string_of_list_ascii (list_ascii_of_string ext))).
  rewrite string_of_list_ascii_of_string. reflexivity.
- rewrite nth_error_app1 by exact Hlt. exact Hj.
Qed.

(** *** [parse_all_resumes] *)

Lemma strip_empty : strip "" = "".
Proof. reflexivity. Qed.

Lemma strip_nonempty_text (t : string) : strip t <> "" -> t <> "".
Proof. intros H E. subst. apply H. reflexivity. Qed.

Section ParserFacts.

Variable fitz_pages : string -> result (list string).
Variable decode_utf8_ignore : string -> string.

Lemma parse_resume_unsupported (f : UploadedFile) :
  supported f = false -> closed f = false ->
  parse_resume fitz_pages decode_utf8_ignore f
  = (Ok (fst (splitext (file_name f)), ""), at_end f).
Proof.
unfold supported, parse_resume, read. intros H Hopen. apply orb_false_iff in H.
destruct H as [H1 H2]. rewrite Hopen, H1, H2. reflexivity.
Qed.

Lemma parse_resume_closed (f : UploadedFile) :
  closed f = true ->
  parse_resume fitz_pages decode_utf8_ignore f
  = (Raise (ValueError "I/O operation on closed file."), f).
Proof. unfold parse_resume, read. intros H. rewrite H. reflexivity. Qed.

Lemma parse_resume_name (f : UploadedFile) (parsed : string * string) :
  fst (parse_resume fitz_pages decode_utf8_ignore f) = Ok parsed ->
  fst parsed = fst (splitext (file_name f)).
Proof.
unfold parse_resume, read. destruct (closed f); [discriminate|]. cbn [fst bind].
destruct (if endswith _ _ then _ else _) as [t | e]; [|discriminate].
cbn [bind]. intros H. inversion H. reflexivity.
Qed.

Lemma parse_resume_reads (f f' : UploadedFile) (parsed : string * string) :
  parse_resume fitz_pages decode_utf8_ignore f = (Ok parsed, f') ->
  f' = at_end f.
Proof.
unfold parse_resume, read. destruct (closed f); [discriminate|].
intros H. inversion H. reflexivity.
Qed.

(** What one turn of the loop returns or raises. *)
Lemma parse_loop_cons (f : UploadedFile) (rest : list UploadedFile)
    (acc : list Resume) :
  fst (parse_loop fitz_pages decode_utf8_ignore (f :: rest) acc)
  = match fst (parse_resume fitz_pages decode_utf8_ignore f) with
    | Raise e => Raise e
    | Ok parsed =>
        fst (parse_loop fitz_pages decode_utf8_ignore rest
               (if String.eqb (strip (snd parsed)) "" then acc
                else (acc ++ [ {| name := fst parsed; text := snd parsed |} ])%list))
    end.
Proof.
cbn [parse_loop].
destruct (parse_resume fitz_pages decode_utf8_ignore f) as [[parsed | e] f'];
  [|reflexivity].
cbn [fst]. destruct (String.eqb (strip (snd parsed)) "");
  match goal with |- context [parse_loop ?a ?b ?c ?d] =>
    destruct (parse_loop a b c d) end; reflexivity.
Qed.

Lemma parse_loop_reads (files files' : list UploadedFile)
    (acc out : list Resume) :
  parse_loop fitz_pages decode_utf8_ignore files acc = (Ok out, files') ->
  files' = map at_end files.
Proof.
revert files' acc out. induction files as [| f files IH]; intros files' acc out H.
- cbn in H. inversion H. reflexivity.
- cbn [parse_loop] in H.
  destruct (parse_resume fitz_pages decode_utf8_ignore f) as [[parsed | e] f']
    eqn:Ep; [|discriminate].
  apply parse_resume_reads in Ep. subst f'.
  destruct (String.eqb (strip (snd parsed)) "");
    match type of H with context [parse_loop ?a ?b ?c ?d] =>
      destruct (parse_loop a b c d) as [outcome rest'] eqn:El end;
    inversion H; subst; cbn [map]; f_equal; eapply IH; exact El.
Qed.

Lemma parse_loop_raises (files : list UploadedFile) (acc : list Resume)
    (f : UploadedFile) (e : exn) :
  In f files ->
  fst (parse_resume fitz_pages decode_utf8_ignore f) = Raise e ->
  exists e', fst (parse_loop fitz_pages decode_utf8_ignore files acc) = Raise e'.
Proof.
revert acc. induction files as [| g files IH]; intros acc Hin Hf; [destruct Hin|].
rewrite parse_loop_cons.
destruct (fst (parse_resume fitz_pages decode_utf8_ignore g)) as [parsed | e0] eqn:Eg.
- destruct Hin as [Hin | Hin]; [subst g; congruence|].
  apply IH; assumption.
- exists e0. reflexivity.
Qed.

Lemma parse_loop_unsupported (files : list UploadedFile) (acc : list Resume) :
  Forall (fun f => supported f = false -> closed f = false) files ->
  fst (parse_loop fitz_pages decode_utf8_ignore files acc)
  = fst (parse_loop fitz_pages decode_utf8_ignore (filter supported files) acc).
Proof.
intros Hopen. revert acc.
induction Hopen as [| f files Hf _ IH]; intros acc; [reflexivity|].
cbn [filter]. destruct (supported f) eqn:E.
- rewrite !parse_loop_cons.
  destruct (fst (parse_resume fitz_pages decode_utf8_ignore f)) as [parsed | e];
    [apply IH | reflexivity].
- rewrite parse_loop_cons, (parse_resume_unsupported f E (Hf eq_refl)).
  cbn [fst snd]. rewrite strip_empty. cbn. apply IH.
Qed.

(** X16. [parse_all_resumes] reads every uploaded file, of whatever type,
    before it looks at the extension. When it returns, each file is left at
    the end of its stream; a file that cannot be read, being closed, makes
    the call raise, also when its type is unsupported. That read apart, a
    file of an unsupported type counts for nothing: when the unsupported
    files can be read, taking them out of the upload list changes nothing in
    what [parse_all_resumes] returns or raises. *)
Theorem parse_all_resumes_unsupported_files (uploaded_files : list UploadedFile) :
  (forall (resumes : list Resume) (files' : list UploadedFile),
      parse_all_resumes fitz_pages decode_utf8_ignore uploaded_files
      = (Ok resumes, files') ->
      files' = map at_end uploaded_files)
  /\ (forall f : UploadedFile,
        In f uploaded_files -> closed f = true ->
        exists e,
          fst (parse_all_resumes fitz_pages decode_utf8_ignore uploaded_files)
          = Raise e)
  /\ (Forall (fun f => supported f = false -> closed f = false) uploaded_files ->
      fst (parse_all_resumes fitz_pages decode_utf8_ignore uploaded_files)
      = fst (parse_all_resumes fitz_pages decode_utf8_ignore
               (filter supported uploaded_files))).
Proof.
unfold parse_all_resumes. split; [|split].
- intros resumes files' H. exact (parse_loop_reads _ _ _ _ H).
- intros f Hin Hclosed.
  apply (parse_loop_raises _ _ f (ValueError "I/O operation on closed file.") Hin).
  rewrite (parse_resume_closed f Hclosed). reflexivity.
- apply parse_loop_unsupported.
Qed.

Lemma parse_loop_added (files : list UploadedFile) (acc out : list Resume) :
  fst (parse_loop fitz_pages decode_utf8_ignore files acc) = Ok out ->
  exists added,
    out = (acc ++ added)%list
    /\ (List.length added <= List.length (filter supported files))%nat
    /\ Forall (fun r => strip (text r) <> ""
                        /\ exists f, In f files /\ supported f = true
                             /\ name r = fst (splitext (file_name f))) added.
Proof.
revert acc out. induction files as [| f files IH]; intros acc out H.
- cbn in H. inversion H. exists []. rewrite app_nil_r.
  repeat split; [simpl; lia | constructor].
- rewrite parse_loop_cons in H.
  destruct (fst (parse_resume fitz_pages decode_utf8_ignore f)) as [parsed |] eqn:Ep;
    [|discriminate].
  destruct (String.eqb_spec (strip (snd parsed)) "") as [Eb | Eb].
  + destruct (IH _ _ H) as [added [E [Hlen Hall]]].
    exists added. split; [exact E|]. split.
    * cbn [filter]. destruct (supported f); simpl; lia.
    * eapply Forall_impl; [|exact Hall].
      intros r [H1 [g [Hg H2]]]. split; [exact H1|].
      exists g. split; [right; exact Hg | exact H2].
  + destruct (IH _ _ H) as [added [E [Hlen Hall]]].
    assert (Hsup : supported f = true).
    { destruct (supported f) eqn:Es; [reflexivity|]. exfalso.
      destruct (closed f) eqn:Ec.
      - rewrite (parse_resume_closed f Ec) in Ep. discriminate.
      - rewrite (parse_resume_unsupported f Es Ec) in Ep. inversion Ep; subst.
        apply Eb. reflexivity. }
    exists ({| name := fst parsed; text := snd parsed |} :: added).
    split; [rewrite E, <- app_assoc; reflexivity|]. split.
    * cbn [filter]. rewrite Hsup. simpl. lia.
    * constructor.
      -- cbn [text name]. split; [exact Eb|]. exists f.
         split; [left; reflexivity|]. split; [exact Hsup|].
         apply (parse_resume_name f parsed Ep).
      -- eapply Forall_impl; [|exact Hall].
         intros r [H1 [g [Hg H2]]]. split; [exact H1|].
         exists g. split; [right; exact Hg | exact H2].
Qed.

(** X17. Every resume that [parse_all_resumes] returns has a text with a
    character that is not whitespace, so its text is not empty, and is named
    after the root of the name of an uploaded file of a supported type;
    there are at most as many resumes as supported files. *)
Theorem parse_all_resumes_resumes (uploaded_files : list UploadedFile)
    (resumes : list Resume) :
  fst (parse_all_resumes fitz_pages decode_utf8_ignore uploaded_files)
  = Ok resumes ->
  (List.length resumes <= List.length (filter supported uploaded_files))%nat
  /\ Forall (fun r =>
               strip (text r) <> "" /\ text r <> ""
               /\ exists f, In f uploaded_files /\ supported f = true
                    /\ name r = fst (splitext (file_name f))) resumes.
Proof.
intros H. unfold parse_all_resumes in H.
destruct (parse_loop_added _ _ _ H) as [added [E [Hlen Hall]]].
cbn [app] in E. subst added. split; [exact Hlen|].
eapply Forall_impl; [|exact Hall].
intros r [H1 H2]. split; [exact H1|]. split; [|exact H2].
apply strip_nonempty_text. exact H1.
Qed.

(** X18. One unreadable PDF fails the whole batch: when the PDF reader
    raises on a file whose name ends in ".pdf" (in any letter case),
    [parse_all_resumes] raises and returns no resume at all, whatever the
    other files are. *)
Theorem parse_all_resumes_unreadable_pdf (uploaded_files : list UploadedFile)
    (f : UploadedFile) (e : exn) :
  In f uploaded_files ->
  endswith (Str.lower (file_name f)) ".pdf" = true ->
  fitz_pages (file_bytes f) = Raise e ->
  exists e',
    fst (parse_all_resumes fitz_pages decode_utf8_ignore uploaded_files)
    = Raise e'.
Proof.
intros Hin Hpdf Hraise. destruct (closed f) eqn:Hclosed.
- apply (parse_loop_raises _ _ f (ValueError "I/O operation on closed file.") Hin).
  rewrite (parse_resume_closed f Hclosed). reflexivity.
- apply (parse_loop_raises _ _ f e Hin).
  unfold parse_resume, read, extract_text_from_pdf.
  rewrite Hclosed, Hpdf. cbn [fst bind]. rewrite Hraise. reflexivity.
Qed.

End ParserFacts.

(** ** Match strength in the chart and in the table *)

(** X19. The ranking chart and the ranked table grade a similarity score
    alike: the bar is green exactly when the match level is Strong (score
    at least 0.60), amber exactly when it is Moderate (score from 0.30 up to
    0.60), and red exactly when it is Weak (score below 0.30). *)
Theorem score_color_matches_level (score : Q) :
  (60 # 100 <= score
   /\ _score_color score = STRONG_MATCH_COLOR
   /\ match_level score = "🟢 Strong")
  \/ (30 # 100 <= score /\ score < 60 # 100
      /\ _score_color score = MODERATE_COLOR
      /\ match_level score = "🟡 Moderate")
  \/ (score < 30 # 100
      /\ _score_color score = WEAK_COLOR
      /\ match_level score = "🔴 Weak").
Proof.
unfold _score_color, match_level.
destruct (Qle_bool (60 # 100) score) eqn:E6.
{ left. split; [apply Qle_bool_iff; exact E6 | split; reflexivity]. }
apply Qle_bool_false in E6.
destruct (Qle_bool (30 # 100) score) eqn:E3.
{ right; left. split; [apply Qle_bool_iff; exact E3|].
  split; [exact E6 | split; reflexivity]. }
apply Qle_bool_false in E3.
right; right. split; [exact E3 | split; reflexivity].
Qed.

(** X20. The cell style of the table is chosen from the percentage, not
    from the score: [color_score] compares the value of the 'Similarity
    Score (%)' column with 0.60 and 0.30, so every score of at least 0.006
    gets the style of a strong match, also when its match level is Weak or
    Moderate. *)
Theorem color_score_on_percent (s : Q) :
  6 # 1000 <= s ->
  color_score (similarity_percent s)
  = "background-color: #dcfce7; color: #15803d; font-weight:600"
  /\ (s < 30 # 100 -> match_level s = "🔴 Weak")
  /\ (30 # 100 <= s -> s < 60 # 100 -> match_level s = "🟡 Moderate").
Proof.
intros Hs. split.
- unfold color_score, similarity_percent.
  assert (H : 60 # 100 <= py_round (s * 100) 2).
  { unfold py_round. rewrite Qred_correct.
    assert (Hz : (60 <= round_half_even (s * 100 * inject_Z (10 ^ Z.of_nat 2)))%Z).
    { apply round_half_even_lower. change (inject_Z (10 ^ Z.of_nat 2)) with 100.
      change (inject_Z 60) with 60. lra. }
    change (inject_Z (10 ^ Z.of_nat 2)) with 100 in *.
    apply Qle_shift_div_l; [lra|].
    rewrite Zle_Qle in Hz. change (inject_Z 60) with 60 in Hz. lra. }
  apply Qle_bool_iff in H. rewrite H. reflexivity.
- unfold match_level. split.
  + intros Hlt.
    destruct (Qle_bool (60 # 100) s) eqn:E6;
      [apply Qle_bool_iff in E6; lra|].
    destruct (Qle_bool (30 # 100) s) eqn:E3;
      [apply Qle_bool_iff in E3; lra | reflexivity].
  + intros H3 H6.
    destruct (Qle_bool (60 # 100) s) eqn:E6;
      [apply Qle_bool_iff in E6; lra|].
    apply Qle_bool_iff in H3. rewrite H3. reflexivity.
Qed.

(** ** Concrete runs of the further properties *)

Example parse_all_resumes_sample :
  parse_all_resumes Samples.fitz_pages Samples.decode_utf8_ignore Samples.uploads
  = (Ok [ {| name := "jane_doe"; text := "Jane Doe  Skills: Python" |};
          {| name := "bob.smith"; text := "barista" |} ],
     map at_end Samples.uploads).
Proof. reflexivity. Qed.

(** A closed file of an unsupported type stops the batch, and the files
    behind it are not read. *)
Example parse_all_resumes_closed_sample :
  parse_all_resumes Samples.fitz_pages Samples.decode_utf8_ignore
    (Samples.closed_upload :: Samples.uploads)
  = (Raise (ValueError "I/O operation on closed file."),
     Samples.closed_upload :: Samples.uploads).
Proof. reflexivity. Qed.

Lemma analysis_ignores_case_witness :
  extract_skills "PYTHON and Sql" = extract_skills "python AND sql"
  /\ analyze_resume_quality "PYTHON and Sql"
     = analyze_resume_quality "python AND sql".
Proof.
apply (analysis_ignores_case "PYTHON and Sql" "python AND sql").
reflexivity.
Defined.

Lemma skill_pattern_is_whole_word_witness :
  Re.search (skill_pattern "python") "monty python's circus"
  = occurs_whole_word "python" "monty python's circus".
Proof.
apply (skill_pattern_is_whole_word "python" "monty python's circus").
- left. reflexivity.
- discriminate.
- discriminate.
Defined.

Lemma analyze_resume_quality_whole_score_witness :
  let r := analyze_resume_quality (text Demo.alice) in
  score r == weight_sum (sections_found (Str.lower (text Demo.alice)))
  /\ (exists z : Z, (0 <= z <= 10)%Z /\ score r == inject_Z z)
  /\ (score r == 10 <-> feedback r = [])
  /\ (score r == 0 <-> sections_found (Str.lower (text Demo.alice)) = []).
Proof.
apply (analyze_resume_quality_whole_score (text Demo.alice)).
discriminate.
Defined.

Lemma rank_candidates_row_columns_witness :
  let r := nth 0 Demo.ranked (0%nat, {| Rank := 0; columns := row_of Demo.dave 0 |}) in
  let row := columns (snd r) in
  skill_count row = List.length (skills_list row)
  /\ extracted_skills row
     = match skills_list row with
       | [] => "None detected"
       | _ :: _ => Str.join ", " (skills_list row)
       end
  /\ quality_label row = get_quality_label (quality_score row)
  /\ score (quality_detail row) = quality_score row
  /\ py_round (similarity_score row) 4 = similarity_score row
  /\ exists resume, In resume Demo.applicants
       /\ candidate_name row = name resume
       /\ skills_list row = extract_skills (text resume)
       /\ quality_detail row = analyze_resume_quality (text resume).
Proof.
apply (rank_candidates_row_columns Demo.strip_and_filter Demo.fit_transform
         Demo.sqrtQ Demo.job Demo.applicants Demo.ranked).
- vm_compute. reflexivity.
- left. reflexivity.
Defined.

Lemma rank_candidates_keeps_candidates_witness :
  Permutation (map (fun r => candidate_name (columns (snd r))) Demo.ranked)
              (map name Demo.applicants).
Proof.
apply (rank_candidates_keeps_candidates Demo.strip_and_filter Demo.fit_transform
         Demo.sqrtQ Demo.job Demo.applicants Demo.ranked).
vm_compute. reflexivity.
Defined.

Lemma top_recommendations_of_ranking_witness :
  map (fun r => Rank (snd r)) (get_top_recommendations Demo.ranked 2)
  = seq 1 (Nat.min (Z.to_nat 2) (List.length Demo.applicants)).
Proof.
apply (top_recommendations_of_ranking Demo.strip_and_filter Demo.fit_transform
         Demo.sqrtQ Demo.job Demo.applicants Demo.ranked 2).
- vm_compute. reflexivity.
- lia.
Defined.

Lemma detect_duplicates_threshold_filters_witness :
  Samples.duplicates_at (9 # 10)
  = filter (fun d => Qle_bool (9 # 10) (similarity d))
           (Samples.duplicates_at (0 # 1)).
Proof.
apply (detect_duplicates_threshold_filters Demo.strip_and_filter
         Demo.fit_transform Demo.sqrtQ Demo.applicants (0 # 1) (9 # 10)).
- vm_compute. discriminate.
- vm_compute. reflexivity.
- vm_compute. reflexivity.
Defined.

Lemma duplicate_test_symmetric_witness :
  sim_at Samples.applicants_sim 0 2 == sim_at Samples.applicants_sim 2 0
  /\ similarity (pair_record ["bob"; "alice"; "carol"] Samples.applicants_sim (0, 2)%nat)
     = similarity (pair_record ["bob"; "alice"; "carol"] Samples.applicants_sim (2, 0)%nat)
  /\ reported Samples.applicants_sim (9 # 10) (0, 2)%nat
     = reported Samples.applicants_sim (9 # 10) (2, 0)%nat.
Proof.
apply (duplicate_test_symmetric Demo.sqrtQ Demo.applicants_tfidf
         Samples.applicants_sim ["bob"; "alice"; "carol"] (9 # 10) 0 2).
- vm_compute. reflexivity.
- vm_compute. lia.
- vm_compute. lia.
Defined.

Lemma detect_duplicates_identical_vectors_witness :
  exists dups,
    Demo.duplicates Samples.twins (9 # 10) = Ok dups
    /\ In {| candidate_a := name_at (map name Samples.twins) 0;
             candidate_b := name_at (map name Samples.twins) 1;
             similarity := 1 |} dups.
Proof.
apply (detect_duplicates_identical_vectors Demo.strip_and_filter
         Demo.fit_transform Demo.sqrtQ Samples.twins (9 # 10)
         Samples.twins_tfidf 0 1 [1; 1; 1; 1]).
- vm_compute. reflexivity.
- reflexivity.
- lia.
- reflexivity.
- reflexivity.
- vm_compute. discriminate.
- vm_compute. reflexivity.
- vm_compute. discriminate.
Defined.

Lemma parse_all_resumes_resumes_witness :
  (List.length Samples.parsed <= List.length (filter supported Samples.uploads))%nat
  /\ Forall (fun r =>
               strip (text r) <> "" /\ text r <> ""
               /\ exists f, In f Samples.uploads /\ supported f = true
                    /\ name r = fst (splitext (file_name f))) Samples.parsed.
Proof.
apply (parse_all_resumes_resumes Samples.fitz_pages Samples.decode_utf8_ignore
         Samples.uploads Samples.parsed).
vm_compute. reflexivity.
Defined.

Lemma parse_all_resumes_unreadable_pdf_witness :
  exists e',
    fst (parse_all_resumes Samples.fitz_pages Samples.decode_utf8_ignore
           (Samples.uploads ++ [Samples.broken_upload]))
    = Raise e'.
Proof.
apply (parse_all_resumes_unreadable_pdf Samples.fitz_pages
         Samples.decode_utf8_ignore (Samples.uploads ++ [Samples.broken_upload])
         Samples.broken_upload (ValueError "cannot open broken document")).
- apply in_or_app. right. left. reflexivity.
- reflexivity.
- reflexivity.
Defined.

Lemma color_score_on_percent_witness :
  color_score (similarity_percent (1 # 10))
  = "background-color: #dcfce7; color: #15803d; font-weight:600"
  /\ (1 # 10 < 30 # 100 -> match_level (1 # 10) = "🔴 Weak")
  /\ (30 # 100 <= 1 # 10 -> 1 # 10 < 60 # 100 -> match_level (1 # 10) = "🟡 Moderate").
Proof.
apply (color_score_on_percent (1 # 10)).
vm_compute. discriminate.
Defined.
